(** * Document pipeline: extraction, normalisation, tokenisation

    A shallow embedding of the TypeScript sources

      - [utils/textPreprocessing]  (class [TextPreprocessor]),
      - [utils/textExtraction]     (class [DocumentExtractor]),
      - [utils/tokenization]       (class [TokenizationService]),
      - [utils/fileValidation]     ([validateFile]),
      - [App]                      ([processDocuments]),

    followed by the properties established about them.

    Conventions of the embedding.
      - A JavaScript string is the list of its UTF-16 code units
        ([jsstring]); [js "..."] turns an ASCII literal into one.
      - Asynchronous code is sequenced: every [await] is a call whose
        outcome (a value or a thrown value) is supplied by the
        environment.  Effects are recorded as a trace of [event]s in the
        monad [M]; [try]/[catch] is [try_catch].
      - JavaScript numbers that the code computes by division are kept as
        exact rationals ([Q]); the two non-finite results of a division of
        lengths are explicit ([PosInfinity], [NaN]). *)

From Stdlib Require Import List NArith ZArith QArith Qround Bool Ascii String Lia.
From Stdlib Require Import DecimalString.
Import ListNotations.

Set Implicit Arguments.
Set Warnings "-register-all".
Close Scope Q_scope.
Open Scope nat_scope.

(* ===================================================================== *)
(** ** JavaScript strings *)
(* ===================================================================== *)

Module JsString.

Definition jsstring := list N.

(** An ASCII literal as a sequence of code units. *)
Definition js (s : string) : jsstring :=
  List.map N_of_ascii (list_ascii_of_string s).

Definition LF : N := 10%N.
Definition SP : N := 32%N.
Definition COLON : N := 58%N.

Fixpoint js_eqb (a b : jsstring) : bool :=
  match a, b with
  | [], [] => true
  | x :: a', y :: b' => N.eqb x y && js_eqb a' b'
  | _, _ => false
  end.

(** [s.length] *)
Definition js_length (s : jsstring) : nat := List.length s.

(** ECMAScript [WhiteSpace] and [LineTerminator] code units: the class
    [\s] of regular expressions and the characters removed by [trim]. *)
Definition is_space (c : N) : bool :=
  ((9 <=? c) && (c <=? 13)
   || (c =? 32) || (c =? 160) || (c =? 5760)
   || ((8192 <=? c) && (c <=? 8202))
   || (c =? 8232) || (c =? 8233) || (c =? 8239) || (c =? 8287)
   || (c =? 12288) || (c =? 65279))%N.

(** The class [[A-ZÀ-Ÿ]]: U+0041..U+005A and U+00C0..U+0178. *)
Definition is_upper (c : N) : bool :=
  ((65 <=? c) && (c <=? 90) || (192 <=? c) && (c <=? 376))%N.

(** The class [[A-ZÀ-Ÿ\s]]. *)
Definition is_upper_or_space (c : N) : bool := is_upper c || is_space c.

Definition is_newline (c : N) : bool := (c =? LF)%N.
Definition is_colon (c : N) : bool := (c =? COLON)%N.

(** A string of white space only (the empty string is one). *)
Definition all_space (s : jsstring) : Prop :=
  Forall (fun c => is_space c = true) s.

(** [s.trimStart()], [s.trimEnd()], [s.trim()] *)
Fixpoint trimStart (s : jsstring) : jsstring :=
  match s with
  | [] => []
  | c :: s' => if is_space c then trimStart s' else s
  end.

Definition trimEnd (s : jsstring) : jsstring := rev (trimStart (rev s)).

Definition trim (s : jsstring) : jsstring := trimEnd (trimStart s).

(** [parts.join(sep)] *)
Fixpoint join (sep : jsstring) (parts : list jsstring) : jsstring :=
  match parts with
  | [] => []
  | [p] => p
  | p :: rest => p ++ sep ++ join sep rest
  end.

(** [s.split(c)] for a one-character separator: the pieces between the
    occurrences of [c]; the empty string gives one empty piece. *)
Fixpoint split_char_go (c : N) (s : jsstring) (acc : jsstring) : list jsstring :=
  match s with
  | [] => [rev acc]
  | x :: s' =>
      if N.eqb x c then rev acc :: split_char_go c s' []
      else split_char_go c s' (x :: acc)
  end.

Definition split_char (c : N) (s : jsstring) : list jsstring :=
  split_char_go c s [].

(** [s.split(/\s+/)]: the pieces between maximal runs of white space.  A
    leading (trailing) run leaves an empty first (last) piece, and the
    empty string gives one empty piece.  [skipping] holds while the scan
    is inside a separator run. *)
Fixpoint split_ws_go (s : jsstring) (acc : jsstring) (skipping : bool)
  : list jsstring :=
  match s with
  | [] => [rev acc]
  | x :: s' =>
      if is_space x then
        if skipping then split_ws_go s' acc true
        else rev acc :: split_ws_go s' [] true
      else split_ws_go s' (x :: acc) false
  end.

Definition split_ws (s : jsstring) : list jsstring := split_ws_go s [] false.

(** [s.split(/\s+/).filter(word => word.length > 0).length] *)
Definition word_count (s : jsstring) : nat :=
  List.length (filter (fun w => negb (Nat.eqb (js_length w) 0)) (split_ws s)).

(** [hay.includes(needle)] *)
Fixpoint is_prefix (p s : jsstring) : bool :=
  match p, s with
  | [], _ => true
  | x :: p', y :: s' => N.eqb x y && is_prefix p' s'
  | _ :: _, [] => false
  end.

Fixpoint includes (hay needle : jsstring) : bool :=
  is_prefix needle hay ||
  match hay with
  | [] => false
  | _ :: hay' => includes hay' needle
  end.

(** [String(n)] for an integer-valued number. *)
Definition string_of_Z (z : Z) : jsstring :=
  js (NilZero.string_of_int (Z.to_int z)).

Definition string_of_nat (n : nat) : jsstring := string_of_Z (Z.of_nat n).

(** Truthiness of a string that may be [undefined]. *)
Definition truthy_str (s : option jsstring) : bool :=
  match s with
  | None => false
  | Some [] => false
  | Some (_ :: _) => true
  end.

End JsString.
Import JsString.

(* ===================================================================== *)
(** ** Numbers *)
(* ===================================================================== *)

Module JsNumber.

(** [Math.round(x)]: the nearest integer, ties towards plus infinity. *)
Definition Math_round (x : Q) : Z := Qfloor (x + (1 # 2)).

(** The result of [a / b] for two lengths. *)
Inductive jsnumber :=
| Finite (q : Q)
| PosInfinity
| NaN.

Definition js_div (a b : nat) : jsnumber :=
  match b with
  | O => match a with O => NaN | S _ => PosInfinity end
  | S _ => Finite (Z.of_nat a # Pos.of_nat b)
  end.

End JsNumber.
Import JsNumber.

(* ===================================================================== *)
(** ** Regular expressions of the preprocessor *)
(* ===================================================================== *)

Module Regex.

(** Every regular expression of [preprocessText] is a sequence of
    character classes, each under a greedy quantifier [{min,max}], with
    at most one capture group that encloses a prefix of the sequence. *)
Record atom := mkAtom {
  a_class : N -> bool;
  a_min : nat;
  a_max : option nat   (* [None]: unbounded *)
}.

Record regex := mkRegex {
  r_atoms : list atom;
  r_group : nat        (* number of leading atoms inside group 1 *)
}.

Definition one (cls : N -> bool) : atom := mkAtom cls 1 (Some 1).
Definition at_least (n : nat) (cls : N -> bool) : atom := mkAtom cls n None.

(** Number of leading characters of [s] in the class, at most [max]. *)
Fixpoint run_length (cls : N -> bool) (max : option nat) (s : jsstring) : nat :=
  match s with
  | [] => 0
  | c :: s' =>
      if cls c then
        match max with
        | Some 0 => 0
        | Some (S m) => S (run_length cls (Some m) s')
        | None => S (run_length cls None s')
        end
      else 0
  end.

(** Backtracking match of the atoms at the start of [s].  A greedy
    quantifier first takes the longest run and gives characters back one
    at a time while the rest of the expression fails.  The result is the
    number of characters taken by each atom. *)
Fixpoint match_here (atoms : list atom) (s : jsstring) : option (list nat) :=
  match atoms with
  | [] => Some []
  | a :: atoms' =>
      (fix try (k : nat) : option (list nat) :=
         if Nat.ltb k (a_min a) then None
         else
           match match_here atoms' (skipn k s) with
           | Some counts => Some (k :: counts)
           | None =>
               match k with
               | O => None
               | S k' => try k'
               end
           end) (run_length (a_class a) (a_max a) s)
  end.

Definition total (counts : list nat) : nat := fold_right Nat.add 0 counts.

(** A replacement string: literal text and references [$1]. *)
Inductive piece :=
| Lit (text : jsstring)
| Group1.

Definition template := list piece.

Definition expand (t : template) (group1 : jsstring) : jsstring :=
  flat_map (fun p => match p with Lit text => text | Group1 => group1 end) t.

(** [s.replace(re, t)] for a global [re] none of whose matches is empty.
    The scan tries a match at each position from left to right; after a
    match it resumes behind the matched text ([skip] counts the matched
    characters still to pass over). *)
Fixpoint replace_go (re : regex) (t : template) (skip : nat) (s : jsstring)
  : jsstring :=
  match s with
  | [] => []
  | c :: s' =>
      match skip with
      | S k => replace_go re t k s'
      | O =>
          match match_here (r_atoms re) s with
          | Some counts =>
              match total counts with
              | O => c :: replace_go re t 0 s'
              | S n =>
                  expand t (firstn (total (firstn (r_group re) counts)) s)
                    ++ replace_go re t n s'
              end
          | None => c :: replace_go re t 0 s'
          end
      end
  end.

Definition replace_all (re : regex) (t : template) (s : jsstring) : jsstring :=
  replace_go re t 0 s.

End Regex.
Import Regex.

(* ===================================================================== *)
(** ** utils/textPreprocessing: [TextPreprocessor] *)
(* ===================================================================== *)

Module TextPreprocessor.

(** [interface PreprocessingOptions]: every field may be left out. *)
Record PreprocessingOptions := mkOptions {
  preserveOriginalStructure : option bool;
  addFieldMarkers : option bool;
  addHeaderMarkers : option bool;
  normalizeWhitespace : option bool
}.

(** [options = {}] *)
Definition no_options : PreprocessingOptions := mkOptions None None None None.

(** Destructuring with a default: [{ field = dflt } = options]. *)
Definition with_default (dflt : bool) (field : option bool) : bool :=
  match field with
  | Some b => b
  | None => dflt
  end.

(** [/\s+/g] *)
Definition re_whitespace : regex := mkRegex [at_least 1 is_space] 0.

(** [/([A-ZÀ-Ÿ][A-ZÀ-Ÿ\s]{2,})\s*:/g] *)
Definition re_field : regex :=
  mkRegex [one is_upper; at_least 2 is_upper_or_space;
           at_least 0 is_space; one is_colon] 2.

(** [/([A-ZÀ-Ÿ]{3,}[A-ZÀ-Ÿ\s]+[A-ZÀ-Ÿ]{3,})/g] *)
Definition re_header : regex :=
  mkRegex [at_least 3 is_upper; at_least 1 is_upper_or_space;
           at_least 3 is_upper] 3.

(** [/\n{3,}/g] *)
Definition re_newlines : regex := mkRegex [at_least 3 is_newline] 0.

Definition preprocessText (rawText : jsstring) (options : PreprocessingOptions)
  : jsstring :=
  let preserveOriginalStructure :=
    with_default false (preserveOriginalStructure options) in
  let addFieldMarkers := with_default true (addFieldMarkers options) in
  let addHeaderMarkers := with_default true (addHeaderMarkers options) in
  let normalizeWhitespace := with_default true (normalizeWhitespace options) in
  let cleaned := rawText in
  let cleaned :=
    if normalizeWhitespace
    then replace_all re_whitespace [Lit [SP]] cleaned
    else cleaned in
  let cleaned :=
    if addFieldMarkers
    then replace_all re_field [Lit [LF]; Group1; Lit [COLON]] cleaned
    else cleaned in
  let cleaned :=
    if addHeaderMarkers
    then replace_all re_header [Lit [LF; LF]; Group1] cleaned
    else cleaned in
  let cleaned := replace_all re_newlines [Lit [LF; LF]] cleaned in
  let cleaned := trim cleaned in
  cleaned.

Record PreprocessingStats := mkStats {
  originalWordCount : nat;
  processedWordCount : nat;
  originalLineCount : nat;
  processedLineCount : nat;
  compressionRatio : jsnumber;
  structureImprovement : jsnumber
}.

Definition getPreprocessingStats (originalText processedText : jsstring)
  : PreprocessingStats :=
  let originalWords := word_count originalText in
  let processedWords := word_count processedText in
  let originalLines := List.length (split_char LF originalText) in
  let processedLines := List.length (split_char LF processedText) in
  {| originalWordCount := originalWords;
     processedWordCount := processedWords;
     originalLineCount := originalLines;
     processedLineCount := processedLines;
     compressionRatio := js_div (js_length processedText) (js_length originalText);
     structureImprovement := js_div processedLines originalLines |}.

End TextPreprocessor.
Import TextPreprocessor.

(* ===================================================================== *)
(** ** Thrown values, effects and traces *)
(* ===================================================================== *)

Module Effects.

(** A thrown value: an [Error] object (also of a subclass; [name] tells
    which) or anything else. *)
Inductive thrown :=
| ErrorObj (name message : jsstring)
| NonError.

(** [new Error(message)] *)
Definition new_Error (message : jsstring) : thrown :=
  ErrorObj (js "Error") message.

Inductive outcome (A : Type) :=
| Returned (a : A)
| Raised (e : thrown).
Arguments Returned {A} a.
Arguments Raised {A} e.

(** [types/index.ts]: [ProcessingStatus]; its [status] is one of the
    strings ['uploading'], ['extracting'], ['completed'], ['error']. *)
Inductive StatusKind := Uploading | Extracting | Completed | Error.

Record ProcessingStatus := mkStatus {
  ps_id : jsstring;
  ps_status : StatusKind;
  ps_progress : Q;
  ps_message : jsstring;
  ps_error : option jsstring
}.

Inductive loglevel := warn | err.

(** What a run does to the outside world, in order. *)
Inductive event :=
| EvProgress (st : ProcessingStatus)      (* [onProgress?.(st)] *)
| EvConsole (level : loglevel) (text : jsstring)
| EvArrayBuffer (file : jsstring)         (* [file.arrayBuffer()] *)
| EvText (file : jsstring)                (* [file.text()] *)
| EvGetDocument                           (* [getDocument({data}).promise] *)
| EvGetPage (pageNum : nat)               (* [pdf.getPage(n)], [getTextContent()] *)
| EvImportMammoth                         (* [import('mammoth')] *)
| EvExtractRawText                        (* [mammoth.extractRawText] *)
| EvFetch (url : jsstring) (authorization : option jsstring)
          (text : jsstring) (model_name : option jsstring)
| EvResponseText                          (* [response.text()] *)
| EvResponseJson.                         (* [response.json()] *)

Definition trace := list event.

(** The events that read or parse the bytes of a file. *)
Definition reads_file (e : event) : bool :=
  match e with
  | EvArrayBuffer _ | EvText _ | EvGetDocument | EvGetPage _
  | EvExtractRawText => true
  | _ => false
  end.

(** A computation: the events it performed and how it ended. *)
Definition M (A : Type) : Type := (trace * outcome A)%type.

Definition ret {A} (a : A) : M A := ([], Returned a).

Definition raise {A} (e : thrown) : M A := ([], Raised e).

Definition bind {A B} (m : M A) (k : A -> M B) : M B :=
  match m with
  | (t, Returned a) => let (t', r) := k a in (t ++ t', r)
  | (t, Raised e) => (t, Raised e)
  end.

(** [try { body } catch (e) { handler }] *)
Definition try_catch {A} (body : M A) (handler : thrown -> M A) : M A :=
  match body with
  | (t, Returned a) => (t, Returned a)
  | (t, Raised e) => let (t', r) := handler e in (t ++ t', r)
  end.

Definition emit (e : event) : M unit := ([e], Returned tt).

(** A call whose outcome the environment decides. *)
Definition await {A} (e : event) (o : outcome A) : M A := ([e], o).

Definition events {A} (m : M A) : trace := fst m.
Definition result {A} (m : M A) : outcome A := snd m.

End Effects.
Import Effects.

Declare Scope effect_scope.
Delimit Scope effect_scope with effect.
Notation "x <- m ;; k" := (bind m (fun x => k))
  (at level 61, m at next level, right associativity) : effect_scope.
Notation "m ;; k" := (bind m (fun _ => k))
  (at level 61, right associativity) : effect_scope.
Open Scope effect_scope.

(* ===================================================================== *)
(** ** Files and parsed documents *)
(* ===================================================================== *)

Module Files.

(** A document opened by pdf.js.  [pdf_page n] is what [pdf.getPage(n)]
    followed by [page.getTextContent()] gives: the [str] of every text
    item of the page, or the value thrown by either call. *)
Record PdfDocument := mkPdf {
  numPages : nat;
  pdf_page : nat -> outcome (list jsstring)
}.

(** What mammoth's [extractRawText] resolves to. *)
Record RawText := mkRawText {
  value : jsstring;
  messages : nat        (* [result.messages.length] *)
}.

(** A browser [File]: its declared name, media type and size, and what
    reading and parsing its bytes yields. *)
Record File := mkFile {
  f_name : jsstring;
  f_type : jsstring;
  f_size : N;
  f_arrayBuffer : outcome unit;        (* [file.arrayBuffer()] *)
  f_text : outcome jsstring;           (* [file.text()] *)
  f_pdf : outcome PdfDocument;         (* [getDocument] on the bytes *)
  f_docx : outcome RawText             (* [extractRawText] on the bytes *)
}.

End Files.
Import Files.

(* ===================================================================== *)
(** ** utils/fileValidation *)
(* ===================================================================== *)

Module FileValidation.

Definition PDF_TYPE : jsstring := js "application/pdf".
Definition DOCX_TYPE : jsstring :=
  js "application/vnd.openxmlformats-officedocument.wordprocessingml.document".
Definition DOC_TYPE : jsstring := js "application/msword".
Definition TEXT_TYPE : jsstring := js "text/plain".

Definition ALLOWED_FILE_TYPES : list jsstring :=
  [PDF_TYPE; DOCX_TYPE; DOC_TYPE; TEXT_TYPE].

Definition MAX_FILE_SIZE : N := (50 * 1024 * 1024)%N.

Record ValidationResult := mkValidation {
  isValid : bool;
  v_error : option jsstring
}.

Definition validateFile (file : File) : ValidationResult :=
  let file_type := f_type file in
  let file_size := f_size file in
  if negb (existsb (js_eqb file_type) ALLOWED_FILE_TYPES) then
    {| isValid := false;
       v_error := Some (js "Unsupported file type. Please upload PDF, Word document (.docx, .doc), or text file.") |}
  else if (MAX_FILE_SIZE <? file_size)%N then
    let sizeMB := Math_round (Z.of_N file_size # 1048576) in
    {| isValid := false;
       v_error := Some (js "File too large (" ++ string_of_Z sizeMB
                        ++ js "MB). Maximum size is 50MB.") |}
  else if (file_size =? 0)%N then
    {| isValid := false;
       v_error := Some (js "File is empty. Please upload a valid document.") |}
  else {| isValid := true; v_error := None |}.

End FileValidation.
Import FileValidation.

(* ===================================================================== *)
(** ** JSON values *)
(* ===================================================================== *)

Module Json.

(** The value [response.json()] resolves to. *)
Inductive json :=
| JNull
| JBool (b : bool)
| JNum (q : Q)
| JStr (s : jsstring)
| JArr (items : list json)
| JObj (fields : list (jsstring * json)).

(** JavaScript truthiness; [None] is [undefined]. *)
Definition truthy (v : option json) : bool :=
  match v with
  | None => false
  | Some JNull => false
  | Some (JBool b) => b
  | Some (JNum q) => negb (Qeq_bool q 0)
  | Some (JStr s) => negb (Nat.eqb (List.length s) 0)
  | Some (JArr _) => true
  | Some (JObj _) => true
  end.

(** [Array.isArray(v)] *)
Definition isArray (v : option json) : bool :=
  match v with
  | Some (JArr _) => true
  | _ => false
  end.

Fixpoint lookup (key : jsstring) (fields : list (jsstring * json)) : option json :=
  match fields with
  | [] => None
  | (k, v) :: rest => if js_eqb k key then Some v else lookup key rest
  end.

(** The own property [key] of a value: that of an object, [undefined]
    for every other value. *)
Definition own (v : json) (key : jsstring) : option json :=
  match v with
  | JObj fields => lookup key fields
  | _ => None
  end.

(** [v.key] for a key that no built-in prototype defines: reading a
    property of [null] throws a [TypeError], every other value gives its
    own property. *)
Definition get_prop (v : json) (key : jsstring) : outcome (option json) :=
  match v with
  | JNull =>
      Raised (ErrorObj (js "TypeError")
                (js "Cannot read properties of null (reading '" ++ key ++ js "')"))
  | _ => Returned (own v key)
  end.

End Json.
Import Json.

(* ===================================================================== *)
(** ** utils/tokenization: [TokenizationService] *)
(* ===================================================================== *)

Module TokenizationService.

(** [types/index.ts]: [TokenizationConfigType].  A field holds a string or
    [undefined] ([None]). *)
Record TokenizationConfigType := mkConfig {
  modelName : option jsstring;
  azureFunctionUrl : option jsstring;
  apiKey : option jsstring
}.

(** [Partial<TokenizationConfigType>]: a key is absent ([None]) or present
    with a value that may be [undefined]. *)
Record PartialConfig := mkPartial {
  p_modelName : option (option jsstring);
  p_azureFunctionUrl : option (option jsstring);
  p_apiKey : option (option jsstring)
}.

(** [types/index.ts]: [TokenizedData]. *)
Record TokenizedData := mkTokenized {
  tokens : list json;
  tokenIds : json;
  tokenCount : nat;
  td_modelName : option json;
  tokenizedAt : Z
}.

(** [import.meta.env] *)
Record ImportMetaEnv := mkMetaEnv {
  VITE_AZURE_TOKENIZER_URL : option jsstring;
  VITE_AZURE_TOKENIZER_KEY : option jsstring
}.

Definition DEFAULT_URL : jsstring :=
  js "https://ocp10-tokenizer-function.azurewebsites.net/api/tokenizerfunction".

Definition PLACEHOLDER_URL : jsstring :=
  js "https://your-function-app.azurewebsites.net/api/tokenize".

(** [a === 'literal'] for a string that may be [undefined]. *)
Definition is_string (a : option jsstring) (literal : jsstring) : bool :=
  match a with
  | Some s => js_eqb s literal
  | None => false
  end.

(** The private constructor: the configuration of a fresh service. *)
Definition constructor (env : ImportMetaEnv) : TokenizationConfigType :=
  let config :=
    {| modelName := Some (js "gpt-oss-120b");
       azureFunctionUrl :=
         if truthy_str (VITE_AZURE_TOKENIZER_URL env)
         then VITE_AZURE_TOKENIZER_URL env
         else Some DEFAULT_URL;
       apiKey := VITE_AZURE_TOKENIZER_KEY env |} in
  if negb (truthy_str (azureFunctionUrl config))
     || is_string (azureFunctionUrl config) PLACEHOLDER_URL
  then {| modelName := modelName config;
          azureFunctionUrl := Some DEFAULT_URL;
          apiKey := apiKey config |}
  else config.

(** One key of [{ ...this.config, ...config }]. *)
Definition spread (old : option jsstring) (new : option (option jsstring))
  : option jsstring :=
  match new with
  | Some v => v
  | None => old
  end.

Definition updateConfig (this : TokenizationConfigType) (config : PartialConfig)
  : TokenizationConfigType :=
  {| modelName := spread (modelName this) (p_modelName config);
     azureFunctionUrl := spread (azureFunctionUrl this) (p_azureFunctionUrl config);
     apiKey := spread (apiKey this) (p_apiKey config) |}.

Definition getConfig (this : TokenizationConfigType) : TokenizationConfigType :=
  this.

(** What [fetch] resolves to. *)
Record Response := mkResponse {
  r_status : N;
  r_statusText : jsstring;
  r_text : outcome jsstring;     (* [response.text()] *)
  r_json : outcome json          (* [response.json()] *)
}.

(** [response.ok] *)
Definition ok (r : Response) : bool :=
  ((200 <=? r_status r) && (r_status r <=? 299))%N.

(** The outcome of the [fetch] call.  The 30-second abort makes [fetch]
    reject with an [Error] named [AbortError]. *)
Definition fetch_outcome := outcome Response.

Definition QUOTE : N := 34%N.

Definition MSG_NOT_CONFIGURED : jsstring :=
  js "Azure Function URL not configured. Please configure the tokenizer in the header "
  ++ [QUOTE] ++ js "Tokenizer Config" ++ [QUOTE] ++ js " section.".

Definition MSG_INVALID_RESPONSE : jsstring :=
  js "Invalid response format: missing tokens array".

Definition MSG_TIMEOUT : jsstring :=
  js "Request timed out. The Azure Function may be slow to respond or unavailable.".

Definition MSG_CANNOT_CONNECT : jsstring :=
  js "Cannot connect to Azure Function. Please check:" ++ [LF]
  ++ js "1. Azure Function URL is correct" ++ [LF]
  ++ js "2. Function is running and publicly accessible" ++ [LF]
  ++ js "3. No CORS restrictions" ++ [LF]
  ++ js "4. Your internet connection".

Definition MSG_CORS : jsstring :=
  js "CORS error: The Azure Function needs to allow requests from this domain.".

Definition MSG_UNKNOWN : jsstring := js "Unknown tokenization error occurred".

(** [a || b] on values that may be [undefined]. *)
Definition json_or (a b : option json) : option json :=
  if truthy a then a else b.

(** The [catch] block of [tokenizeText]. *)
Definition tokenize_handler (error : thrown) : M TokenizedData :=
  emit (EvConsole err (js "Tokenization error:")) ;;
  match error with
  | ErrorObj name message =>
      if js_eqb name (js "AbortError") then raise (new_Error MSG_TIMEOUT)
      else if includes message (js "Failed to fetch")
              || includes message (js "NetworkError")
      then raise (new_Error MSG_CANNOT_CONNECT)
      else if includes message (js "CORS") then raise (new_Error MSG_CORS)
      else raise error
  | NonError => raise (new_Error MSG_UNKNOWN)
  end.

(** [tokenizeText(text, onProgress)] on a service whose configuration is
    [this]; [network] is the outcome of the request and [now] the value
    of [new Date()]. *)
Definition tokenizeText (this : TokenizationConfigType)
    (network : fetch_outcome) (now : Z)
    (text : jsstring) (onProgress : Q -> jsstring -> M unit)
  : M TokenizedData :=
  if negb (truthy_str (azureFunctionUrl this))
     || js_eqb (trim (match azureFunctionUrl this with Some u => u | None => [] end)) []
  then raise (new_Error MSG_NOT_CONFIGURED)
  else
    onProgress 10%Q (js "Connecting to tokenization service...") ;;
    try_catch
      (let authorization :=
         if truthy_str (apiKey this)
         then option_map (fun k => js "Bearer " ++ k) (apiKey this)
         else None in
       onProgress 30%Q (js "Sending text for tokenization...") ;;
       response <- await (EvFetch (match azureFunctionUrl this with
                                   | Some u => u | None => [] end)
                            authorization text (modelName this)) network ;;
       onProgress 70%Q (js "Processing tokenization response...") ;;
       (if negb (ok response) then
          errorText <- await EvResponseText (r_text response) ;;
          raise (new_Error (js "Tokenization failed: "
                              ++ string_of_Z (Z.of_N (r_status response))
                              ++ js " " ++ r_statusText response
                              ++ js ". " ++ errorText))
        else ret tt) ;;
       result <- await EvResponseJson (r_json response) ;;
       onProgress 90%Q (js "Finalizing tokenization...") ;;
       result_tokens <- ([], get_prop result (js "tokens")) ;;
       if negb (truthy result_tokens) || negb (isArray result_tokens)
       then raise (new_Error MSG_INVALID_RESPONSE)
       else
         result_token_ids <- ([], get_prop result (js "token_ids")) ;;
         result_model <- ([], get_prop result (js "model")) ;;
         let result_tokens :=
           match result_tokens with Some (JArr items) => items | _ => [] end in
         let tokenizedData :=
           {| tokens := result_tokens;
              tokenIds := match json_or result_token_ids (Some (JArr [])) with
                          | Some v => v
                          | None => JArr []
                          end;
              tokenCount := List.length result_tokens;
              td_modelName := json_or result_model (option_map JStr (modelName this));
              tokenizedAt := now |} in
         onProgress 100%Q (js "Tokenization completed. "
                             ++ string_of_nat (tokenCount tokenizedData)
                             ++ js " tokens generated.") ;;
         ret tokenizedData)
      tokenize_handler.

End TokenizationService.
Import TokenizationService.

(* ===================================================================== *)
(** ** utils/textExtraction: [DocumentExtractor] *)
(* ===================================================================== *)

Module DocumentExtractor.

(** [types/index.ts]: [ExtractedDocument]; [metadata] only ever holds
    [preprocessingStats]. *)
Record ExtractedDocument := mkDocument {
  id : jsstring;
  fileName : jsstring;
  fileType : jsstring;
  extractedText : jsstring;
  preprocessedText : jsstring;
  tokenizedData : option TokenizedData;
  wordCount : nat;
  extractedAt : Z;
  preprocessingStats : PreprocessingStats
}.

(** What the environment supplies to one call of [extractText]. *)
Record Env := mkEnv {
  now_start : Z;                 (* [Date.now()] on entry *)
  now_end : Z;                   (* [Date.now()] once the text is extracted *)
  now_tokenized : Z;             (* [new Date()] in [tokenizeText] *)
  now_extracted : Z;             (* [new Date()] for [extractedAt] *)
  mammoth : outcome unit;        (* [await import('mammoth')] *)
  tokenizer : TokenizationConfigType;  (* configuration of the singleton *)
  network : fetch_outcome        (* outcome of the tokenizer's request *)
}.

(** [onProgress?.({ id: file.name, status, progress, message })] *)
Definition progress (file : File) (status : StatusKind) (p : Q)
    (message : jsstring) : M unit :=
  emit (EvProgress (mkStatus (f_name file) status p message None)).

(** [Math.round((pageNum / totalPages) * 80) + 10] *)
Definition page_progress (pageNum totalPages : nat) : Z :=
  (Math_round ((Z.of_nat pageNum # Pos.of_nat totalPages) * 80) + 10)%Z.

(** [`Extracting text from page ${pageNum} of ${totalPages}...`] *)
Definition page_message (pageNum totalPages : nat) : jsstring :=
  js "Extracting text from page " ++ string_of_nat pageNum
    ++ js " of " ++ string_of_nat totalPages ++ js "...".

(** The [for] loop of [extractFromPDF]; [remaining] counts the pages from
    [pageNum] to [totalPages]. *)
Fixpoint pdf_pages (file : File) (pdf : PdfDocument) (totalPages : nat)
    (remaining pageNum : nat) (fullText : jsstring) : M jsstring :=
  match remaining with
  | O => ret fullText
  | S remaining' =>
      progress file Extracting (inject_Z (page_progress pageNum totalPages))
        (page_message pageNum totalPages) ;;
      items <- await (EvGetPage pageNum) (pdf_page pdf pageNum) ;;
      let pageText := join [SP] items in
      pdf_pages file pdf totalPages remaining' (S pageNum)
        (fullText ++ pageText ++ [LF; LF])
  end.

Definition extractFromPDF (file : File) : M jsstring :=
  try_catch
    (progress file Extracting 10%Q (js "Loading PDF document...") ;;
     await (EvArrayBuffer (f_name file)) (f_arrayBuffer file) ;;
     pdf <- await EvGetDocument (f_pdf file) ;;
     let totalPages := numPages pdf in
     fullText <- pdf_pages file pdf totalPages totalPages 1 [] ;;
     ret (trim fullText))
    (fun _ =>
       emit (EvConsole err (js "PDF extraction error:")) ;;
       raise (new_Error (js "Failed to extract text from PDF. Please ensure the file is not corrupted."))).

Definition extractFromDocx (file : File) (env : Env) : M jsstring :=
  try_catch
    (progress file Extracting 20%Q (js "Reading Word document...") ;;
     await EvImportMammoth (mammoth env) ;;
     await (EvArrayBuffer (f_name file)) (f_arrayBuffer file) ;;
     progress file Extracting 60%Q (js "Extracting text content...") ;;
     result <- await EvExtractRawText (f_docx file) ;;
     (if Nat.ltb 0 (messages result)
      then emit (EvConsole warn (js "Word extraction warnings:"))
      else ret tt) ;;
     ret (value result))
    (fun _ =>
       emit (EvConsole err (js "DOCX extraction error:")) ;;
       raise (new_Error (js "Failed to extract text from Word document. Please ensure the file is not corrupted."))).

Definition extractFromText (file : File) : M jsstring :=
  try_catch
    (progress file Extracting 50%Q (js "Reading text file...") ;;
     text <- await (EvText (f_name file)) (f_text file) ;;
     ret text)
    (fun _ =>
       emit (EvConsole err (js "Text extraction error:")) ;;
       raise (new_Error (js "Failed to read text file."))).

Definition MSG_LEGACY_DOC : jsstring :=
  js "Legacy .doc files are not supported. Please convert to .docx format.".

(** The [switch (file.type)] of [extractText]. *)
Definition extract_by_type (file : File) (env : Env) : M jsstring :=
  if js_eqb (f_type file) PDF_TYPE then extractFromPDF file
  else if js_eqb (f_type file) DOCX_TYPE then extractFromDocx file env
  else if js_eqb (f_type file) DOC_TYPE then raise (new_Error MSG_LEGACY_DOC)
  else if js_eqb (f_type file) TEXT_TYPE then extractFromText file
  else raise (new_Error (js "Unsupported file type: " ++ f_type file)).

Definition MSG_TOKENIZATION_UNAVAILABLE : jsstring :=
  js "Tokenization unavailable, finalizing extraction...".

(** The callback [extractText] hands to [tokenizeText]:
    [progress: 96 + (progress * 0.03)]. *)
Definition tokenization_progress (file : File) (p : Q) (message : jsstring)
  : M unit :=
  progress file Extracting (96 + p * (3 # 100))%Q (js "Tokenization: " ++ message).

(** The inner [try]/[catch] of [extractText] around the tokenizer; the
    variable [tokenizedData] stays [undefined] when the call throws. *)
Definition tokenize_step (file : File) (env : Env) (preprocessedText : jsstring)
  : M (option TokenizedData) :=
  try_catch
    (data <- tokenizeText (tokenizer env) (network env) (now_tokenized env)
               preprocessedText (tokenization_progress file) ;;
     ret (Some data))
    (fun _ =>
       emit (EvConsole warn (js "Tokenization failed (Azure Function may not be configured or accessible), continuing without tokenized data:")) ;;
       progress file Extracting 99%Q MSG_TOKENIZATION_UNAVAILABLE ;;
       ret None).

Definition extractText (file : File) (env : Env) : M ExtractedDocument :=
  let startTime := now_start env in
  try_catch
    (progress file Extracting 5%Q (js "Starting text extraction...") ;;
     extractedText <- extract_by_type file env ;;
     progress file Extracting 95%Q (js "Finalizing extraction...") ;;
     let wordCount := word_count extractedText in
     let processingTime := (now_end env - startTime)%Z in
     let preprocessedText := preprocessText extractedText no_options in
     let preprocessingStats :=
       getPreprocessingStats extractedText preprocessedText in
     progress file Extracting 96%Q (js "Tokenizing text...") ;;
     tokenizedData <- tokenize_step file env preprocessedText ;;
     let result :=
       {| id := f_name file ++ js "-" ++ string_of_Z startTime;
          fileName := f_name file;
          fileType := f_type file;
          extractedText := extractedText;
          preprocessedText := preprocessedText;
          tokenizedData := tokenizedData;
          wordCount := wordCount;
          extractedAt := now_extracted env;
          preprocessingStats := preprocessingStats |} in
     progress file Completed 100%Q
       (js "Extraction completed in "
          ++ string_of_Z (Math_round (processingTime # 1000))
          ++ js "s. " ++ string_of_nat wordCount ++ js " words extracted.") ;;
     ret result)
    (fun error =>
       let errorMessage :=
         match error with
         | ErrorObj _ message => message
         | NonError => js "Unknown extraction error"
         end in
       emit (EvProgress (mkStatus (f_name file) Error 0%Q
                           (js "Extraction failed") (Some errorMessage))) ;;
       raise error).

End DocumentExtractor.
Import DocumentExtractor.

(* ===================================================================== *)
(** ** App: [processDocuments] *)
(* ===================================================================== *)

Module App.

(** [types/index.ts]: [UploadedFile]. *)
Record UploadedFile := mkUploaded {
  uf_id : jsstring;
  uf_name : jsstring;
  uf_size : N;
  uf_type : jsstring;
  uf_lastModified : Z;
  uf_file : File
}.

(** The component's state. *)
Record State := mkState {
  processingStatuses : list ProcessingStatus;
  extractedDocuments : list ExtractedDocument;
  isProcessing : bool
}.

(** [updateProcessingStatus]: the updater handed to
    [setProcessingStatuses]. *)
Definition updateProcessingStatus (status : ProcessingStatus)
    (prev : list ProcessingStatus) : list ProcessingStatus :=
  match find (fun s => js_eqb (ps_id s) (ps_id status)) prev with
  | Some _ =>
      List.map (fun s => if js_eqb (ps_id s) (ps_id status) then status else s) prev
  | None => prev ++ [status]
  end.

(** The status list after the observer has received the progress events
    of a trace. *)
Definition apply_event (prev : list ProcessingStatus) (e : event)
  : list ProcessingStatus :=
  match e with
  | EvProgress status => updateProcessingStatus status prev
  | _ => prev
  end.

(** [extractedDocuments.find(doc => doc.fileName === uploadedFile.name &&
    doc.fileType === uploadedFile.type)] *)
Definition find_processed (extractedDocuments : list ExtractedDocument)
    (uploadedFile : UploadedFile) : option ExtractedDocument :=
  find (fun doc => js_eqb (fileName doc) (uf_name uploadedFile)
                   && js_eqb (fileType doc) (uf_type uploadedFile))
       extractedDocuments.

(** The [for ... of] loop of [processDocuments].  [extractedDocuments] is
    the state the callback closed over; [world index] is the environment
    of the call made for the file at position [index] of the batch.  The
    loop returns its events and the final [newDocuments]. *)
Fixpoint process_loop (extractedDocuments : list ExtractedDocument)
    (world : nat -> Env) (index : nat) (files : list UploadedFile)
    (newDocuments : list ExtractedDocument) : trace * list ExtractedDocument :=
  match files with
  | [] => ([], newDocuments)
  | uploadedFile :: files' =>
      match find_processed extractedDocuments uploadedFile with
      | Some alreadyProcessed =>
          process_loop extractedDocuments world (S index) files'
            (newDocuments ++ [alreadyProcessed])
      | None =>
          match extractText (uf_file uploadedFile) (world index) with
          | (t, Returned extractedDoc) =>
              let (t', docs) :=
                process_loop extractedDocuments world (S index) files'
                  (newDocuments ++ [extractedDoc]) in
              (t ++ t', docs)
          | (t, Raised error) =>
              let caught :=
                [EvConsole err (js "Failed to process " ++ uf_name uploadedFile ++ js ":");
                 EvProgress
                   (mkStatus (uf_name uploadedFile) Error 0%Q
                      (js "Processing failed")
                      (Some match error with
                            | ErrorObj _ message => message
                            | NonError => js "Unknown error"
                            end))] in
              let (t', docs) :=
                process_loop extractedDocuments world (S index) files' newDocuments in
              (t ++ caught ++ t', docs)
          end
      end
  end.

(** [processDocuments(files)]: the events of the run and the state once
    it has finished. *)
Definition processDocuments (state : State) (world : nat -> Env)
    (files : list UploadedFile) : trace * State :=
  match files with
  | [] =>
      ([], {| processingStatuses := [];
              extractedDocuments := [];
              isProcessing := isProcessing state |})
  | _ :: _ =>
      let (t, newDocuments) :=
        process_loop (extractedDocuments state) world 0 files [] in
      (t, {| processingStatuses := fold_left apply_event t (processingStatuses state);
             extractedDocuments := newDocuments;
             isProcessing := false |})
  end.

(** Number of calls of [extractText] in a trace: each call starts with
    the status of progress 5. *)
Definition is_extraction_start (e : event) : bool :=
  match e with
  | EvProgress st =>
      Qeq_bool (ps_progress st) 5 && js_eqb (ps_message st) (js "Starting text extraction...")
  | _ => false
  end.

Definition extraction_calls (t : trace) : nat :=
  List.length (filter is_extraction_start t).

End App.
Import App.

(* ===================================================================== *)
(** ** Concrete inputs *)
(* ===================================================================== *)

Module Samples.

(** A file that cannot be read or parsed in any way. *)
Definition unreadable (name type : jsstring) (size : N) : File :=
  mkFile name type size (Raised NonError) (Raised NonError)
    (Raised NonError) (Raised NonError).

(** A legacy Word file of 1 KiB. *)
Definition legacy_doc : File := unreadable (js "old.doc") DOC_TYPE 1024.

(** A plain-text file with the given content. *)
Definition text_file (name content : jsstring) : File :=
  mkFile name TEXT_TYPE (N.of_nat (List.length content)) (Returned tt)
    (Returned content) (Raised NonError) (Raised NonError).

Definition notes_txt : File :=
  text_file (js "notes.txt") (js "HELLO WORLD: value one   value two").

(** A PDF of two pages. *)
Definition two_pages : list (list jsstring) :=
  [[js "Grant"; js "proposal"]; [js "Budget"]].

Definition two_page_document : PdfDocument :=
  mkPdf 2 (fun n => Returned (nth (n - 1) two_pages [])).

Definition report_pdf : File :=
  mkFile (js "report.pdf") PDF_TYPE 2048 (Returned tt) (Raised NonError)
    (Returned two_page_document) (Raised NonError).

(** The service as constructed with nothing in the environment. *)
Definition default_service : TokenizationConfigType :=
  constructor (mkMetaEnv None None).

(** An environment in which the request of the tokenizer gets [network]. *)
Definition env_with (start : Z) (network : fetch_outcome) : Env :=
  mkEnv start (start + 2600) (start + 2700) (start + 2800) (Returned tt)
    default_service network.

(** [fetch] rejects: the service cannot be reached. *)
Definition offline : fetch_outcome :=
  Raised (ErrorObj (js "TypeError") (js "Failed to fetch")).

(** A response of status 200 with the given parsed body. *)
Definition ok_response (body : json) : Response :=
  mkResponse 200 (js "OK") (Returned []) (Returned body).

(** A response of status 200 whose body is not JSON: [response.json()]
    rejects with the parser's [SyntaxError]. *)
Definition html_response : Response :=
  mkResponse 200 (js "OK") (Returned (js "<html></html>"))
    (Raised (ErrorObj (js "SyntaxError")
               (js "Unexpected token < in JSON at position 0"))).

(** [{ tokens: ['a', 'b'], token_ids: 0 }] *)
Definition ids_zero : json :=
  JObj [(js "tokens", JArr [JStr (js "a"); JStr (js "b")]);
        (js "token_ids", JNum 0)].

(** [{ tokens: ['a', 'b'], token_ids: [64, 65] }] *)
Definition well_formed : json :=
  JObj [(js "tokens", JArr [JStr (js "a"); JStr (js "b")]);
        (js "token_ids", JArr [JNum 64; JNum 65])].

(** No observer: [onProgress] is [undefined]. *)
Definition no_progress (p : Q) (message : jsstring) : M unit := ret tt.

(** The environment value is one blank. *)
Definition blank_env : ImportMetaEnv := mkMetaEnv (Some [SP]) None.

Definition upload (file : File) : UploadedFile :=
  mkUploaded (f_name file ++ js "-0-0") (f_name file) (f_size file)
    (f_type file) 0 file.

Definition initial_state : State := mkState [] [] false.

(** The document of [notes_txt] as an earlier batch left it. *)
Definition notes_document : ExtractedDocument :=
  let text := js "HELLO WORLD: value one   value two" in
  let cleaned := preprocessText text no_options in
  mkDocument (js "notes.txt-500") (js "notes.txt") TEXT_TYPE text cleaned None
    (word_count text) 3300 (getPreprocessingStats text cleaned).

Definition state_with_notes : State := mkState [] [notes_document] false.

(** The call for the file at position [index] starts at second [index]
    and cannot reach the tokenizer. *)
Definition offline_world (index : nat) : Env :=
  env_with (1000 * Z.of_nat index) offline.

(** What one turn of the page loop of [extractFromPDF] does for page
    [pageNum] of [totalPages] when the page can be read. *)
Definition page_events (file : File) (totalPages pageNum : nat) : trace :=
  [EvProgress (mkStatus (f_name file) Extracting
                 (inject_Z (page_progress pageNum totalPages))
                 (page_message pageNum totalPages) None);
   EvGetPage pageNum].

End Samples.
Import Samples.

(* ===================================================================== *)
(** ** Views of a trace *)
(* ===================================================================== *)

Module Views.

(** The statuses handed to [onProgress], in order. *)
Definition statuses (t : trace) : list ProcessingStatus :=
  flat_map (fun e => match e with EvProgress st => [st] | _ => [] end) t.

Definition is_fetch (e : event) : bool :=
  match e with
  | EvFetch _ _ _ _ => true
  | _ => false
  end.

(** The requests sent, in order. *)
Definition requests (t : trace) : trace := filter is_fetch t.

(** A status of [file] with a progress between 0 and 100. *)
Definition status_of (file : File) (e : event) : Prop :=
  match e with
  | EvProgress st =>
      ps_id st = f_name file /\ (0 <= ps_progress st)%Q /\ (ps_progress st <= 100)%Q
  | _ => True
  end.

(** An observer that records the milestones of [tokenizeText]. *)
Definition record_progress (p : Q) (message : jsstring) : M unit :=
  emit (EvProgress (mkStatus [] Extracting p message None)).

End Views.
Import Views.

(* ===================================================================== *)
(** ** utils/tokenization: [testConnection] *)
(* ===================================================================== *)

Module ConnectionTest.

(** [testConnection()] on a service whose configuration is [this].  The
    request is recorded with its address, its [Authorization] header, the
    [text] and the [model_name] of its body (the text is ['test']). *)
Definition testConnection (this : TokenizationConfigType)
    (network : fetch_outcome) : M bool :=
  if negb (truthy_str (azureFunctionUrl this)) then ret false
  else
    try_catch
      (let authorization :=
         if truthy_str (apiKey this)
         then option_map (fun k => js "Bearer " ++ k) (apiKey this)
         else None in
       response <- await (EvFetch (match azureFunctionUrl this with
                                   | Some u => u | None => [] end)
                            authorization (js "test") (modelName this)) network ;;
       ret (ok response))
      (fun _ =>
         emit (EvConsole err (js "Connection test failed:")) ;;
         ret false).

End ConnectionTest.
Import ConnectionTest.

(* ===================================================================== *)
(** ** components/TokenizationConfig *)
(* ===================================================================== *)

Module ConfigPanel.

(** The form of the panel is a [TokenizationConfigType]; handing it to
    [updateConfig] sets all three keys. *)
Definition as_update (config : TokenizationConfigType) : PartialConfig :=
  mkPartial (Some (modelName config)) (Some (azureFunctionUrl config))
    (Some (apiKey config)).

(** [handleReset]: the form after the button "Reset". *)
Definition handleReset : TokenizationConfigType :=
  mkConfig (Some (js "gpt2")) (Some []) (Some []).

(** [handleSave]: the service after the button "Save". *)
Definition handleSave (config service : TokenizationConfigType)
  : TokenizationConfigType :=
  updateConfig service (as_update config).

Inductive TestResult := success | failure.

(** [handleTest]: the service after the button "Test Connection",
    the events of the test and the result shown. *)
Definition handleTest (config service : TokenizationConfigType)
    (network : fetch_outcome)
  : TokenizationConfigType * trace * option (TestResult * jsstring) :=
  let service' := updateConfig service (as_update config) in
  match testConnection service' network with
  | (t, Returned true) =>
      (service', t,
       Some (success, js "Connection successful! Tokenizer is ready to use."))
  | (t, Returned false) =>
      (service', t,
       Some (failure, js "Connection failed. Please check your configuration."))
  | (t, Raised (ErrorObj _ message)) => (service', t, Some (failure, message))
  | (t, Raised NonError) =>
      (service', t, Some (failure, js "Unknown error occurred"))
  end.

End ConfigPanel.
Import ConfigPanel.

(* ===================================================================== *)
(** ** components/FileUpload: [handleFiles] *)
(* ===================================================================== *)

Module FileUpload.

Record UploadState := mkUpload {
  uploadedFiles : list UploadedFile;
  validationErrors : list jsstring
}.

(** [uploadedFiles.some(existing => existing.name === file.name &&
    existing.size === file.size)] *)
Definition isDuplicate (uploadedFiles : list UploadedFile) (file : File) : bool :=
  existsb (fun existing => js_eqb (uf_name existing) (f_name file)
                           && N.eqb (uf_size existing) (f_size file))
          uploadedFiles.

(** The [forEach] of [handleFiles].  [now index] is [Date.now()] and
    [modified index] the [lastModified] of the file at position [index].
    The result is [newErrors] and [validFiles]. *)
Fixpoint scan_files (uploadedFiles : list UploadedFile)
    (now modified : nat -> Z) (index : nat) (fileArray : list File)
    (newErrors : list jsstring) (validFiles : list UploadedFile)
  : list jsstring * list UploadedFile :=
  match fileArray with
  | [] => (newErrors, validFiles)
  | file :: rest =>
      let validation := validateFile file in
      if negb (isValid validation) then
        scan_files uploadedFiles now modified (S index) rest
          (newErrors ++ [f_name file ++ js ": "
                           ++ match v_error validation with
                              | Some text => text
                              | None => js "undefined"
                              end])
          validFiles
      else if isDuplicate uploadedFiles file then
        scan_files uploadedFiles now modified (S index) rest
          (newErrors ++ [f_name file ++ js ": File already uploaded"])
          validFiles
      else
        scan_files uploadedFiles now modified (S index) rest newErrors
          (validFiles
             ++ [mkUploaded (f_name file ++ js "-" ++ string_of_Z (now index)
                               ++ js "-" ++ string_of_nat index)
                   (f_name file) (f_size file) (f_type file)
                   (modified index) file])
  end.

(** [handleFiles(files)]: the state afterwards and, when the callback
    [onFilesSelected] is called, its argument. *)
Definition handleFiles (state : UploadState) (maxFiles : nat)
    (now modified : nat -> Z) (fileArray : list File)
  : UploadState * option (list UploadedFile) :=
  let (newErrors, validFiles) :=
    scan_files (uploadedFiles state) now modified 0 fileArray [] [] in
  if Nat.ltb maxFiles (List.length (uploadedFiles state) + List.length validFiles)
  then
    ({| uploadedFiles := uploadedFiles state;
        validationErrors :=
          newErrors ++ [js "Cannot upload more than " ++ string_of_nat maxFiles
                          ++ js " files"] |},
     None)
  else if Nat.ltb 0 (List.length validFiles) then
    let updatedFiles := uploadedFiles state ++ validFiles in
    ({| uploadedFiles := updatedFiles; validationErrors := newErrors |},
     Some updatedFiles)
  else
    ({| uploadedFiles := uploadedFiles state; validationErrors := newErrors |},
     None).

(** [removeFile(fileId)] *)
Definition removeFile (state : UploadState) (fileId : jsstring)
  : UploadState * list UploadedFile :=
  let updatedFiles :=
    filter (fun file => negb (js_eqb (uf_id file) fileId)) (uploadedFiles state) in
  ({| uploadedFiles := updatedFiles; validationErrors := [] |}, updatedFiles).

End FileUpload.
Import FileUpload.

(* ===================================================================== *)
(** ** Further concrete inputs *)
(* ===================================================================== *)

Module MoreSamples.

(** A Word file whose extraction reports two messages. *)
Definition memo_docx : File :=
  mkFile (js "memo.docx") DOCX_TYPE 4096 (Returned tt) (Raised NonError)
    (Raised NonError) (Returned (mkRawText (js "Dear committee") 2)).

(** A picture: a type outside the four the extractor knows. *)
Definition photo_png : File := unreadable (js "photo.png") (js "image/png") 512.

End MoreSamples.
Import MoreSamples.

Module TokenizerSamples.

(** A response of status 500 with a plain body. *)
Definition server_error : Response :=
  mkResponse 500 (js "Internal Server Error") (Returned (js "model not loaded"))
    (Raised NonError).

(** What the 30-second abort makes [fetch] reject with. *)
Definition aborted : fetch_outcome :=
  Raised (ErrorObj (js "AbortError") (js "The user aborted a request.")).

End TokenizerSamples.
Import TokenizerSamples.

(* ===================================================================== *)
(** ** Views of the status list and of a batch *)
(* ===================================================================== *)

Module StatusViews.

(** [statuses.find(s => s.id === id)] *)
Definition find_status (id : jsstring) (l : list ProcessingStatus)
  : option ProcessingStatus :=
  find (fun s => js_eqb (ps_id s) id) l.

(** The environments of the calls for the files behind the first [n]
    files of a batch. *)
Definition later (n : nat) (world : nat -> Env) (index : nat) : Env :=
  world (n + index).

(** A file of the batch that has no document in the state. *)
Definition is_new (extractedDocuments : list ExtractedDocument)
    (uploadedFile : UploadedFile) : bool :=
  match find_processed extractedDocuments uploadedFile with
  | Some _ => false
  | None => true
  end.

End StatusViews.
Import StatusViews.

Module UploadSamples.

(** An upload widget with nothing in it. *)
Definition empty_upload : UploadState := mkUpload [] [].

(** The clock and the modification times of the files of a drop. *)
Definition drop_clock (index : nat) : Z := 1700000000000 + Z.of_nat index.
Definition drop_modified (index : nat) : Z := 1600000000000.

(** A file accepted by [handleFiles] on behalf of [file]. *)
Definition accepted_from (previous : list UploadedFile) (fileArray : list File)
    (u : UploadedFile) : Prop :=
  In (uf_file u) fileArray
  /\ isValid (validateFile (uf_file u)) = true
  /\ isDuplicate previous (uf_file u) = false
  /\ uf_name u = f_name (uf_file u)
  /\ uf_type u = f_type (uf_file u)
  /\ uf_size u = f_size (uf_file u).

End UploadSamples.
Import UploadSamples.

(* ===================================================================== *)
(** ** What a drop amounts to *)
(* ===================================================================== *)

Module Admission.

(** A file of a drop that passes both tests of the [forEach]. *)
Definition admissible (uploadedFiles : list UploadedFile) (file : File) : bool :=
  isValid (validateFile file) && negb (isDuplicate uploadedFiles file).

(** The entry pushed for the file at position [index] of the drop. *)
Definition new_entry (now modified : nat -> Z) (index : nat) (file : File)
  : UploadedFile :=
  mkUploaded (f_name file ++ js "-" ++ string_of_Z (now index)
                ++ js "-" ++ string_of_nat index)
    (f_name file) (f_size file) (f_type file) (modified index) file.

(** The message pushed for a file that is refused; none for the others. *)
Definition refusal (uploadedFiles : list UploadedFile) (file : File)
  : list jsstring :=
  if negb (isValid (validateFile file))
  then [f_name file ++ js ": "
          ++ match v_error (validateFile file) with
             | Some text => text
             | None => js "undefined"
             end]
  else if isDuplicate uploadedFiles file
  then [f_name file ++ js ": File already uploaded"]
  else [].

(** The entries of the admissible files of a drop whose first file is at
    position [index]. *)
Definition admitted (uploadedFiles : list UploadedFile)
    (now modified : nat -> Z) (index : nat) (fileArray : list File)
  : list UploadedFile :=
  List.map (fun p => new_entry now modified (fst p) (snd p))
    (filter (fun p => admissible uploadedFiles (snd p))
       (combine (seq index (List.length fileArray)) fileArray)).

End Admission.
Import Admission.

Module PdfSamples.

(** A three-page document whose second page cannot be read. *)
Definition broken_document : PdfDocument :=
  mkPdf 3 (fun n => match n with
                    | 2 => Raised (ErrorObj (js "Error") (js "Invalid page"))
                    | _ => Returned [js "text"]
                    end).

Definition broken_pdf : File :=
  mkFile (js "broken.pdf") PDF_TYPE 2048 (Returned tt) (Raised NonError)
    (Returned broken_document) (Raised NonError).

End PdfSamples.
Import PdfSamples.

(* ===================================================================== *)
(** ** Words of a text *)
(* ===================================================================== *)

Module Words.

(** [s.split(/\s+/).filter(word => word.length > 0)]: the words that
    [word_count] counts. *)
Definition words (s : jsstring) : list jsstring :=
  filter (fun w => negb (Nat.eqb (js_length w) 0)) (split_ws s).

(** A text without a letter of the class [[A-ZÀ-Ÿ]]. *)
Definition no_capitals (s : jsstring) : Prop :=
  Forall (fun c => is_upper c = false) s.

(** A string without white space. *)
Definition no_space (s : jsstring) : Prop :=
  Forall (fun c => is_space c = false) s.

(** The first step of [preprocessText]: [cleaned.replace(/\s+/g, ' ')]. *)
Definition collapse (s : jsstring) : jsstring :=
  replace_all re_whitespace [Lit [SP]] s.

(** The longest prefix without white space, and what follows it. *)
Fixpoint word_prefix (s : jsstring) : jsstring :=
  match s with
  | [] => []
  | c :: s' => if is_space c then [] else c :: word_prefix s'
  end.

Fixpoint after_word (s : jsstring) : jsstring :=
  match s with
  | [] => []
  | c :: s' => if is_space c then s else after_word s'
  end.

(** Empty, or beginning with white space. *)
Definition at_gap (s : jsstring) : Prop :=
  match s with
  | [] => True
  | c :: _ => is_space c = true
  end.

(** Empty, or beginning with a character that is not white space. *)
Definition at_word (s : jsstring) : Prop :=
  match s with
  | [] => True
  | c :: _ => is_space c = false
  end.

End Words.
Import Words.

Module TextSamples.

(** Three words with ragged white space and no capital letter. *)
Definition ragged : jsstring :=
  js "  hello   world" ++ [LF; LF; LF; LF] ++ js "again ".

End TextSamples.
Import TextSamples.

Module Newlines.

(** The number of newlines a string begins with. *)
Definition newline_run (s : jsstring) : nat := run_length is_newline None s.

(** Nowhere in the string do three newlines follow one another. *)
Definition no_triple (s : jsstring) : Prop :=
  forall k, newline_run (skipn k s) <= 2.

(** The fourth step of [preprocessText]: [cleaned.replace(/\n{3,}/g, '\n\n')]. *)
Definition squeeze (s : jsstring) : jsstring :=
  replace_all re_newlines [Lit [LF; LF]] s.

End Newlines.
Import Newlines.

(* ===================================================================== *)
(** ** The text of a match *)
(* ===================================================================== *)

Module MatchText.

(** The pieces of [s] taken by the atoms of a match. *)
Fixpoint segments (counts : list nat) (s : jsstring) : list jsstring :=
  match counts with
  | [] => []
  | k :: counts' => firstn k s :: segments counts' (skipn k s)
  end.

(** A piece that an atom may take: within its class and its bounds. *)
Definition fits (a : atom) (piece : jsstring) : Prop :=
  forallb (a_class a) piece = true
  /\ a_min a <= List.length piece
  /\ match a_max a with
     | Some m => List.length piece <= m
     | None => True
     end.

(** The characters of a string that are not white space. *)
Definition ink (s : jsstring) : jsstring :=
  filter (fun c => negb (is_space c)) s.

End MatchText.
Import MatchText.

(* ===================================================================== *)
(** ** Selections *)
(* ===================================================================== *)

Module Selections.

(** An entry of the selection as [handleFiles] builds it: its name and
    type are those of its file. *)
Definition as_selected (u : UploadedFile) : Prop :=
  uf_name u = f_name (uf_file u) /\ uf_type u = f_type (uf_file u).

(** The entry and the document go by one name and one type. *)
Definition document_of (uploadedFile : UploadedFile) (doc : ExtractedDocument)
  : bool :=
  js_eqb (fileName doc) (uf_name uploadedFile)
  && js_eqb (fileType doc) (uf_type uploadedFile).

End Selections.
Import Selections.

(* ===================================================================== *)
(** ** The course of the progress bar *)
(* ===================================================================== *)

Module Course.

(** The progress values handed to [onProgress], in order. *)
Definition levels (t : trace) : list Q :=
  List.map ps_progress (statuses t).

(** The values start at [lo] or above, never go down, and end at [hi] or
    below. *)
Fixpoint climbs (lo hi : Q) (l : list Q) : Prop :=
  match l with
  | [] => (lo <= hi)%Q
  | p :: l' => (lo <= p)%Q /\ climbs p hi l'
  end.

(** An observer of [tokenizeText] that hands on a status made by [make]. *)
Definition observer (make : Q -> jsstring -> ProcessingStatus)
    (p : Q) (message : jsstring) : M unit :=
  emit (EvProgress (make p message)).

(** [96 + (progress * 0.03)] *)
Definition scaled (p : Q) : Q := (96 + p * (3 # 100))%Q.

End Course.
Import Course.

(* ===================================================================== *)
(** ** [preprocessText] on the values of the running program *)
(* ===================================================================== *)

Module Runtime.

(** A value as the running code meets it, behind the erased types;
    [None] is [undefined]. *)
Definition jsvalue := option json.

Definition TypeError (message : jsstring) : thrown :=
  ErrorObj (js "TypeError") message.

(** [const { key = dflt } = options], read by [if (key)]: the default
    stands in for a property that is [undefined]; every other value
    counts by its truthiness. *)
Definition destructured (options : json) (key : jsstring) (dflt : bool) : bool :=
  match own options key with
  | Some v => truthy (Some v)
  | None => dflt
  end.

(** [receiver.replace(re, t)]: only a string has the method. *)
Definition call_replace (receiver : jsvalue) (re : regex) (t : template)
  : M jsvalue :=
  match receiver with
  | Some (JStr s) => ret (Some (JStr (replace_all re t s)))
  | None =>
      raise (TypeError (js "Cannot read properties of undefined (reading 'replace')"))
  | Some JNull =>
      raise (TypeError (js "Cannot read properties of null (reading 'replace')"))
  | Some _ => raise (TypeError (js "cleaned.replace is not a function"))
  end.

(** [receiver.trim()] *)
Definition call_trim (receiver : jsvalue) : M jsvalue :=
  match receiver with
  | Some (JStr s) => ret (Some (JStr (trim s)))
  | None =>
      raise (TypeError (js "Cannot read properties of undefined (reading 'trim')"))
  | Some JNull =>
      raise (TypeError (js "Cannot read properties of null (reading 'trim')"))
  | Some _ => raise (TypeError (js "cleaned.trim is not a function"))
  end.

(** [preprocessText(rawText, options)] as it runs: the parameter default
    replaces an [options] that is [undefined], destructuring [null]
    throws, and each step is a method call on whatever [cleaned] holds. *)
Definition run_preprocessText (rawText : jsvalue) (options : jsvalue) : M jsvalue :=
  match options with
  | Some JNull =>
      raise (TypeError (js "Cannot destructure property 'preserveOriginalStructure' of 'options' as it is null."))
  | _ =>
      let options := match options with Some o => o | None => JObj [] end in
      let preserveOriginalStructure :=
        destructured options (js "preserveOriginalStructure") false in
      let addFieldMarkers := destructured options (js "addFieldMarkers") true in
      let addHeaderMarkers := destructured options (js "addHeaderMarkers") true in
      let normalizeWhitespace :=
        destructured options (js "normalizeWhitespace") true in
      let cleaned := rawText in
      cleaned <- (if normalizeWhitespace
                  then call_replace cleaned re_whitespace [Lit [SP]]
                  else ret cleaned) ;;
      cleaned <- (if addFieldMarkers
                  then call_replace cleaned re_field [Lit [LF]; Group1; Lit [COLON]]
                  else ret cleaned) ;;
      cleaned <- (if addHeaderMarkers
                  then call_replace cleaned re_header [Lit [LF; LF]; Group1]
                  else ret cleaned) ;;
      cleaned <- call_replace cleaned re_newlines [Lit [LF; LF]] ;;
      cleaned <- call_trim cleaned ;;
      ret cleaned
  end.

(** One recognized option as a property: present with its boolean, or
    left out. *)
Definition property (key : jsstring) (field : option bool)
  : list (jsstring * json) :=
  match field with
  | Some b => [(key, JBool b)]
  | None => []
  end.

(** The object a caller passes for a combination of the recognized
    options. *)
Definition options_object (options : PreprocessingOptions) : json :=
  JObj (property (js "preserveOriginalStructure") (preserveOriginalStructure options)
        ++ property (js "addFieldMarkers") (addFieldMarkers options)
        ++ property (js "addHeaderMarkers") (addHeaderMarkers options)
        ++ property (js "normalizeWhitespace") (normalizeWhitespace options)).

End Runtime.
Import Runtime.

(* ===================================================================== *)
(** * Properties *)
(* ===================================================================== *)

(** ** Strings *)

(** Turns a boolean test on a code unit into its arithmetic meaning. *)
Ltac code_units H :=
  repeat first
    [ rewrite orb_true_iff in H
    | rewrite andb_true_iff in H
    | rewrite N.leb_le in H
    | rewrite N.eqb_eq in H ].

Section StringFacts.

Lemma js_eqb_eq (a b : jsstring) : js_eqb a b = true <-> a = b.
Proof.
  revert b; induction a as [|x a IH]; intros [|y b]; simpl;
    try (split; [discriminate | congruence]); try tauto.
  rewrite andb_true_iff, N.eqb_eq, IH.
  split; [intros [-> ->]; reflexivity | intros H; injection H; auto].
Qed.

Lemma js_eqb_refl (a : jsstring) : js_eqb a a = true.
Proof. apply js_eqb_eq; reflexivity. Qed.

Lemma js_eqb_neq (a b : jsstring) : js_eqb a b = false <-> a <> b.
Proof.
  rewrite <- js_eqb_eq. destruct (js_eqb a b); split; congruence.
Qed.

Lemma space_not_upper (c : N) : is_space c = true -> is_upper c = false.
Proof.
  unfold is_space, is_upper; intros H.
  apply not_true_is_false; intros U.
  code_units H; code_units U; lia.
Qed.

Lemma space_not_colon (c : N) : is_space c = true -> is_colon c = false.
Proof.
  unfold is_space, is_colon, COLON; intros H.
  apply not_true_is_false; intros U.
  code_units H; code_units U; lia.
Qed.

Lemma trimStart_all_space (s : jsstring) : all_space s -> trimStart s = [].
Proof.
  induction 1 as [|c s Hc _ IH]; simpl; [reflexivity | now rewrite Hc].
Qed.

Lemma trimStart_space_app (w s : jsstring) :
  all_space w -> trimStart (w ++ s) = trimStart s.
Proof.
  induction 1 as [|c w Hc _ IH]; simpl; [reflexivity | now rewrite Hc].
Qed.

Lemma trimStart_app_nonspace (s t : jsstring) :
  trimStart s <> [] -> trimStart (s ++ t) = trimStart s ++ t.
Proof.
  induction s as [|c s IH]; simpl; [congruence|].
  destruct (is_space c); auto.
Qed.

Lemma all_space_rev (s : jsstring) : all_space s -> all_space (rev s).
Proof. unfold all_space; apply Forall_rev. Qed.

Lemma trimEnd_app_space (s w : jsstring) :
  all_space w -> trimEnd (s ++ w) = trimEnd s.
Proof.
  intros H; unfold trimEnd.
  rewrite rev_app_distr, trimStart_space_app; auto using all_space_rev.
Qed.

Lemma trim_all_space (s : jsstring) : all_space s -> trim s = [].
Proof.
  intros H; unfold trim; rewrite trimStart_all_space; auto.
Qed.

(** Trailing white space does not survive [trim]. *)
Lemma trim_app_space (s w : jsstring) : all_space w -> trim (s ++ w) = trim s.
Proof.
  intros Hw; unfold trim.
  destruct (trimStart s) as [|c r] eqn:E.
  - assert (Hs : all_space s).
    { clear -E; induction s as [|x s IH]; [constructor|].
      simpl in E; destruct (is_space x) eqn:Hx; [|discriminate].
      constructor; [exact Hx | apply IH; exact E]. }
    rewrite trimStart_space_app by assumption.
    rewrite trimStart_all_space by assumption. reflexivity.
  - rewrite trimStart_app_nonspace, E by (rewrite E; discriminate).
    apply trimEnd_app_space; assumption.
Qed.

Lemma split_char_go_length (c : N) (s acc : jsstring) :
  1 <= List.length (split_char_go c s acc).
Proof.
  revert acc; induction s as [|x s IH]; intros acc; simpl; [lia|].
  destruct (N.eqb x c); simpl; [lia | apply IH].
Qed.

End StringFacts.

(** ** The regular expressions on white space *)

Section RegexFacts.

Lemma run_length_outside (cls : N -> bool) (max : option nat) (s : jsstring) :
  match s with [] => True | c :: _ => cls c = false end ->
  run_length cls max s = 0.
Proof.
  destruct s as [|c s]; simpl; [reflexivity | intros ->; reflexivity].
Qed.

(** An expression whose first atom must take a character fails where the
    first character is outside its class. *)
Lemma match_here_first_fails (a : atom) (atoms : list atom) (s : jsstring) :
  1 <= a_min a ->
  run_length (a_class a) (a_max a) s = 0 ->
  match_here (a :: atoms) s = None.
Proof.
  intros Hmin Hrun; simpl; rewrite Hrun.
  destruct (Nat.ltb_spec 0 (a_min a)); [reflexivity | lia].
Qed.

(** No match anywhere: the global replacement returns its argument. *)
Lemma replace_go_no_match (re : regex) (t : template) (s : jsstring) :
  (forall k, match_here (r_atoms re) (skipn k s) = None) ->
  replace_go re t 0 s = s.
Proof.
  induction s as [|c s IH]; intros H; simpl; [reflexivity|].
  pose proof (H 0) as H0; simpl in H0; rewrite H0.
  f_equal. apply IH. intros k; exact (H (S k)).
Qed.

Lemma all_space_skipn (k : nat) (s : jsstring) :
  all_space s -> all_space (skipn k s).
Proof.
  unfold all_space; revert s; induction k as [|k IH]; intros s H; simpl; auto.
  destruct H; [constructor | auto].
Qed.

(** An expression that starts with an upper-case letter does not touch a
    string of white space. *)
Lemma replace_upper_on_space (a : atom) (atoms : list atom) (g : nat)
    (t : template) (s : jsstring) :
  a_class a = is_upper -> 1 <= a_min a -> all_space s ->
  replace_all (mkRegex (a :: atoms) g) t s = s.
Proof.
  intros Hcls Hmin Hs; unfold replace_all.
  apply replace_go_no_match; intros k; simpl r_atoms.
  apply match_here_first_fails; [assumption|].
  apply run_length_outside.
  pose proof (all_space_skipn k Hs) as Hk.
  destruct (skipn k s) as [|c r]; [exact I|].
  rewrite Hcls; apply space_not_upper.
  inversion Hk; assumption.
Qed.

(** A replacement by white space keeps a string of white space one. *)
Lemma replace_space_by_space (re : regex) (t : template) (s : jsstring) :
  (forall g, all_space (expand t g)) -> all_space s ->
  forall skip, all_space (replace_go re t skip s).
Proof.
  intros Ht Hs; induction Hs as [|c s Hc Hs IH]; intros skip; simpl.
  - constructor.
  - destruct skip as [|k]; [|apply IH].
    destruct (match_here (r_atoms re) (c :: s)) as [counts|].
    + destruct (total counts) as [|n].
      * constructor; [assumption | apply IH].
      * apply Forall_app; split; [apply Ht | apply IH].
    + constructor; [assumption | apply IH].
Qed.

End RegexFacts.

(** ** [TextPreprocessor] *)

(** C9.  The option [preserveOriginalStructure] is part of the options
    record and is never consulted: whatever it holds, [preprocessText]
    returns the same string for the same text and the same other
    options. *)
Theorem preserveOriginalStructure_is_ignored :
  forall (rawText : jsstring) (preserve preserve' field header ws : option bool),
    preprocessText rawText (mkOptions preserve field header ws)
    = preprocessText rawText (mkOptions preserve' field header ws).
Proof. intros; reflexivity. Qed.

Lemma expand_space_literal (w g : jsstring) :
  all_space w -> all_space (expand [Lit w] g).
Proof. intros H; simpl; rewrite app_nil_r; exact H. Qed.

Lemma preprocessText_all_space (rawText : jsstring) (options : PreprocessingOptions) :
  all_space rawText -> preprocessText rawText options = [].
Proof.
  intros H; unfold preprocessText; cbv zeta.
  set (s1 := if with_default true (normalizeWhitespace options)
             then replace_all re_whitespace [Lit [SP]] rawText else rawText).
  assert (H1 : all_space s1).
  { subst s1; destruct (with_default true _); [|assumption].
    apply replace_space_by_space; [|assumption].
    intros g; apply expand_space_literal; repeat constructor. }
  clearbody s1.
  set (s2 := if with_default true (addFieldMarkers options) then _ else s1).
  assert (H2 : s2 = s1).
  { subst s2; destruct (with_default true _); [|reflexivity].
    apply replace_upper_on_space; auto. }
  rewrite H2; clear s2 H2.
  set (s3 := if with_default true (addHeaderMarkers options) then _ else s1).
  assert (H3 : s3 = s1).
  { subst s3; destruct (with_default true _); [|reflexivity].
    apply replace_upper_on_space; simpl; auto. }
  rewrite H3; clear s3 H3.
  apply trim_all_space, replace_space_by_space; [|assumption].
  intros g; apply expand_space_literal; repeat constructor.
Qed.

(** The options a caller passes are the options the code reads. *)
Lemma destructured_options (options : PreprocessingOptions) :
  destructured (options_object options) (js "preserveOriginalStructure") false
  = with_default false (preserveOriginalStructure options)
  /\ destructured (options_object options) (js "addFieldMarkers") true
     = with_default true (addFieldMarkers options)
  /\ destructured (options_object options) (js "addHeaderMarkers") true
     = with_default true (addHeaderMarkers options)
  /\ destructured (options_object options) (js "normalizeWhitespace") true
     = with_default true (normalizeWhitespace options).
Proof.
  destruct options as [[p|] [f|] [h|] [w|]]; repeat split; reflexivity.
Qed.

(** With a string to work on, the steps of [preprocessText] are the calls
    of the string methods, none of which throws. *)
Lemma run_on_a_string (rawText : jsstring) (w f h : bool) :
  (cleaned <- (if w
               then call_replace (Some (JStr rawText)) re_whitespace [Lit [SP]]
               else ret (Some (JStr rawText))) ;;
   cleaned <- (if f
               then call_replace cleaned re_field [Lit [LF]; Group1; Lit [COLON]]
               else ret cleaned) ;;
   cleaned <- (if h
               then call_replace cleaned re_header [Lit [LF; LF]; Group1]
               else ret cleaned) ;;
   cleaned <- call_replace cleaned re_newlines [Lit [LF; LF]] ;;
   cleaned <- call_trim cleaned ;;
   ret cleaned)
  = ret (Some (JStr
      (trim (replace_all re_newlines [Lit [LF; LF]]
         (let s1 := if w then replace_all re_whitespace [Lit [SP]] rawText
                    else rawText in
          let s2 := if f then replace_all re_field [Lit [LF]; Group1; Lit [COLON]] s1
                    else s1 in
          if h then replace_all re_header [Lit [LF; LF]; Group1] s2 else s2))))).
Proof. destruct w, f, h; reflexivity. Qed.

(** A value that is no string makes the first method call throw. *)
Lemma run_preprocessText_needs_a_string (rawText options : jsvalue) :
  (forall s, rawText <> Some (JStr s)) ->
  exists e, result (run_preprocessText rawText options) = Raised e.
Proof.
  intros Hno. unfold run_preprocessText.
  destruct options as [[|ob|oq|os|oitems|ofields]|];
    try (eexists; reflexivity); cbv zeta;
    repeat match goal with
           | |- context [if ?c then _ else _] => destruct c
           end;
    destruct rawText as [[|b|q|s|items|fields]|];
    try (eexists; reflexivity); exfalso; apply (Hno s); reflexivity.
Qed.

(** C4.  [preprocessText] is total on strings.  Run as the program runs
    it, where a method call on a value that is no string throws, the
    function called with any string and any combination of the
    recognized options (each set to true, set to false or left out), or
    with no options at all, performs no effect, throws nothing and
    returns a string, namely the one the typed function computes.  This
    covers the empty string and every string of white space, for which
    that string is the empty one, and a string that is itself a result
    of the function. *)
Theorem preprocessText_total :
  forall (rawText : jsstring) (options : PreprocessingOptions),
    run_preprocessText (Some (JStr rawText)) (Some (options_object options))
    = ret (Some (JStr (preprocessText rawText options)))
    /\ run_preprocessText (Some (JStr rawText)) None
       = ret (Some (JStr (preprocessText rawText no_options)))
    /\ run_preprocessText (Some (JStr (preprocessText rawText options)))
         (Some (options_object options))
       = ret (Some (JStr (preprocessText (preprocessText rawText options) options)))
    /\ (all_space rawText ->
        run_preprocessText (Some (JStr rawText)) (Some (options_object options))
        = ret (Some (JStr []))).
Proof.
  assert (Hrun : forall text options,
            run_preprocessText (Some (JStr text)) (Some (options_object options))
            = ret (Some (JStr (preprocessText text options)))).
  { intros text options.
    destruct (destructured_options options) as (_ & Hf & Hh & Hw).
    unfold run_preprocessText. unfold options_object at 1. cbv zeta.
    fold (options_object options). rewrite Hf, Hh, Hw.
    rewrite run_on_a_string. reflexivity. }
  intros rawText options. split; [apply Hrun|]. split; [|split].
  - exact (run_on_a_string rawText true true true).
  - apply Hrun.
  - intros Hspace. rewrite Hrun, (preprocessText_all_space options Hspace).
    reflexivity.
Qed.

(** C2, as the code has it.  [compressionRatio] is the quotient of the
    two lengths when the original text is not empty; on an empty
    original the division is not guarded and gives [NaN] against an
    empty processed text and [Infinity] otherwise.  [split] never returns
    an empty array, so the line count of the original is at least 1 and
    [structureImprovement] is always the finite quotient of the two line
    counts. *)
Theorem getPreprocessingStats_ratios :
  forall originalText processedText : jsstring,
    let stats := getPreprocessingStats originalText processedText in
    compressionRatio stats
    = match originalText, processedText with
      | _ :: _, _ =>
          Finite (Z.of_nat (js_length processedText)
                  # Pos.of_nat (js_length originalText))
      | [], [] => NaN
      | [], _ :: _ => PosInfinity
      end
    /\ 1 <= originalLineCount stats
    /\ structureImprovement stats
       = Finite (Z.of_nat (processedLineCount stats)
                 # Pos.of_nat (originalLineCount stats)).
Proof.
  intros originalText processedText stats; subst stats.
  unfold getPreprocessingStats; cbn [compressionRatio originalLineCount
    structureImprovement processedLineCount].
  pose proof (split_char_go_length LF originalText []) as Hlines.
  fold (split_char LF originalText) in Hlines.
  repeat split.
  - destruct originalText, processedText; reflexivity.
  - exact Hlines.
  - destruct (List.length (split_char LF originalText)); [lia | reflexivity].
Qed.

(** C2, counterexample.  For an empty original and an empty processed
    text the ratio is [NaN], not 0. *)
Lemma getPreprocessingStats_empty_is_NaN :
  compressionRatio (getPreprocessingStats [] []) = NaN
  /\ compressionRatio (getPreprocessingStats [] []) <> Finite 0.
Proof. split; [reflexivity | discriminate]. Qed.

(** ** [validateFile] *)

Lemma allowed_type_iff (t : jsstring) :
  existsb (js_eqb t) ALLOWED_FILE_TYPES = true <-> In t ALLOWED_FILE_TYPES.
Proof.
  rewrite existsb_exists; split.
  - intros (x & Hx & E); apply js_eqb_eq in E; subst; assumption.
  - intros H; exists t; split; [assumption | apply js_eqb_refl].
Qed.

(** C7, as the code has it.  [validateFile] answers [isValid == false],
    with an error message, exactly when the declared type is none of the
    four allowed types, or the file is larger than 50MB, or it is empty.
    The legacy Word type [application/msword] is one of the allowed
    types. *)
Theorem validateFile_rejects :
  forall file : File,
    (isValid (validateFile file) = false <->
       ~ In (f_type file) ALLOWED_FILE_TYPES
       \/ (MAX_FILE_SIZE < f_size file)%N
       \/ f_size file = 0%N)
    /\ (isValid (validateFile file) = false <-> v_error (validateFile file) <> None)
    /\ In DOC_TYPE ALLOWED_FILE_TYPES.
Proof.
  intros file.
  assert (Hdoc : In DOC_TYPE ALLOWED_FILE_TYPES) by (right; right; left; reflexivity).
  unfold validateFile.
  pose proof (allowed_type_iff (f_type file)) as Hty.
  destruct (existsb (js_eqb (f_type file)) ALLOWED_FILE_TYPES); simpl negb; cbv iota.
  - assert (Hin : In (f_type file) ALLOWED_FILE_TYPES) by (apply Hty; reflexivity).
    destruct (N.ltb_spec MAX_FILE_SIZE (f_size file)) as [Hbig|Hbig];
      [|destruct (N.eqb_spec (f_size file) 0) as [Hz|Hz]];
      cbn [isValid v_error]; (split; [|split]); try exact Hdoc;
      split; intros H; try reflexivity; try discriminate; auto;
      try congruence.
    destruct H as [Hn | [Hlt | Hzero]]; [contradiction | lia | contradiction].
  - cbn [isValid v_error]; (split; [|split]); try exact Hdoc;
      split; intros H; try reflexivity; try discriminate.
    left; intros Hin; apply Hty in Hin; discriminate.
Qed.

(** C7, counterexample.  A legacy Word file of admissible size passes the
    validator. *)
Lemma validateFile_accepts_legacy_doc :
  f_type legacy_doc = js "application/msword"
  /\ isValid (validateFile legacy_doc) = true.
Proof. split; reflexivity. Qed.

(** ** [extractText]: the legacy Word format *)

(** C5.  For a file declared as [application/msword], [extractText]
    announces the start, reports the error status and throws the error
    that asks for a conversion to .docx.  Nothing else happens: no event
    of the run reads or parses the file. *)
Theorem legacy_doc_is_rejected_unread :
  forall (file : File) (env : Env),
    f_type file = DOC_TYPE ->
    extractText file env
    = ([EvProgress (mkStatus (f_name file) Extracting 5%Q
                      (js "Starting text extraction...") None);
        EvProgress (mkStatus (f_name file) Error 0%Q
                      (js "Extraction failed") (Some MSG_LEGACY_DOC))],
       Raised (new_Error
                 (js "Legacy .doc files are not supported. Please convert to .docx format.")))
    /\ forallb (fun e => negb (reads_file e)) (events (extractText file env)) = true.
Proof.
  intros file env Hty.
  assert (E : extract_by_type file env = raise (new_Error MSG_LEGACY_DOC)).
  { unfold extract_by_type; rewrite Hty; reflexivity. }
  unfold extractText; rewrite E; split; reflexivity.
Qed.

Lemma legacy_doc_is_rejected_unread_witness :
  f_type legacy_doc = DOC_TYPE
  /\ result (extractText legacy_doc (env_with 0 offline))
     = Raised (new_Error MSG_LEGACY_DOC).
Proof.
  split; [reflexivity|].
  rewrite (proj1 (legacy_doc_is_rejected_unread legacy_doc (env_with 0 offline) eq_refl)).
  reflexivity.
Defined.

(** ** [extractFromPDF] *)

Section PdfFacts.

Variable file : File.
Variable pdf : PdfDocument.
Variable totalPages : nat.

(** The page loop on readable pages: one progress status and one page
    read per page, in ascending order; every page text is appended with
    its two newlines. *)
Lemma pdf_pages_run (rest : list (list jsstring)) :
  forall (pageNum : nat) (fullText : jsstring),
    (forall k, k < List.length rest ->
               pdf_page pdf (pageNum + k) = Returned (nth k rest [])) ->
    pdf_pages file pdf totalPages (List.length rest) pageNum fullText
    = (flat_map (page_events file totalPages) (seq pageNum (List.length rest)),
       Returned (fullText
                   ++ List.concat (List.map (fun items => join [SP] items ++ [LF; LF]) rest))).
Proof.
  induction rest as [|items rest IH]; intros pageNum fullText Hpages.
  - simpl; rewrite app_nil_r; reflexivity.
  - cbn [List.length pdf_pages].
    pose proof (Hpages 0 (Nat.lt_0_succ _)) as H0.
    rewrite Nat.add_0_r in H0; cbn [nth] in H0.
    unfold progress, emit, await, bind at 1 2. rewrite H0.
    rewrite IH.
    + cbn [seq flat_map List.map List.concat page_events app].
      rewrite <- !app_assoc; reflexivity.
    + intros k Hk. replace (S pageNum + k) with (pageNum + S k) by lia.
      apply (Hpages (S k)); simpl; lia.
Qed.

End PdfFacts.

Lemma concat_with_separator (sep : jsstring) (parts : list jsstring) :
  List.concat (List.map (fun p => p ++ sep) parts)
  = join sep parts ++ match parts with [] => [] | _ :: _ => sep end.
Proof.
  induction parts as [|p [|q parts] IH].
  - reflexivity.
  - simpl; rewrite app_nil_r; reflexivity.
  - change (List.concat (List.map (fun p => p ++ sep) (p :: q :: parts)))
      with ((p ++ sep) ++ List.concat (List.map (fun p => p ++ sep) (q :: parts))).
    rewrite IH. cbn [join]. rewrite <- !app_assoc. reflexivity.
Qed.

Lemma Zpos_of_nat (n : nat) : 1 <= n -> Zpos (Pos.of_nat n) = Z.of_nat n.
Proof.
  destruct n as [|n]; [lia|]; intros _.
  rewrite <- Pos.of_nat_succ, Zpos_P_of_succ_nat, Nat2Z.inj_succ; reflexivity.
Qed.

Lemma page_progress_range (pageNum totalPages : nat) :
  1 <= pageNum <= totalPages ->
  (10 <= page_progress pageNum totalPages <= 90)%Z.
Proof.
  intros [Hlo Hhi].
  unfold page_progress, Math_round, Qfloor, Qplus, Qmult; cbn [Qnum Qden].
  rewrite !Pos2Z.inj_mul, Zpos_of_nat by lia.
  set (k := Z.of_nat pageNum); set (n := Z.of_nat totalPages).
  assert (Hk : (1 <= k <= n)%Z) by (subst k n; lia).
  assert (0 <= (k * 80 * 2 + 1 * (n * 1)) / (n * 1 * 2) < 81)%Z; [|lia].
  split.
  - apply Z.div_pos; lia.
  - apply Z.div_lt_upper_bound; lia.
Qed.

Lemma page_reads (file : File) (totalPages : nat) :
  forall n start,
    filter reads_file (flat_map (page_events file totalPages) (seq start n))
    = List.map EvGetPage (seq start n).
Proof.
  induction n as [|n IH]; intros start; [reflexivity|].
  cbn [seq flat_map page_events app filter reads_file List.map].
  f_equal; apply IH.
Qed.

(** C6.  For a PDF whose bytes load and parse into a document of
    [totalPages] readable pages, [extractFromPDF] reads the pages in the
    order 1, 2, ..., [totalPages], announcing each page [k] just before
    with the progress value [10 + round(k / totalPages * 80)]; it returns
    the page texts, each the items joined by single spaces, separated by
    two newlines and trimmed; and every per-page progress value lies
    between 10 and 90. *)
Theorem extractFromPDF_pages_in_order :
  forall (file : File) (pdf : PdfDocument) (pages : list (list jsstring)),
    f_arrayBuffer file = Returned tt ->
    f_pdf file = Returned pdf ->
    numPages pdf = List.length pages ->
    (forall k, k < List.length pages ->
               pdf_page pdf (S k) = Returned (nth k pages [])) ->
    let totalPages := numPages pdf in
    result (extractFromPDF file)
    = Returned (trim (join [LF; LF] (List.map (join [SP]) pages)))
    /\ events (extractFromPDF file)
       = EvProgress (mkStatus (f_name file) Extracting 10%Q
                       (js "Loading PDF document...") None)
         :: EvArrayBuffer (f_name file)
         :: EvGetDocument
         :: flat_map (page_events file totalPages) (seq 1 totalPages)
    /\ filter reads_file (events (extractFromPDF file))
       = EvArrayBuffer (f_name file) :: EvGetDocument
         :: List.map EvGetPage (seq 1 totalPages)
    /\ (forall k, 1 <= k <= totalPages ->
          page_progress k totalPages
          = (10 + Math_round ((Z.of_nat k # Pos.of_nat totalPages) * 80))%Z
          /\ (10 <= page_progress k totalPages <= 90)%Z).
Proof.
  intros file pdf pages Hbuf Hpdf Hnum Hpages totalPages.
  assert (Hrun : extractFromPDF file
                 = (EvProgress (mkStatus (f_name file) Extracting 10%Q
                                  (js "Loading PDF document...") None)
                    :: EvArrayBuffer (f_name file)
                    :: EvGetDocument
                    :: flat_map (page_events file totalPages) (seq 1 totalPages),
                    Returned (trim (join [LF; LF] (List.map (join [SP]) pages))))).
  { unfold extractFromPDF, progress, emit, await.
    rewrite Hbuf, Hpdf. unfold bind at 1 2 3.
    fold totalPages. subst totalPages. rewrite Hnum.
    rewrite (pdf_pages_run file pdf (List.length pages) pages 1 []) by exact Hpages.
    cbn [bind ret try_catch app].
    rewrite app_nil_r.
    rewrite <- (map_map (join [SP]) (fun p => p ++ [LF; LF])).
    rewrite concat_with_separator.
    rewrite trim_app_space; [reflexivity|].
    destruct (List.map (join [SP]) pages); repeat constructor. }
  rewrite Hrun; cbn [result events fst snd].
  repeat split.
  - cbn [filter reads_file]. do 2 f_equal. apply page_reads.
  - unfold page_progress; lia.
  - apply page_progress_range; assumption.
  - apply page_progress_range; assumption.
Qed.

Lemma extractFromPDF_pages_in_order_witness :
  f_arrayBuffer report_pdf = Returned tt
  /\ f_pdf report_pdf = Returned two_page_document
  /\ numPages two_page_document = List.length two_pages
  /\ result (extractFromPDF report_pdf)
     = Returned (js "Grant proposal" ++ [LF; LF] ++ js "Budget")
  /\ filter reads_file (events (extractFromPDF report_pdf))
     = [EvArrayBuffer (js "report.pdf"); EvGetDocument; EvGetPage 1; EvGetPage 2].
Proof.
  assert (Hpages : forall k, k < List.length two_pages ->
            pdf_page two_page_document (S k) = Returned (nth k two_pages [])).
  { intros k Hk; simpl; rewrite Nat.sub_0_r; reflexivity. }
  pose proof (extractFromPDF_pages_in_order report_pdf two_pages
                eq_refl eq_refl eq_refl Hpages) as (Hres & _ & Hreads & _).
  split; [reflexivity|]. split; [reflexivity|]. split; [reflexivity|].
  split; [exact Hres | exact Hreads].
Defined.

(** ** [extractText]: a failing tokenizer *)

(** C1.  When the text of a document is extracted and the call of the
    tokenizer throws, whatever it throws, [extractText] still returns a
    document.  Its [tokenizedData] is [undefined]; the run ends with the
    warning on the console, the status "Tokenization unavailable" at
    progress 99 and, last of all, the status [completed] at progress
    100. *)
Theorem tokenization_failure_is_isolated :
  forall (file : File) (env : Env) (text : jsstring) (e : thrown),
    result (extract_by_type file env) = Returned text ->
    result (tokenizeText (tokenizer env) (network env) (now_tokenized env)
              (preprocessText text no_options) (tokenization_progress file))
    = Raised e ->
    exists (doc : ExtractedDocument) (before : trace) (warning summary : jsstring),
      extractText file env
      = (before
           ++ [EvConsole warn warning;
               EvProgress (mkStatus (f_name file) Extracting 99%Q
                             (js "Tokenization unavailable, finalizing extraction...")
                             None);
               EvProgress (mkStatus (f_name file) Completed 100%Q summary None)],
         Returned doc)
      /\ tokenizedData doc = None
      /\ extractedText doc = text
      /\ preprocessedText doc = preprocessText text no_options
      /\ wordCount doc = word_count text.
Proof.
  intros file env text e Hextract Htokenize.
  unfold extractText, tokenize_step.
  destruct (extract_by_type file env) as [t1 r1]; cbn [result snd] in Hextract.
  subst r1.
  unfold progress, emit; cbn [bind try_catch ret app].
  destruct (tokenizeText _ _ _ _ _) as [t2 r2]; cbn [result snd] in Htokenize.
  subst r2; cbn [bind try_catch ret app].
  eexists _, (_ :: t1 ++ _ :: _ :: t2), _, _.
  split.
  - apply f_equal2; [|reflexivity]. cbn [app]. f_equal.
    repeat (rewrite <- app_assoc; cbn [app]). reflexivity.
  - repeat split.
Qed.

Lemma tokenization_failure_is_isolated_witness :
  result (extract_by_type notes_txt (env_with 0 offline))
  = Returned (js "HELLO WORLD: value one   value two")
  /\ exists doc, result (extractText notes_txt (env_with 0 offline)) = Returned doc
                 /\ tokenizedData doc = None.
Proof.
  split; [reflexivity|].
  destruct (tokenization_failure_is_isolated notes_txt (env_with 0 offline)
              (text := js "HELLO WORLD: value one   value two")
              (e := new_Error MSG_CANNOT_CONNECT) eq_refl eq_refl)
    as (doc & before & warning & summary & Hrun & Hnone & _).
  exists doc; split; [rewrite Hrun; reflexivity | exact Hnone].
Defined.

(** ** [tokenizeText] *)

Section MonadFacts.

Context {A B : Type}.

Lemma result_bind (m : M A) (k : A -> M B) (a : A) :
  result m = Returned a -> result (bind m k) = result (k a).
Proof.
  destruct m as [t r]; cbn [result snd]; intros ->.
  unfold bind. destruct (k a); reflexivity.
Qed.

Lemma result_bind_raised (m : M A) (k : A -> M B) (e : thrown) :
  result m = Raised e -> result (bind m k) = Raised e.
Proof. destruct m as [t r]; cbn [result snd]; intros ->; reflexivity. Qed.

Lemma result_try_catch (body : M A) (handler : thrown -> M A) :
  result (try_catch body handler)
  = match result body with
    | Returned a => Returned a
    | Raised e => result (handler e)
    end.
Proof.
  destruct body as [t [a|e]]; cbn [result snd try_catch]; [reflexivity|].
  destruct (handler e); reflexivity.
Qed.

Lemma events_bind (m : M A) (k : A -> M B) (a : A) :
  result m = Returned a -> events (bind m k) = events m ++ events (k a).
Proof.
  destruct m as [t r]; cbn [result snd]; intros ->.
  unfold bind. destruct (k a); reflexivity.
Qed.

End MonadFacts.

(** The [catch] block of [tokenizeText] always throws. *)
Lemma tokenize_handler_raises (error : thrown) :
  exists e, result (tokenize_handler error) = Raised e.
Proof.
  unfold tokenize_handler.
  destruct error as [name message|]; cbn [bind emit raise];
    repeat match goal with
           | |- context [if ?c then _ else _] => destruct c
           end; eexists; reflexivity.
Qed.

Lemma get_prop_not_null (body : json) (key : jsstring) :
  body <> JNull -> get_prop body key = Returned (own body key).
Proof. destruct body; [congruence | reflexivity ..]. Qed.

(** A configured address passes the guard of [tokenizeText]. *)
Lemma configured_url (url : jsstring) :
  trim url <> [] ->
  negb (truthy_str (Some url)) || js_eqb (trim url) [] = false.
Proof.
  intros H. assert (Hne : url <> []) by (intros ->; apply H; reflexivity).
  destruct url as [|c url]; [congruence|]. cbn [truthy_str negb orb].
  apply js_eqb_neq; assumption.
Qed.

(** C8, as the code has it.  Take a response of a 2xx status to a
    service with a configured address.  If its body parses to a JSON
    value other than [null], then: without an array under [tokens] the
    call throws [Error('Invalid response format: missing tokens array')];
    with one, it returns a result whose [tokenCount] is the length of
    [tokens] and whose [tokenIds] is the [token_ids] of the response when
    that is truthy, and the empty array when it is left out or falsy.
    If the body is not JSON, so that [response.json()] rejects, the call
    returns no result and throws what the [catch] block makes of the
    rejection: the time-out error if it is named [AbortError], else the
    cannot-connect error if its message contains ['Failed to fetch'] or
    ['NetworkError'], else the CORS error if its message contains
    ['CORS'], else the rejection itself, and the unknown-error [Error] if
    the rejection is no [Error] object.  Nothing is stated for a body
    that parses to [null]. *)
Theorem tokenizeText_response_contract :
  forall (this : TokenizationConfigType) (url : jsstring) (now : Z)
         (text : jsstring) (onProgress : Q -> jsstring -> M unit)
         (response : Response),
    azureFunctionUrl this = Some url ->
    trim url <> [] ->
    (forall p message, result (onProgress p message) = Returned tt) ->
    ok response = true ->
    let answer :=
      result (tokenizeText this (Returned response) now text onProgress) in
    match r_json response with
    | Raised e =>
        answer
        = Raised match e with
                 | ErrorObj name message =>
                     if js_eqb name (js "AbortError")
                     then new_Error MSG_TIMEOUT
                     else if includes message (js "Failed to fetch")
                             || includes message (js "NetworkError")
                     then new_Error MSG_CANNOT_CONNECT
                     else if includes message (js "CORS")
                     then new_Error MSG_CORS
                     else e
                 | NonError => new_Error MSG_UNKNOWN
                 end
    | Returned JNull => True
    | Returned body =>
        answer
        = match own body (js "tokens") with
          | Some (JArr items) =>
              Returned
                {| tokens := items;
                   tokenIds :=
                     if truthy (own body (js "token_ids"))
                     then match own body (js "token_ids") with
                          | Some ids => ids
                          | None => JArr []
                          end
                     else JArr [];
                   tokenCount := List.length items;
                   td_modelName :=
                     if truthy (own body (js "model"))
                     then own body (js "model")
                     else option_map JStr (modelName this);
                   tokenizedAt := now |}
          | _ =>
              Raised (new_Error (js "Invalid response format: missing tokens array"))
          end
    end.
Proof.
  intros this url now text onProgress response Hurl Hconf Hcb Hok answer.
  assert (Hanswer :
    answer
    = match r_json response with
      | Raised e => result (tokenize_handler e)
      | Returned body =>
          match get_prop body (js "tokens") with
          | Raised e => result (tokenize_handler e)
          | Returned (Some (JArr items)) =>
              Returned
                {| tokens := items;
                   tokenIds :=
                     if truthy (own body (js "token_ids"))
                     then match own body (js "token_ids") with
                          | Some ids => ids
                          | None => JArr []
                          end
                     else JArr [];
                   tokenCount := List.length items;
                   td_modelName :=
                     if truthy (own body (js "model"))
                     then own body (js "model")
                     else option_map JStr (modelName this);
                   tokenizedAt := now |}
          | Returned _ => Raised (new_Error MSG_INVALID_RESPONSE)
          end
      end).
  { subst answer; unfold tokenizeText.
    rewrite Hurl, configured_url by assumption. cbv zeta.
    rewrite (result_bind _ _ (Hcb _ _)), result_try_catch.
    rewrite (result_bind _ _ (Hcb _ _)).
    rewrite (result_bind (await _ (Returned response)) _ eq_refl).
    rewrite (result_bind _ _ (Hcb _ _)).
    rewrite Hok; cbn [negb].
    rewrite (result_bind (ret tt) _ eq_refl).
    destruct (r_json response) as [body|e].
    2: { rewrite (result_bind_raised (await _ (Raised e)) _ eq_refl); reflexivity. }
    rewrite (result_bind (await _ (Returned body)) _ eq_refl).
    rewrite (result_bind _ _ (Hcb _ _)).
    destruct body as [|b|q|str|items|fields]; cbn [get_prop].
    1: { rewrite (result_bind_raised (A := option json) (_, Raised _) _ eq_refl).
         reflexivity. }
    all: rewrite (result_bind (A := option json) (_, Returned _) _ eq_refl).
    all: cbn [own truthy isArray negb orb].
    1-4: reflexivity.
    destruct (lookup (js "tokens") fields) as [[|b|q|str|items|fs]|];
      cbn [truthy isArray negb orb]; try reflexivity;
      try (destruct b; reflexivity);
      try (destruct (negb _); reflexivity).
    rewrite (result_bind (A := option json) (_, Returned _) _ eq_refl).
    rewrite (result_bind (A := option json) (_, Returned _) _ eq_refl).
    rewrite (result_bind _ _ (Hcb _ _)).
    cbn [ret result snd]. unfold json_or. cbn [truthy].
    destruct (truthy (lookup (js "token_ids") fields)); reflexivity. }
  rewrite Hanswer; clear Hanswer answer.
  destruct (r_json response) as [body|e].
  - destruct body; cbn [get_prop]; first [exact I | reflexivity].
  - unfold tokenize_handler.
    destruct e as [name message|]; cbn [bind emit raise result snd];
      repeat match goal with
             | |- context [if ?c then _ else _] => destruct c
             end; reflexivity.
Qed.

Lemma tokenizeText_response_contract_witness :
  azureFunctionUrl default_service = Some DEFAULT_URL
  /\ ok (ok_response well_formed) = true
  /\ result (tokenizeText default_service (Returned (ok_response well_formed))
               7 (js "a b") no_progress)
     = Returned {| tokens := [JStr (js "a"); JStr (js "b")];
                   tokenIds := JArr [JNum 64; JNum 65];
                   tokenCount := 2;
                   td_modelName := Some (JStr (js "gpt-oss-120b"));
                   tokenizedAt := 7 |}
  /\ result (tokenizeText default_service (Returned html_response)
               7 (js "a b") no_progress)
     = Raised (ErrorObj (js "SyntaxError")
                 (js "Unexpected token < in JSON at position 0")).
Proof.
  assert (Hurl : trim DEFAULT_URL <> []) by (vm_compute; discriminate).
  split; [reflexivity|]. split; [reflexivity|]. split.
  - exact (tokenizeText_response_contract default_service (url := DEFAULT_URL)
             7 (js "a b") no_progress (ok_response well_formed)
             eq_refl Hurl (fun _ _ => eq_refl) eq_refl).
  - exact (tokenizeText_response_contract default_service (url := DEFAULT_URL)
             7 (js "a b") no_progress html_response
             eq_refl Hurl (fun _ _ => eq_refl) eq_refl).
Defined.

(** C8, counterexample.  A response of status 200 whose body is not JSON
    makes [tokenizeText] fail with the parser's error, which is not the
    error for an invalid response; and a response that carries
    [token_ids: 0] gives a result whose [tokenIds] is the empty array,
    not the [token_ids] of the response. *)
Lemma tokenizeText_other_failures :
  (ok html_response = true
   /\ result (tokenizeText default_service (Returned html_response)
                7 (js "a b") no_progress)
      = Raised (ErrorObj (js "SyntaxError")
                  (js "Unexpected token < in JSON at position 0"))
   /\ ErrorObj (js "SyntaxError") (js "Unexpected token < in JSON at position 0")
      <> new_Error MSG_INVALID_RESPONSE)
  /\ (own ids_zero (js "token_ids") = Some (JNum 0)
      /\ exists data,
           result (tokenizeText default_service (Returned (ok_response ids_zero))
                     7 (js "a b") no_progress)
           = Returned data
           /\ tokenIds data = JArr []
           /\ tokenIds data <> JNum 0).
Proof.
  split; [split; [reflexivity | split; [reflexivity|]] | split; [reflexivity|]].
  - intros H; vm_compute in H; discriminate H.
  - eexists; split; [reflexivity | split; [reflexivity | discriminate]].
Qed.

(** ** The configuration of the service *)

Lemma trimStart_nil_iff (s : jsstring) : trimStart s = [] <-> all_space s.
Proof.
  split; [|apply trimStart_all_space].
  induction s as [|c s IH]; simpl; [intros _; constructor|].
  destruct (is_space c) eqn:Hc; [|discriminate].
  intros H; constructor; [exact Hc | exact (IH H)].
Qed.

Lemma trimStart_fixed (s : jsstring) : trimStart (trimStart s) = trimStart s.
Proof.
  induction s as [|c s IH]; simpl; [reflexivity|].
  destruct (is_space c) eqn:Hc; [assumption|]. simpl; rewrite Hc; reflexivity.
Qed.

Lemma trimStart_all_space_inv (s : jsstring) :
  all_space (trimStart s) -> all_space s.
Proof.
  intros H; apply trimStart_nil_iff.
  rewrite <- trimStart_fixed; apply trimStart_all_space; assumption.
Qed.

(** [trim] leaves nothing exactly of the strings of white space. *)
Lemma trim_nil_iff (s : jsstring) : trim s = [] <-> all_space s.
Proof.
  split; [|apply trim_all_space].
  unfold trim, trimEnd; intros H.
  apply trimStart_all_space_inv.
  assert (Hrev : trimStart (rev (trimStart s)) = []).
  { rewrite <- (rev_involutive (trimStart (rev (trimStart s)))), H; reflexivity. }
  apply trimStart_nil_iff in Hrev.
  rewrite <- (rev_involutive (trimStart s)); apply all_space_rev; assumption.
Qed.

Section EventFacts.

Context {A B : Type}.

Lemma In_events_bind_first (m : M A) (k : A -> M B) (e : event) :
  In e (events m) -> In e (events (bind m k)).
Proof.
  destruct m as [t [a|x]]; cbn [events fst bind]; [|auto].
  destruct (k a); cbn [fst]; intros H; apply in_or_app; auto.
Qed.

Lemma In_events_bind_later (m : M A) (k : A -> M B) (a : A) (e : event) :
  result m = Returned a -> In e (events (k a)) -> In e (events (bind m k)).
Proof.
  intros Hm; rewrite (events_bind _ _ Hm); intros H; apply in_or_app; auto.
Qed.

Lemma In_events_try_catch (body : M A) (handler : thrown -> M A) (e : event) :
  In e (events body) -> In e (events (try_catch body handler)).
Proof.
  destruct body as [t [a|x]]; cbn [events fst try_catch]; [auto|].
  destruct (handler x); cbn [fst]; intros H; apply in_or_app; auto.
Qed.

End EventFacts.

(** With an address that is not blank, [tokenizeText] sends the request. *)
Lemma configured_service_fetches (this : TokenizationConfigType)
    (url : jsstring) (network : fetch_outcome) (now : Z) (text : jsstring)
    (onProgress : Q -> jsstring -> M unit) :
  azureFunctionUrl this = Some url ->
  ~ all_space url ->
  (forall p message, result (onProgress p message) = Returned tt) ->
  exists authorization,
    In (EvFetch url authorization text (modelName this))
       (events (tokenizeText this network now text onProgress)).
Proof.
  intros Hurl Hconf Hcb. unfold tokenizeText.
  rewrite Hurl, configured_url by (rewrite trim_nil_iff; assumption).
  cbv zeta. eexists.
  apply In_events_bind_later with (a := tt); [apply Hcb|].
  apply In_events_try_catch.
  apply In_events_bind_later with (a := tt); [apply Hcb|].
  apply In_events_bind_first.
  left; reflexivity.
Qed.

(** [tokenizeText] refuses to start, doing nothing else, exactly when the
    address is [undefined], empty or white space only. *)
Lemma not_configured_iff (this : TokenizationConfigType)
    (network : fetch_outcome) (now : Z) (text : jsstring)
    (onProgress : Q -> jsstring -> M unit) :
  (forall p message, result (onProgress p message) = Returned tt) ->
  tokenizeText this network now text onProgress
  = ([], Raised (new_Error MSG_NOT_CONFIGURED))
  <-> match azureFunctionUrl this with
      | None => True
      | Some url => all_space url
      end.
Proof.
  intros Hcb. destruct (azureFunctionUrl this) as [url|] eqn:Hurl.
  - split.
    + intros Hrun.
      destruct (trim url) as [|c r] eqn:Htrim; [apply trim_nil_iff; assumption|].
      exfalso.
      assert (Hconf : ~ all_space url).
      { rewrite <- trim_nil_iff, Htrim; discriminate. }
      destruct (configured_service_fetches this network now text onProgress
                  Hurl Hconf Hcb) as [auth Hin].
      rewrite Hrun in Hin; exact Hin.
    + intros Hblank. apply trim_nil_iff in Hblank.
      unfold tokenizeText; rewrite Hurl, Hblank.
      rewrite orb_true_r; reflexivity.
  - split; [trivial|]. intros _.
    unfold tokenizeText; rewrite Hurl; reflexivity.
Qed.

Lemma constructor_url (env : ImportMetaEnv) :
  azureFunctionUrl (constructor env)
  = Some match VITE_AZURE_TOKENIZER_URL env with
         | Some (c :: u) =>
             if js_eqb (c :: u) PLACEHOLDER_URL then DEFAULT_URL else c :: u
         | _ => DEFAULT_URL
         end.
Proof.
  unfold constructor.
  destruct (VITE_AZURE_TOKENIZER_URL env) as [[|c u]|];
    cbn [truthy_str azureFunctionUrl negb orb is_string]; try reflexivity.
  destruct (js_eqb (c :: u) PLACEHOLDER_URL); reflexivity.
Qed.

(** C10, as the code has it.  The address of a fresh service is never
    empty: it is the environment value, as it is, whenever that is a
    non-empty string other than the placeholder, and the built-in
    endpoint when the environment value is absent, empty or the
    placeholder.
    On a fresh service [tokenizeText] refuses with "not configured"
    exactly when the environment value is a non-empty string of white
    space; after [updateConfig] it refuses exactly when the address then
    in force is [undefined], empty or white space only. *)
Theorem fresh_service_address :
  forall (env : ImportMetaEnv) (network : fetch_outcome) (now : Z)
         (text : jsstring) (onProgress : Q -> jsstring -> M unit),
    (forall p message, result (onProgress p message) = Returned tt) ->
    (exists url,
        azureFunctionUrl (constructor env) = Some url
        /\ url <> []
        /\ url <> PLACEHOLDER_URL
        /\ (VITE_AZURE_TOKENIZER_URL env = Some url \/ url = DEFAULT_URL))
    /\ azureFunctionUrl (constructor env)
       = Some match VITE_AZURE_TOKENIZER_URL env with
              | Some (c :: u) =>
                  if js_eqb (c :: u) PLACEHOLDER_URL then DEFAULT_URL else c :: u
              | _ => DEFAULT_URL
              end
    /\ (forall url,
          VITE_AZURE_TOKENIZER_URL env = Some url ->
          url <> [] -> url <> PLACEHOLDER_URL ->
          azureFunctionUrl (constructor env) = Some url)
    /\ (VITE_AZURE_TOKENIZER_URL env = None
        \/ VITE_AZURE_TOKENIZER_URL env = Some []
        \/ VITE_AZURE_TOKENIZER_URL env = Some PLACEHOLDER_URL ->
        azureFunctionUrl (constructor env) = Some DEFAULT_URL)
    /\ (tokenizeText (constructor env) network now text onProgress
        = ([], Raised (new_Error MSG_NOT_CONFIGURED))
        <-> exists u, VITE_AZURE_TOKENIZER_URL env = Some u
                      /\ u <> [] /\ all_space u)
    /\ (forall (this : TokenizationConfigType) (config : PartialConfig),
          tokenizeText (updateConfig this config) network now text onProgress
          = ([], Raised (new_Error MSG_NOT_CONFIGURED))
          <-> match spread (azureFunctionUrl this) (p_azureFunctionUrl config) with
              | None => True
              | Some url => all_space url
              end).
Proof.
  intros env network now text onProgress Hcb.
  assert (Hdefault : ~ all_space DEFAULT_URL).
  { intros H; inversion H as [|c r Hc _]; vm_compute in Hc; discriminate. }
  split; [|split; [|split; [|split; [|split]]]].
  - rewrite constructor_url; eexists; split; [reflexivity|].
    destruct (VITE_AZURE_TOKENIZER_URL env) as [[|c u]|];
      try (repeat split; [discriminate | discriminate | right; reflexivity]).
    destruct (js_eqb (c :: u) PLACEHOLDER_URL) eqn:Hp;
      [repeat split; [discriminate | discriminate | right; reflexivity]|].
    apply js_eqb_neq in Hp.
    repeat split; [discriminate | exact Hp | left; reflexivity].
  - apply constructor_url.
  - intros url Henv Hne Hplace. rewrite constructor_url, Henv.
    destruct url as [|c u]; [congruence|].
    apply js_eqb_neq in Hplace. rewrite Hplace. reflexivity.
  - intros [Henv | [Henv | Henv]]; rewrite constructor_url, Henv; reflexivity.
  - rewrite (not_configured_iff _ network now text onProgress Hcb), constructor_url.
    destruct (VITE_AZURE_TOKENIZER_URL env) as [[|c u]|].
    + split; [intros H; contradiction | intros (u & E & Hne & _); congruence].
    + destruct (js_eqb (c :: u) PLACEHOLDER_URL) eqn:Hp.
      * split; [intros H; contradiction|].
        intros (u' & E & _ & Hsp). injection E as <-.
        apply js_eqb_eq in Hp; rewrite Hp in Hsp.
        inversion Hsp as [|x r Hx _]; vm_compute in Hx; discriminate.
      * split; [intros H; exists (c :: u); repeat split; [discriminate | assumption]|].
        intros (u' & E & _ & Hsp); injection E as <-; assumption.
    + split; [intros H; contradiction | intros (u & E & _); discriminate].
  - intros this config.
    apply (not_configured_iff (updateConfig this config) network now text onProgress Hcb).
Qed.

Lemma fresh_service_address_witness :
  azureFunctionUrl
    (constructor (mkMetaEnv (Some (js "https://tokenizer.example/api")) None))
  = Some (js "https://tokenizer.example/api")
  /\ tokenizeText (constructor (mkMetaEnv None None)) offline 7 (js "a b") no_progress
  <> ([], Raised (new_Error MSG_NOT_CONFIGURED))
  /\ tokenizeText (updateConfig (constructor (mkMetaEnv None None))
                     (mkPartial None (Some (Some [])) None))
       offline 7 (js "a b") no_progress
     = ([], Raised (new_Error MSG_NOT_CONFIGURED)).
Proof.
  destruct (fresh_service_address (mkMetaEnv None None) offline 7 (js "a b")
              no_progress (fun _ _ => eq_refl))
    as (_ & _ & _ & _ & Hfresh & Hupdate).
  split.
  { destruct (fresh_service_address
                (mkMetaEnv (Some (js "https://tokenizer.example/api")) None)
                offline 7 (js "a b") no_progress (fun _ _ => eq_refl))
      as (_ & _ & Hkept & _).
    apply Hkept; [reflexivity | discriminate |].
    intros H; vm_compute in H; discriminate H. }
  split.
  - intros H; apply Hfresh in H; destruct H as (u & E & _); discriminate E.
  - apply Hupdate; constructor.
Defined.

(** C10, counterexample.  With the environment value set to one blank,
    the fresh service keeps that blank as its address and [tokenizeText]
    refuses with "not configured" before anything is sent. *)
Lemma blank_environment_is_not_configured :
  azureFunctionUrl (constructor blank_env) = Some [SP]
  /\ tokenizeText (constructor blank_env) offline 7 (js "a b") no_progress
     = ([], Raised (new_Error MSG_NOT_CONFIGURED)).
Proof. split; reflexivity. Qed.

(** ** [processDocuments] *)

(** The documents gathered so far in the batch are only ever appended to. *)
Lemma process_loop_accumulates (previous : list ExtractedDocument)
    (world : nat -> Env) (files : list UploadedFile) :
  forall (index : nat) (newDocuments : list ExtractedDocument),
    process_loop previous world index files newDocuments
    = (fst (process_loop previous world index files []),
       newDocuments ++ snd (process_loop previous world index files [])).
Proof.
  induction files as [|uploadedFile files IH]; intros index newDocuments.
  - simpl; rewrite app_nil_r; reflexivity.
  - cbn [process_loop].
    destruct (find_processed previous uploadedFile) as [doc|].
    + rewrite (IH (S index) (newDocuments ++ [doc])), (IH (S index) ([] ++ [doc])).
      cbn [fst snd app]. rewrite <- app_assoc; reflexivity.
    + destruct (extractText (uf_file uploadedFile) (world index)) as [t [doc|e]].
      * rewrite (IH (S index) (newDocuments ++ [doc])), (IH (S index) ([] ++ [doc])).
        cbn [fst snd app]. rewrite <- app_assoc; reflexivity.
      * rewrite (IH (S index) newDocuments).
        destruct (process_loop previous world (S index) files []); reflexivity.
Qed.

Lemma process_loop_all_known (previous : list ExtractedDocument)
    (world : nat -> Env) (files : list UploadedFile) :
  (forall f, In f files -> find_processed previous f <> None) ->
  forall index,
    fst (process_loop previous world index files []) = []
    /\ List.map Some (snd (process_loop previous world index files []))
       = List.map (find_processed previous) files.
Proof.
  induction files as [|uploadedFile files IH]; intros Hknown index.
  - split; reflexivity.
  - cbn [process_loop].
    destruct (find_processed previous uploadedFile) as [doc|] eqn:Hdoc.
    + rewrite process_loop_accumulates; cbn [fst snd List.map app].
      destruct (IH (fun f Hf => Hknown f (or_intror Hf)) (S index)) as [Ht Hdocs].
      rewrite Ht, Hdocs, Hdoc; split; reflexivity.
    + exfalso; apply (Hknown uploadedFile); [left; reflexivity | assumption].
Qed.

(* ===================================================================== *)
(** * Further properties *)
(* ===================================================================== *)

(** ** Traces *)

Section TraceFacts.

Context {A B : Type}.
Variable P : event -> Prop.

Lemma Forall_bind (m : M A) (k : A -> M B) :
  Forall P (events m) -> (forall a, Forall P (events (k a))) ->
  Forall P (events (bind m k)).
Proof.
  destruct m as [t [a|e]]; cbn [events fst bind]; intros Hm Hk; [|assumption].
  specialize (Hk a). destruct (k a); cbn [fst] in *.
  apply Forall_app; split; assumption.
Qed.

Lemma Forall_try_catch (body : M A) (handler : thrown -> M A) :
  Forall P (events body) -> (forall e, Forall P (events (handler e))) ->
  Forall P (events (try_catch body handler)).
Proof.
  destruct body as [t [a|e]]; cbn [events fst try_catch]; intros Hm Hk;
    [assumption|].
  specialize (Hk e). destruct (handler e); cbn [fst] in *.
  apply Forall_app; split; assumption.
Qed.

Lemma Forall_await (e : event) (o : outcome A) :
  P e -> Forall P (events (await e o)).
Proof. intros H; repeat constructor; assumption. Qed.

Lemma Forall_emit (e : event) : P e -> Forall P (events (emit e)).
Proof. intros H; repeat constructor; assumption. Qed.

Lemma Forall_ret (a : A) : Forall P (events (ret a)).
Proof. constructor. Qed.

Lemma Forall_raise (e : thrown) : Forall P (events (raise (A := A) e)).
Proof. constructor. Qed.

Lemma Forall_silent (o : outcome A) : Forall P (events (([], o) : M A)).
Proof. constructor. Qed.

End TraceFacts.

(** Splits a statement about all events of a computation along its
    binds, handlers and branches. *)
Ltac through_trace :=
  repeat first
    [ apply Forall_ret
    | apply Forall_raise
    | apply Forall_silent
    | apply Forall_bind; [|intros ?]
    | apply Forall_try_catch; [|intros ?]
    | apply Forall_await
    | apply Forall_emit
    | match goal with
      | |- Forall _ (events (if ?c then _ else _)) => destruct c
      | |- Forall _ (events (match ?x with ErrorObj _ _ => _ | NonError => _ end)) =>
          destruct x
      end ].

(** Every event of [tokenizeText] satisfies what its milestones and the
    events that are no status satisfy. *)
Lemma tokenizeText_events (P : event -> Prop) (this : TokenizationConfigType)
    (network : fetch_outcome) (now : Z) (text : jsstring)
    (onProgress : Q -> jsstring -> M unit) :
  (forall p message, In p [10; 30; 70; 90; 100]%Q ->
                     Forall P (events (onProgress p message))) ->
  (forall e, match e with EvProgress _ => False | _ => True end -> P e) ->
  Forall P (events (tokenizeText this network now text onProgress)).
Proof.
  intros Hcb Hother. unfold tokenizeText, tokenize_handler.
  through_trace; try (apply Hother; exact I);
    try (apply Hcb; simpl; tauto).
Qed.

(** ** The format adapters *)

(** X1.  The three format adapters never let the cause of a failure out:
    each of them either returns a text or throws its own fixed [Error],
    whatever the file, the parser or the library threw. *)
Theorem adapters_hide_the_cause :
  forall (file : File) (env : Env),
    (forall e, result (extractFromPDF file) = Raised e ->
       e = new_Error (js "Failed to extract text from PDF. Please ensure the file is not corrupted."))
    /\ (forall e, result (extractFromDocx file env) = Raised e ->
       e = new_Error (js "Failed to extract text from Word document. Please ensure the file is not corrupted."))
    /\ (forall e, result (extractFromText file) = Raised e ->
       e = new_Error (js "Failed to read text file.")).
Proof.
  intros file env; repeat split; intros e He;
    unfold extractFromPDF, extractFromDocx, extractFromText in He;
    rewrite result_try_catch in He;
    match type of He with
    | match result ?body with _ => _ end = _ =>
        destruct (result body); [discriminate | injection He as <-; reflexivity]
    end.
Qed.

(** X2.  Messages of the Word library do not fail the extraction: when
    the library loads, the file is read and the extraction resolves,
    [extractFromDocx] returns the extracted value as it is, after the
    statuses at 20 and 60, whether or not messages came with it. *)
Theorem docx_warnings_do_not_fail :
  forall (file : File) (env : Env) (raw : RawText),
    mammoth env = Returned tt ->
    f_arrayBuffer file = Returned tt ->
    f_docx file = Returned raw ->
    result (extractFromDocx file env) = Returned (value raw)
    /\ List.map ps_progress (statuses (events (extractFromDocx file env)))
       = [20; 60]%Q
    /\ (In (EvConsole warn (js "Word extraction warnings:"))
           (events (extractFromDocx file env))
        <-> 0 < messages raw).
Proof.
  intros file env raw Hlib Hbuf Hraw.
  unfold extractFromDocx, progress, emit, await.
  rewrite Hlib, Hbuf, Hraw. cbn [bind].
  destruct (Nat.ltb_spec 0 (messages raw)) as [Hm|Hm];
    cbn [bind try_catch ret emit app result events fst snd statuses flat_map
         List.map ps_progress In value];
    (split; [reflexivity | split; [reflexivity|]]).
  - split; [intros _; assumption|]. intros _. do 5 right. left. reflexivity.
  - split; [|lia].
    intros [H|[H|[H|[H|[H|[]]]]]]; discriminate H.
Qed.

Lemma docx_warnings_do_not_fail_witness :
  mammoth (env_with 0 offline) = Returned tt
  /\ f_docx memo_docx = Returned (mkRawText (js "Dear committee") 2)
  /\ result (extractFromDocx memo_docx (env_with 0 offline))
     = Returned (js "Dear committee").
Proof.
  split; [reflexivity|]. split; [reflexivity|].
  apply (docx_warnings_do_not_fail memo_docx (env_with 0 offline)
           (raw := mkRawText (js "Dear committee") 2) eq_refl eq_refl eq_refl).
Defined.

(** X3.  A file whose declared type is none of the four types of the
    [switch] is rejected like a legacy Word file: [extractText] emits the
    start status and the error status, throws
    ['Unsupported file type: ' + file.type] and reads nothing. *)
Theorem unknown_type_is_rejected_unread :
  forall (file : File) (env : Env),
    ~ In (f_type file) [PDF_TYPE; DOCX_TYPE; DOC_TYPE; TEXT_TYPE] ->
    extractText file env
    = ([EvProgress (mkStatus (f_name file) Extracting 5%Q
                      (js "Starting text extraction...") None);
        EvProgress (mkStatus (f_name file) Error 0%Q (js "Extraction failed")
                      (Some (js "Unsupported file type: " ++ f_type file)))],
       Raised (new_Error (js "Unsupported file type: " ++ f_type file))).
Proof.
  intros file env Hty.
  assert (E : extract_by_type file env
              = raise (new_Error (js "Unsupported file type: " ++ f_type file))).
  { assert (Hne : forall t, In t [PDF_TYPE; DOCX_TYPE; DOC_TYPE; TEXT_TYPE] ->
                         js_eqb (f_type file) t = false).
    { intros t Ht; apply js_eqb_neq; intros E; apply Hty; rewrite E; exact Ht. }
    unfold extract_by_type.
    rewrite !Hne by (simpl; tauto). reflexivity. }
  unfold extractText; rewrite E; reflexivity.
Qed.

Lemma unknown_type_is_rejected_unread_witness :
  ~ In (f_type photo_png) [PDF_TYPE; DOCX_TYPE; DOC_TYPE; TEXT_TYPE]
  /\ result (extractText photo_png (env_with 0 offline))
     = Raised (new_Error (js "Unsupported file type: image/png")).
Proof.
  assert (H : ~ In (f_type photo_png) [PDF_TYPE; DOCX_TYPE; DOC_TYPE; TEXT_TYPE]).
  { intros [H|[H|[H|[H|[]]]]]; discriminate H. }
  split; [exact H|].
  rewrite (unknown_type_is_rejected_unread photo_png (env_with 0 offline) H).
  reflexivity.
Defined.

(** ** [extractText]: how a run ends *)

Lemma tokenize_step_returns (file : File) (env : Env) (text : jsstring) :
  exists t data, tokenize_step file env text = (t, Returned data).
Proof.
  unfold tokenize_step.
  destruct (tokenizeText _ _ _ _ _) as [t [data|e]];
    cbn [bind try_catch ret progress emit app]; eauto.
Qed.

(** X4.  Every run of [extractText] ends with a terminal status, and a
    failing tokenizer is never the reason for a failure: the run returns a
    document exactly when the adapter of the type returned a text, and
    then its last event is the status [completed] at 100; otherwise it
    throws what the adapter threw, and its last event is the status
    [error] at 0 that carries the message of that error. *)
Theorem extractText_ends_with_terminal_status :
  forall (file : File) (env : Env),
    match result (extract_by_type file env) with
    | Returned text =>
        exists doc before summary,
          extractText file env
          = (before ++ [EvProgress (mkStatus (f_name file) Completed 100%Q
                                      summary None)],
             Returned doc)
          /\ extractedText doc = text
          /\ wordCount doc = word_count text
    | Raised e =>
        exists before,
          extractText file env
          = (before ++ [EvProgress
                          (mkStatus (f_name file) Error 0%Q (js "Extraction failed")
                             (Some match e with
                                   | ErrorObj _ message => message
                                   | NonError => js "Unknown extraction error"
                                   end))],
             Raised e)
    end.
Proof.
  intros file env. unfold extractText.
  destruct (extract_by_type file env) as [t1 [text|e]]; cbn [result snd].
  - destruct (tokenize_step_returns file env (preprocessText text no_options))
      as (t2 & data & Hstep).
    unfold progress, emit; cbn [bind try_catch ret app].
    rewrite Hstep; cbn [bind try_catch ret app].
    eexists _, (_ :: t1 ++ _ :: _ :: t2), _.
    split.
    { apply f_equal2; [|reflexivity]. cbn [app]. f_equal.
      repeat (rewrite <- app_assoc; cbn [app]). reflexivity. }
    split; reflexivity.
  - unfold progress, emit; cbn [bind try_catch raise app].
    exists (EvProgress (mkStatus (f_name file) Extracting 5%Q
                          (js "Starting text extraction...") None) :: t1).
    apply f_equal2; [|reflexivity]. cbn [app]. reflexivity.
Qed.

(** ** [extractText]: the statuses of a run *)

Ltac constant_status :=
  cbn [status_of ps_id ps_progress];
  split; [reflexivity | split; apply Qle_bool_imp_le; reflexivity].

Lemma pdf_pages_statuses (file : File) (pdf : PdfDocument) (totalPages : nat) :
  forall (remaining pageNum : nat) (fullText : jsstring),
    1 <= pageNum -> pageNum + remaining = totalPages + 1 ->
    Forall (status_of file)
      (events (pdf_pages file pdf totalPages remaining pageNum fullText)).
Proof.
  induction remaining as [|remaining IH]; intros pageNum fullText Hlo Hsum;
    cbn [pdf_pages]; unfold progress.
  - apply Forall_ret.
  - through_trace.
    + cbn [status_of ps_id ps_progress].
      assert (Hrange : 1 <= pageNum <= totalPages) by lia.
      destruct (page_progress_range Hrange) as [H10 H90].
      split; [reflexivity|].
      split; [change 0%Q with (inject_Z 0) | change 100%Q with (inject_Z 100)];
        rewrite <- Zle_Qle; lia.
    + exact I.
    + apply IH; lia.
Qed.

Lemma tokenization_progress_status (file : File) (p : Q) (message : jsstring) :
  In p [10; 30; 70; 90; 100]%Q ->
  Forall (status_of file) (events (tokenization_progress file p message)).
Proof.
  intros Hp. unfold tokenization_progress, progress. apply Forall_emit.
  cbn [In] in Hp.
  destruct Hp as [<-|[<-|[<-|[<-|[<-|[]]]]]]; constant_status.
Qed.

(** X5.  Every status that a run of [extractText] hands to the observer
    carries the name of the file as its [id] and a progress between 0 and
    100, however the run goes. *)
Theorem extractText_statuses_are_well_formed :
  forall (file : File) (env : Env),
    Forall (status_of file) (events (extractText file env)).
Proof.
  intros file env.
  unfold extractText, extract_by_type, extractFromPDF, extractFromDocx,
    extractFromText, tokenize_step, progress.
  through_trace; try exact I; try constant_status.
  - apply pdf_pages_statuses; lia.
  - apply tokenizeText_events.
    + intros p message Hp; apply tokenization_progress_status; assumption.
    + intros [] H; try exact I; contradiction.
Qed.

(** ** [testConnection] *)

(** X6.  [testConnection] never throws.  It answers [true] exactly when
    the address is a non-empty string and the request resolves with a
    2xx status; it sends one request when the address is a non-empty
    string and none otherwise. *)
Theorem testConnection_answer :
  forall (this : TokenizationConfigType) (network : fetch_outcome),
    result (testConnection this network)
    = Returned (truthy_str (azureFunctionUrl this)
                && match network with
                   | Returned response => ok response
                   | Raised _ => false
                   end)
    /\ List.length (requests (events (testConnection this network)))
       = (if truthy_str (azureFunctionUrl this) then 1 else 0)
    /\ (truthy_str (azureFunctionUrl this) = false ->
        events (testConnection this network) = []).
Proof.
  intros this network. unfold testConnection.
  destruct (truthy_str (azureFunctionUrl this)); cbn [negb andb].
  - destruct network as [response|e];
      (split; [reflexivity | split; [reflexivity | discriminate]]).
  - repeat split.
Qed.

(** X7.  The two guards disagree on an address of white space: on a
    service whose address is a non-empty string of white space,
    [testConnection] sends its request to that address and answers
    [true] when the response has a 2xx status, while [tokenizeText] sends
    nothing and throws the not-configured error. *)
Theorem blank_address_passes_the_test :
  forall (this : TokenizationConfigType) (url : jsstring) (response : Response)
         (now : Z) (text : jsstring) (onProgress : Q -> jsstring -> M unit),
    azureFunctionUrl this = Some url ->
    url <> [] ->
    all_space url ->
    ok response = true ->
    result (testConnection this (Returned response)) = Returned true
    /\ List.length (requests (events (testConnection this (Returned response)))) = 1
    /\ tokenizeText this (Returned response) now text onProgress
       = ([], Raised (new_Error MSG_NOT_CONFIGURED)).
Proof.
  intros this url response now text onProgress Hurl Hne Hblank Hok.
  apply trim_nil_iff in Hblank.
  assert (Htest : testConnection this (Returned response)
                  = ([EvFetch url
                        (if truthy_str (apiKey this)
                         then option_map (fun k => js "Bearer " ++ k) (apiKey this)
                         else None)
                        (js "test") (modelName this)],
                     Returned true)).
  { unfold testConnection. rewrite Hurl.
    destruct url as [|c url]; [congruence|].
    cbn [truthy_str negb try_catch bind await ret app]. rewrite Hok.
    reflexivity. }
  rewrite Htest. split; [reflexivity | split; [reflexivity|]].
  unfold tokenizeText. rewrite Hurl, Hblank, orb_true_r. reflexivity.
Qed.

Lemma blank_address_passes_the_test_witness :
  azureFunctionUrl (constructor blank_env) = Some [SP]
  /\ result (testConnection (constructor blank_env)
               (Returned (ok_response well_formed))) = Returned true
  /\ tokenizeText (constructor blank_env) (Returned (ok_response well_formed))
       7 (js "a b") no_progress
     = ([], Raised (new_Error MSG_NOT_CONFIGURED)).
Proof.
  assert (Hblank : all_space [SP]) by (repeat constructor).
  destruct (blank_address_passes_the_test (constructor blank_env) (url := [SP])
              (ok_response well_formed) 7 (js "a b") no_progress
              eq_refl ltac:(discriminate) Hblank eq_refl) as (Htest & _ & Htok).
  split; [reflexivity | split; assumption].
Defined.

(** ** [tokenizeText]: failures *)

Lemma tokenize_handler_run (error : thrown) :
  exists e, tokenize_handler error
            = ([EvConsole err (js "Tokenization error:")], Raised e).
Proof.
  unfold tokenize_handler.
  destruct error as [name message|]; cbn [bind emit raise app];
    repeat match goal with
           | |- context [if ?c then _ else _] => destruct c
           end; eexists; reflexivity.
Qed.

(** X8.  How a rejected request is reported.  On a configured service,
    when [fetch] rejects, [tokenizeText] throws: the time-out error if the
    rejection is named [AbortError]; else the cannot-connect error if its
    message contains ['Failed to fetch'] or ['NetworkError']; else the CORS
    error if its message contains ['CORS']; else the rejection itself; and
    the unknown-error [Error] if the rejection is no [Error] object. *)
Theorem tokenizeText_reports_rejections :
  forall (this : TokenizationConfigType) (url : jsstring) (now : Z)
         (text : jsstring) (onProgress : Q -> jsstring -> M unit) (e : thrown),
    azureFunctionUrl this = Some url ->
    ~ all_space url ->
    (forall p message, result (onProgress p message) = Returned tt) ->
    result (tokenizeText this (Raised e) now text onProgress)
    = Raised match e with
             | ErrorObj name message =>
                 if js_eqb name (js "AbortError")
                 then new_Error (js "Request timed out. The Azure Function may be slow to respond or unavailable.")
                 else if includes message (js "Failed to fetch")
                         || includes message (js "NetworkError")
                 then new_Error MSG_CANNOT_CONNECT
                 else if includes message (js "CORS")
                 then new_Error (js "CORS error: The Azure Function needs to allow requests from this domain.")
                 else e
             | NonError => new_Error (js "Unknown tokenization error occurred")
             end.
Proof.
  intros this url now text onProgress e Hurl Hconf Hcb.
  unfold tokenizeText.
  rewrite Hurl, configured_url by (rewrite trim_nil_iff; assumption). cbv zeta.
  rewrite (result_bind _ _ (Hcb _ _)), result_try_catch.
  rewrite (result_bind _ _ (Hcb _ _)).
  rewrite (result_bind_raised (await _ (Raised e)) _ eq_refl).
  unfold tokenize_handler.
  destruct e as [name message|]; cbn [bind emit raise result snd];
    repeat match goal with
           | |- context [if ?c then _ else _] => destruct c
           end; reflexivity.
Qed.

Lemma tokenizeText_reports_rejections_witness :
  azureFunctionUrl default_service = Some DEFAULT_URL
  /\ result (tokenizeText default_service aborted 7 (js "a b") no_progress)
     = Raised (new_Error MSG_TIMEOUT)
  /\ result (tokenizeText default_service offline 7 (js "a b") no_progress)
     = Raised (new_Error MSG_CANNOT_CONNECT).
Proof.
  assert (Hconf : ~ all_space DEFAULT_URL).
  { intros H; inversion H as [|c r Hc _]; vm_compute in Hc; discriminate. }
  split; [reflexivity|]. split.
  - apply (tokenizeText_reports_rejections default_service (url := DEFAULT_URL)
             7 (js "a b") no_progress
             (ErrorObj (js "AbortError") (js "The user aborted a request."))
             eq_refl Hconf (fun _ _ => eq_refl)).
  - apply (tokenizeText_reports_rejections default_service (url := DEFAULT_URL)
             7 (js "a b") no_progress
             (ErrorObj (js "TypeError") (js "Failed to fetch"))
             eq_refl Hconf (fun _ _ => eq_refl)).
Defined.

(** X9.  A response outside the 2xx range never yields a result and its
    body is never parsed as JSON.  When its text can be read, the error
    thrown is ['Tokenization failed: <status> <statusText>. <body>'],
    unless that message contains one of the phrases the [catch] block
    looks for. *)
Theorem tokenizeText_rejects_http_errors :
  forall (this : TokenizationConfigType) (url : jsstring) (now : Z)
         (text : jsstring) (response : Response),
    azureFunctionUrl this = Some url ->
    ~ all_space url ->
    ok response = false ->
    let run := tokenizeText this (Returned response) now text record_progress in
    (forall data, result run <> Returned data)
    /\ ~ In EvResponseJson (events run)
    /\ (forall body,
          r_text response = Returned body ->
          let message :=
            js "Tokenization failed: " ++ string_of_Z (Z.of_N (r_status response))
              ++ js " " ++ r_statusText response ++ js ". " ++ body in
          includes message (js "Failed to fetch") = false ->
          includes message (js "NetworkError") = false ->
          includes message (js "CORS") = false ->
          result run = Raised (new_Error message)).
Proof.
  intros this url now text response Hurl Hconf Hok run; subst run.
  unfold tokenizeText, record_progress.
  rewrite Hurl, configured_url by (rewrite trim_nil_iff; assumption). cbv zeta.
  unfold emit, await; cbn [bind]. rewrite Hok. cbn [negb bind].
  destruct (r_text response) as [body|e]; cbn [bind raise try_catch].
  - destruct (tokenize_handler_run
                (new_Error (js "Tokenization failed: "
                              ++ string_of_Z (Z.of_N (r_status response))
                              ++ js " " ++ r_statusText response
                              ++ js ". " ++ body))) as [e' He'].
    split; [|split].
    + rewrite He'; cbn [result snd]; discriminate.
    + rewrite He'; cbn [events fst app In].
      intros [H|[H|[H|[H|[H|[H|[]]]]]]]; discriminate H.
    + intros body' Hbody H1 H2 H3; injection Hbody as <-.
      clear He'. unfold tokenize_handler, new_Error.
      replace (js_eqb (js "Error") (js "AbortError")) with false by reflexivity.
      rewrite H1, H2, H3. reflexivity.
  - destruct (tokenize_handler_run e) as [e' He']. rewrite He'.
    split; [|split].
    + cbn [result snd]; discriminate.
    + cbn [events fst app In].
      intros [H|[H|[H|[H|[H|[H|[]]]]]]]; discriminate H.
    + intros body Hbody; discriminate Hbody.
Qed.

Lemma tokenizeText_rejects_http_errors_witness :
  ok server_error = false
  /\ result (tokenizeText default_service (Returned server_error) 7 (js "a b")
               record_progress)
     = Raised (new_Error (js "Tokenization failed: 500 Internal Server Error. model not loaded")).
Proof.
  assert (Hconf : ~ all_space DEFAULT_URL).
  { intros H; inversion H as [|c r Hc _]; vm_compute in Hc; discriminate. }
  split; [reflexivity|].
  destruct (tokenizeText_rejects_http_errors default_service (url := DEFAULT_URL)
              7 (js "a b") server_error eq_refl Hconf eq_refl)
    as (_ & _ & Hmessage).
  apply (Hmessage (js "model not loaded") eq_refl); reflexivity.
Defined.

(** ** [tokenizeText]: milestones and the request *)

(** What the [catch] block of [tokenizeText] adds to a run. *)
Lemma caught_by_tokenize_handler (m : M TokenizedData) :
  exists r',
    try_catch m tokenize_handler
    = (events m ++ match result m with
                   | Returned _ => []
                   | Raised _ => [EvConsole err (js "Tokenization error:")]
                   end, r')
    /\ match result m with
       | Returned data => r' = Returned data
       | Raised _ => exists e, r' = Raised e
       end.
Proof.
  destruct m as [t [data|e]]; cbn [try_catch events result fst snd].
  - exists (Returned data); rewrite app_nil_r; split; reflexivity.
  - destruct (tokenize_handler_run e) as [e' ->].
    exists (Raised e'); split; [reflexivity | eauto].
Qed.

(** Replaces the [try]/[catch] of [tokenizeText] in the goal by what it
    amounts to. *)
Ltac through_handler :=
  match goal with
  | |- context [try_catch ?m tokenize_handler] =>
      let r' := fresh "r'" in
      let Hc := fresh "Hc" in
      let Hr := fresh "Hr" in
      destruct (caught_by_tokenize_handler m) as (r' & Hc & Hr);
      rewrite Hc; clear Hc;
      cbn [result snd] in Hr;
      first [ subst r' | destruct Hr as [? ->] ]
  end.

(** Closes one path of [tokenizeText]: [n] milestones were reported. *)
Ltac path_with n :=
  exists n; split; [lia|]; split; [reflexivity|]; split; [|reflexivity];
  split; [intros E; first [discriminate E | eexists; reflexivity]
         | intros [d E]; first [discriminate E | reflexivity]].

(** A configured service and an observer that records: the milestones
    reported form a beginning of 10, 30, 70, 90, 100, which is complete
    exactly when a result comes back, and one request is sent. *)
Lemma tokenizeText_paths (this : TokenizationConfigType) (url : jsstring)
    (network : fetch_outcome) (now : Z) (text : jsstring) :
  azureFunctionUrl this = Some url ->
  ~ all_space url ->
  exists n,
    n <= 5
    /\ List.map ps_progress
      (statuses (events (tokenizeText this network now text record_progress)))
    = firstn n [10; 30; 70; 90; 100]%Q
    /\ (n = 5 <->
        exists data,
          result (tokenizeText this network now text record_progress)
          = Returned data)
    /\ requests (events (tokenizeText this network now text record_progress))
       = [EvFetch url
            (if truthy_str (apiKey this)
             then option_map (fun k => js "Bearer " ++ k) (apiKey this)
             else None)
            text (modelName this)].
Proof.
  intros Hurl Hconf. unfold tokenizeText.
  rewrite Hurl, configured_url by (rewrite trim_nil_iff; assumption). cbv zeta.
  unfold record_progress, emit, await.
  set (authorization := if truthy_str (apiKey this) then _ else None).
  destruct network as [[status statusText rtext rjson]|e]; cbn [bind].
  2: { through_handler.
       cbn [events result fst snd app statuses flat_map List.map requests
              filter is_fetch ps_progress].
       path_with 2. }
  unfold ok; cbn [r_status r_text r_json r_statusText].
  destruct ((200 <=? status) && (status <=? 299))%N; cbn [negb bind ret raise].
  - destruct rjson as [body|e]; cbn [bind].
    + destruct body as [|b|q|str|items|fields]; cbn [get_prop own bind].
      6: destruct (lookup (js "tokens") fields) as [[|b|q|str|items|fs]|].
      all: cbn [isArray negb]; rewrite ?orb_true_r;
        cbn [truthy negb orb bind ret raise app].
      all: through_handler.
      all: cbn [events result fst snd app statuses flat_map List.map requests
                  filter is_fetch ps_progress].
      all: first [path_with 4 | path_with 5].
    + through_handler.
      cbn [events result fst snd app statuses flat_map List.map requests
             filter is_fetch ps_progress].
      path_with 3.
  - destruct rtext as [body|e]; cbn [bind raise app].
    all: through_handler.
    all: cbn [events result fst snd app statuses flat_map List.map requests
                filter is_fetch ps_progress].
    all: path_with 3.
Qed.

Lemma record_progress_returns (p : Q) (message : jsstring) :
  result (record_progress p message) = Returned tt.
Proof. reflexivity. Qed.

(** A service is configured or it is not. *)
Lemma configured_or_not (this : TokenizationConfigType) :
  (exists url, azureFunctionUrl this = Some url /\ ~ all_space url
               /\ js_eqb (trim url) [] = false)
  \/ (match azureFunctionUrl this with
      | None => True
      | Some url => all_space url /\ js_eqb (trim url) [] = true
      end).
Proof.
  destruct (azureFunctionUrl this) as [url|]; [|right; exact I].
  destruct (js_eqb (trim url) []) eqn:E.
  - right. apply js_eqb_eq in E. split; [apply trim_nil_iff; assumption | reflexivity].
  - left. exists url. pose proof E as Hne. apply js_eqb_neq in Hne.
    split; [reflexivity | split; [rewrite <- trim_nil_iff; assumption | exact E]].
Qed.

(** X10.  The milestones [tokenizeText] reports to its observer are
    always the first [n] of 10, 30, 70, 90, 100, in this order, for some
    [n] of at most 5; and the last one, 100, is among them exactly when
    the call returns a result: a call that throws has not reported 100,
    and a call that returns has reported all five. *)
Theorem tokenizeText_milestones :
  forall (this : TokenizationConfigType) (network : fetch_outcome) (now : Z)
         (text : jsstring),
    exists n,
      n <= 5
      /\ List.map ps_progress
           (statuses (events (tokenizeText this network now text record_progress)))
         = firstn n [10; 30; 70; 90; 100]%Q
      /\ (n = 5 <->
          exists data,
            result (tokenizeText this network now text record_progress)
            = Returned data)
      /\ (In 100%Q
            (List.map ps_progress
               (statuses
                  (events (tokenizeText this network now text record_progress))))
          <-> exists data,
                result (tokenizeText this network now text record_progress)
                = Returned data).
Proof.
  intros this network now text.
  assert (Hlast : forall n, n <= 5 ->
            (In 100%Q (firstn n [10; 30; 70; 90; 100]%Q) <-> n = 5)).
  { intros n Hn.
    do 5 (destruct n as [|n];
          [cbn [firstn In]; split; [intros H | discriminate];
           repeat (destruct H as [H|H]; [discriminate H|]); destruct H|]).
    destruct n as [|n]; [|lia].
    split; [reflexivity | intros _; cbn [firstn In]; tauto]. }
  destruct (configured_or_not this) as [(url & Hurl & Hconf & _) | Hnot].
  - destruct (tokenizeText_paths this network now text Hurl Hconf)
      as (n & Hn & Hm & Hr & _).
    exists n. split; [exact Hn|]. split; [exact Hm|]. split; [exact Hr|].
    rewrite Hm, (Hlast n Hn). exact Hr.
  - assert (Hrun : tokenizeText this network now text record_progress
                   = ([], Raised (new_Error MSG_NOT_CONFIGURED))).
    { apply not_configured_iff; [apply record_progress_returns|].
      destruct (azureFunctionUrl this); [apply Hnot | exact I]. }
    rewrite Hrun. exists 0. split; [lia|]. split; [reflexivity|].
    split; (split; [intros H; first [discriminate H | destruct H]
                   | intros [d E]; discriminate E]).
Qed.

(** X11.  One call, at most one request.  On a configured service
    [tokenizeText] sends exactly one request, whatever comes back: to the
    configured address, with [Authorization: Bearer <apiKey>] exactly when
    the key is a non-empty string, with the text as it was given and the
    configured model name.  On a service that is not configured it sends
    none. *)
Theorem tokenizeText_sends_one_request :
  forall (this : TokenizationConfigType) (network : fetch_outcome) (now : Z)
         (text : jsstring),
    requests (events (tokenizeText this network now text record_progress))
    = match azureFunctionUrl this with
      | Some url =>
          if js_eqb (trim url) [] then []
          else [EvFetch url
                  (match apiKey this with
                   | Some (c :: key) => Some (js "Bearer " ++ c :: key)
                   | _ => None
                   end)
                  text (modelName this)]
      | None => []
      end.
Proof.
  intros this network now text.
  destruct (configured_or_not this) as [(url & Hurl & Hconf & Htrim) | Hnot].
  - destruct (tokenizeText_paths this network now text Hurl Hconf)
      as (n & _ & _ & _ & Hreq).
    rewrite Hreq, Hurl, Htrim.
    destruct (apiKey this) as [[|c key]|]; reflexivity.
  - assert (Hrun : tokenizeText this network now text record_progress
                   = ([], Raised (new_Error MSG_NOT_CONFIGURED))).
    { apply not_configured_iff; [apply record_progress_returns|].
      destruct (azureFunctionUrl this); [apply Hnot | exact I]. }
    rewrite Hrun.
    destruct (azureFunctionUrl this) as [url|]; [|reflexivity].
    destruct Hnot as [_ ->]; reflexivity.
Qed.

(** ** [updateConfig] and the configuration panel *)

(** X12.  [updateConfig] merges key by key and the later call wins: an
    update without keys changes nothing, two updates in a row amount to
    one update in which a key is taken from the second when it is present
    there and from the first otherwise, and a key that is present with
    the value [undefined] erases what was configured. *)
Theorem updateConfig_merges :
  forall (this : TokenizationConfigType) (first second : PartialConfig),
    updateConfig this (mkPartial None None None) = this
    /\ updateConfig (updateConfig this first) second
       = updateConfig this
           (mkPartial
              (match p_modelName second with
               | Some v => Some v | None => p_modelName first end)
              (match p_azureFunctionUrl second with
               | Some v => Some v | None => p_azureFunctionUrl first end)
              (match p_apiKey second with
               | Some v => Some v | None => p_apiKey first end))
    /\ azureFunctionUrl
         (updateConfig this (mkPartial (p_modelName first) (Some None)
                               (p_apiKey first)))
       = None
    /\ getConfig (updateConfig this first) = updateConfig this first.
Proof.
  intros [m u k] [m1 u1 k1] [m2 u2 k2]; unfold updateConfig, getConfig;
    cbn [modelName azureFunctionUrl apiKey p_modelName p_azureFunctionUrl
         p_apiKey spread].
  repeat split.
  destruct m2, u2, k2; reflexivity.
Qed.

(** X13.  "Reset" followed by "Save" switches the tokenizer off: whatever
    the service was configured with, afterwards its address is the empty
    string, so every [tokenizeText] throws the not-configured error and
    [testConnection] answers [false], and neither sends a request. *)
Theorem reset_and_save_disable_the_tokenizer :
  forall (service : TokenizationConfigType) (network : fetch_outcome) (now : Z)
         (text : jsstring) (onProgress : Q -> jsstring -> M unit),
    azureFunctionUrl (handleSave handleReset service) = Some []
    /\ tokenizeText (handleSave handleReset service) network now text onProgress
       = ([], Raised (new_Error MSG_NOT_CONFIGURED))
    /\ testConnection (handleSave handleReset service) network
       = ([], Returned false).
Proof. intros; repeat split. Qed.

(** X14.  "Test Connection" does not test a copy: it writes the form into
    the service exactly as "Save" does and leaves it there, whatever the
    test gives.  The result shown is a success exactly when the address
    of the form is a non-empty string and the request resolves with a 2xx
    status. *)
Theorem test_connection_saves_the_form :
  forall (config service : TokenizationConfigType) (network : fetch_outcome),
    fst (fst (handleTest config service network)) = handleSave config service
    /\ exists message,
         snd (handleTest config service network)
         = Some (if truthy_str (azureFunctionUrl config)
                    && match network with
                       | Returned response => ok response
                       | Raised _ => false
                       end
                 then success else failure, message).
Proof.
  intros config service network. unfold handleTest, handleSave, testConnection.
  cbn [azureFunctionUrl updateConfig as_update spread p_azureFunctionUrl].
  destruct (truthy_str (azureFunctionUrl config)); cbn [negb andb].
  - destruct network as [response|e]; cbn [try_catch bind await ret emit app].
    + destruct (ok response); (split; [reflexivity | eexists; reflexivity]).
    + split; [reflexivity | eexists; reflexivity].
  - cbn [ret]; split; [reflexivity | eexists; reflexivity].
Qed.

(** ** The status list *)

Lemma find_status_replaced (status : ProcessingStatus) (prev : list ProcessingStatus) :
  find_status (ps_id status) prev <> None ->
  find_status (ps_id status)
    (List.map (fun s => if js_eqb (ps_id s) (ps_id status) then status else s) prev)
  = Some status.
Proof.
  unfold find_status. induction prev as [|s prev IH]; cbn [find List.map].
  - congruence.
  - destruct (js_eqb (ps_id s) (ps_id status)) eqn:E.
    + intros _. rewrite js_eqb_refl. reflexivity.
    + intros H. rewrite E. apply IH, H.
Qed.

Lemma find_status_other (status : ProcessingStatus) (prev : list ProcessingStatus)
    (id : jsstring) :
  id <> ps_id status ->
  find_status id
    (List.map (fun s => if js_eqb (ps_id s) (ps_id status) then status else s) prev)
  = find_status id prev.
Proof.
  intros Hid. unfold find_status.
  induction prev as [|s prev IH]; cbn [find List.map]; [reflexivity|].
  destruct (js_eqb (ps_id s) (ps_id status)) eqn:E.
  - apply js_eqb_eq in E.
    assert (E1 : js_eqb (ps_id status) id = false)
      by (apply js_eqb_neq; congruence).
    rewrite E1, E, E1. exact IH.
  - destruct (js_eqb (ps_id s) id); [reflexivity | exact IH].
Qed.

Lemma find_status_app (id : jsstring) (l1 l2 : list ProcessingStatus) :
  find_status id (l1 ++ l2)
  = match find_status id l1 with
    | Some s => Some s
    | None => find_status id l2
    end.
Proof.
  unfold find_status. induction l1 as [|s l1 IH]; cbn [find app]; [reflexivity|].
  destruct (js_eqb (ps_id s) id); [reflexivity | exact IH].
Qed.

Lemma ids_replaced (status : ProcessingStatus) (prev : list ProcessingStatus) :
  List.map ps_id
    (List.map (fun s => if js_eqb (ps_id s) (ps_id status) then status else s) prev)
  = List.map ps_id prev.
Proof.
  induction prev as [|s prev IH]; cbn [List.map]; [reflexivity|].
  rewrite IH. f_equal.
  destruct (js_eqb (ps_id s) (ps_id status)) eqn:E; [|reflexivity].
  apply js_eqb_eq in E; congruence.
Qed.

Lemma find_status_none (id : jsstring) (l : list ProcessingStatus) :
  find_status id l = None <-> ~ In id (List.map ps_id l).
Proof.
  unfold find_status. induction l as [|s l IH]; cbn [find List.map In].
  - tauto.
  - destruct (js_eqb (ps_id s) id) eqn:E.
    + apply js_eqb_eq in E. split; [discriminate | tauto].
    + apply js_eqb_neq in E. tauto.
Qed.

Lemma find_status_updated (status : ProcessingStatus) (prev : list ProcessingStatus)
    (id : jsstring) :
  find_status id (updateProcessingStatus status prev)
  = if js_eqb (ps_id status) id then Some status else find_status id prev.
Proof.
  unfold updateProcessingStatus. fold (find_status (ps_id status) prev).
  destruct (js_eqb (ps_id status) id) eqn:E.
  - apply js_eqb_eq in E; subst id.
    destruct (find_status (ps_id status) prev) as [s|] eqn:F.
    + apply find_status_replaced; congruence.
    + rewrite find_status_app, F. unfold find_status; cbn [find].
      rewrite js_eqb_refl; reflexivity.
  - pose proof E as Hne. apply js_eqb_neq in Hne.
    destruct (find_status (ps_id status) prev) as [s|] eqn:F.
    + apply find_status_other; congruence.
    + rewrite find_status_app.
      assert (Hone : find_status id [status] = None)
        by (unfold find_status; cbn [find]; rewrite E; reflexivity).
      rewrite Hone. destruct (find_status id prev); reflexivity.
Qed.

(** X15.  [updateProcessingStatus] keeps one entry per [id]: afterwards
    the list answers the new status for its [id] and what it answered
    before for every other [id]; an [id] that was listed keeps its place
    and a new one goes to the end; and a list without repeated [id]s stays
    one. *)
Theorem updateProcessingStatus_keeps_one_entry_per_id :
  forall (status : ProcessingStatus) (prev : list ProcessingStatus),
    find_status (ps_id status) (updateProcessingStatus status prev) = Some status
    /\ (forall id, id <> ps_id status ->
          find_status id (updateProcessingStatus status prev) = find_status id prev)
    /\ List.map ps_id (updateProcessingStatus status prev)
       = (if existsb (js_eqb (ps_id status)) (List.map ps_id prev)
          then List.map ps_id prev
          else List.map ps_id prev ++ [ps_id status])
    /\ (NoDup (List.map ps_id prev) ->
        NoDup (List.map ps_id (updateProcessingStatus status prev))).
Proof.
  intros status prev.
  assert (Hids : List.map ps_id (updateProcessingStatus status prev)
                 = if existsb (js_eqb (ps_id status)) (List.map ps_id prev)
                   then List.map ps_id prev
                   else List.map ps_id prev ++ [ps_id status]).
  { unfold updateProcessingStatus. fold (find_status (ps_id status) prev).
    destruct (find_status (ps_id status) prev) as [s|] eqn:F.
    - rewrite ids_replaced.
      assert (Hin : In (ps_id status) (List.map ps_id prev)).
      { destruct (in_dec (list_eq_dec N.eq_dec) (ps_id status) (List.map ps_id prev))
          as [H|H]; [exact H|].
        apply find_status_none in H; congruence. }
      assert (E : existsb (js_eqb (ps_id status)) (List.map ps_id prev) = true).
      { apply existsb_exists; exists (ps_id status); split;
          [exact Hin | apply js_eqb_refl]. }
      rewrite E; reflexivity.
    - apply find_status_none in F.
      assert (E : existsb (js_eqb (ps_id status)) (List.map ps_id prev) = false).
      { apply not_true_is_false; intros E. apply existsb_exists in E.
        destruct E as (x & Hx & Ex). apply js_eqb_eq in Ex; subst x. tauto. }
      rewrite E, map_app; reflexivity. }
  split; [|split; [|split]].
  - rewrite find_status_updated, js_eqb_refl; reflexivity.
  - intros id Hid. rewrite find_status_updated.
    assert (E : js_eqb (ps_id status) id = false) by (apply js_eqb_neq; congruence).
    rewrite E; reflexivity.
  - exact Hids.
  - intros Hnodup. rewrite Hids.
    destruct (existsb (js_eqb (ps_id status)) (List.map ps_id prev)) eqn:E;
      [assumption|].
    apply NoDup_app; [assumption | repeat constructor; intros [] |].
    intros x Hx [<-|[]].
    assert (existsb (js_eqb (ps_id status)) (List.map ps_id prev) = true); [|congruence].
    apply existsb_exists; exists (ps_id status); split; [exact Hx | apply js_eqb_refl].
Qed.

Lemma statuses_app (t1 t2 : trace) : statuses (t1 ++ t2) = statuses t1 ++ statuses t2.
Proof. unfold statuses; apply flat_map_app. Qed.

(** X16.  The last emission is the one that counts: after the observer
    has received the statuses of a trace, the list answers for an [id] the
    last status of the trace with that [id], and what it answered before
    when the trace has none. *)
Theorem last_status_is_the_recorded_one :
  forall (t : trace) (prev : list ProcessingStatus) (id : jsstring),
    find_status id (fold_left apply_event t prev)
    = match find_status id (rev (statuses t)) with
      | Some status => Some status
      | None => find_status id prev
      end.
Proof.
  induction t as [|e t IH]; intros prev id; cbn [fold_left]; [reflexivity|].
  rewrite IH.
  change (e :: t) with ([e] ++ t). rewrite statuses_app, rev_app_distr, find_status_app.
  destruct (find_status id (rev (statuses t))) as [s|]; [reflexivity|].
  destruct e as [status| | | | | | | | | |]; cbn [apply_event statuses flat_map rev app];
    try reflexivity.
  rewrite find_status_updated. unfold find_status at 2; cbn [find].
  destruct (js_eqb (ps_id status) id); reflexivity.
Qed.

(** ** Batches *)

(** The loop over a batch is the loop over its first files followed by
    the loop over the others. *)
Lemma process_loop_app (previous : list ExtractedDocument) (world : nat -> Env)
    (first others : list UploadedFile) :
  forall index,
    process_loop previous world index (first ++ others) []
    = (fst (process_loop previous world index first [])
         ++ fst (process_loop previous world (index + List.length first) others []),
       snd (process_loop previous world index first [])
         ++ snd (process_loop previous world (index + List.length first) others [])).
Proof.
  induction first as [|f first IH]; intros index.
  - cbn [app process_loop List.length fst snd]. rewrite Nat.add_0_r.
    destruct (process_loop previous world index others []); reflexivity.
  - cbn [app process_loop List.length].
    replace (index + S (List.length first)) with (S index + List.length first) by lia.
    destruct (find_processed previous f) as [doc|].
    + rewrite (process_loop_accumulates previous world (first ++ others)),
        (process_loop_accumulates previous world first), IH.
      cbn [fst snd]. rewrite app_assoc. reflexivity.
    + destruct (extractText (uf_file f) (world index)) as [t [doc|e]].
      * rewrite (process_loop_accumulates previous world (first ++ others)),
          (process_loop_accumulates previous world first), IH.
        cbn [fst snd]. rewrite !app_assoc. reflexivity.
      * rewrite IH.
        destruct (process_loop previous world (S index) first []) as [t1 d1].
        cbn [fst snd app]. rewrite <- !app_assoc. reflexivity.
Qed.

Lemma process_loop_later (previous : list ExtractedDocument) (world : nat -> Env)
    (files : list UploadedFile) (n : nat) :
  forall index newDocuments,
    process_loop previous (later n world) index files newDocuments
    = process_loop previous world (n + index) files newDocuments.
Proof.
  induction files as [|f files IH]; intros index newDocuments; [reflexivity|].
  cbn [process_loop]. unfold later at 2.
  replace (S (n + index)) with (n + S index) by lia.
  destruct (find_processed previous f) as [doc|]; [apply IH|].
  destruct (extractText (uf_file f) (world (n + index))) as [t [doc|e]];
    rewrite IH; reflexivity.
Qed.

(** X17.  The files of a batch do not influence one another.  Processing
    a batch gives the events of processing its first part followed by the
    events of processing the rest from the same earlier documents, and
    the documents of the first part followed by the documents of the
    rest; so what one file yields, or that it fails, changes nothing for
    the others. *)
Theorem batch_files_are_independent :
  forall (state : State) (world : nat -> Env) (first others : list UploadedFile),
    first <> [] -> others <> [] ->
    let whole := processDocuments state world (first ++ others) in
    let head := processDocuments state world first in
    let tail :=
      processDocuments
        (mkState (processingStatuses (snd head)) (extractedDocuments state) false)
        (later (List.length first) world) others in
    fst whole = fst head ++ fst tail
    /\ extractedDocuments (snd whole)
       = extractedDocuments (snd head) ++ extractedDocuments (snd tail)
    /\ processingStatuses (snd whole) = processingStatuses (snd tail).
Proof.
  intros state world first others Hfirst Hothers whole head tail.
  subst whole head tail. unfold processDocuments.
  destruct first as [|f first]; [congruence|].
  destruct others as [|o others]; [congruence|].
  cbn [extractedDocuments].
  rewrite (process_loop_app (extractedDocuments state) world (f :: first) (o :: others) 0).
  rewrite (process_loop_later (extractedDocuments state) world (o :: others)
             (List.length (f :: first)) 0 []).
  rewrite Nat.add_0_r. cbn [Nat.add].
  destruct (process_loop (extractedDocuments state) world 0 (f :: first) [])
    as [t1 d1].
  cbn [fst snd extractedDocuments processingStatuses].
  destruct (process_loop (extractedDocuments state) world
              (List.length (f :: first)) (o :: others) []) as [t2 d2].
  cbn [fst snd extractedDocuments processingStatuses].
  rewrite fold_left_app. repeat split.
Qed.

Lemma batch_files_are_independent_witness :
  extractedDocuments
    (snd (processDocuments initial_state offline_world
            ([upload notes_txt] ++ [upload legacy_doc; upload memo_docx])))
  = extractedDocuments
      (snd (processDocuments initial_state offline_world [upload notes_txt]))
    ++ extractedDocuments
         (snd (processDocuments
                 (mkState
                    (processingStatuses
                       (snd (processDocuments initial_state offline_world
                               [upload notes_txt])))
                    [] false)
                 (later 1 offline_world) [upload legacy_doc; upload memo_docx])).
Proof.
  apply (batch_files_are_independent initial_state offline_world
           (first := [upload notes_txt])
           (others := [upload legacy_doc; upload memo_docx])
           ltac:(discriminate) ltac:(discriminate)).
Defined.

Lemma extraction_calls_app (t1 t2 : trace) :
  extraction_calls (t1 ++ t2) = extraction_calls t1 + extraction_calls t2.
Proof. unfold extraction_calls; rewrite filter_app, length_app; reflexivity. Qed.

Lemma no_extraction_calls (t : trace) :
  Forall (fun e => is_extraction_start e = false) t -> extraction_calls t = 0.
Proof.
  unfold extraction_calls; induction 1 as [|e t He _ IH]; cbn [filter];
    [reflexivity | rewrite He; exact IH].
Qed.

Lemma try_catch_emit_first {A : Type} (e : event) (k : unit -> M A)
    (handler : thrown -> M A) :
  events (try_catch (bind (emit e) k) handler)
  = e :: events (try_catch (k tt) handler).
Proof.
  unfold emit; cbn [bind]. destruct (k tt) as [t [a|x]]; cbn [try_catch events fst app];
    [reflexivity|].
  destruct (handler x); reflexivity.
Qed.

Ltac not_a_start :=
  cbn [is_extraction_start ps_progress ps_message];
  first [ reflexivity
        | apply andb_false_iff; right; reflexivity
        | apply andb_false_iff; left; reflexivity ].

Lemma pdf_pages_no_start (file : File) (pdf : PdfDocument) (totalPages : nat) :
  forall (remaining pageNum : nat) (fullText : jsstring),
    Forall (fun e => is_extraction_start e = false)
      (events (pdf_pages file pdf totalPages remaining pageNum fullText)).
Proof.
  induction remaining as [|remaining IH]; intros pageNum fullText;
    cbn [pdf_pages]; unfold progress.
  - apply Forall_ret.
  - through_trace; [not_a_start | reflexivity | apply IH].
Qed.

(** A run of [extractText] announces its start once. *)
Lemma extractText_starts_once (file : File) (env : Env) :
  extraction_calls (events (extractText file env)) = 1.
Proof.
  unfold extractText. unfold progress at 1. rewrite try_catch_emit_first.
  change (?e :: ?t) with ([e] ++ t). rewrite extraction_calls_app.
  rewrite (no_extraction_calls (t := events (try_catch _ _))); [reflexivity|].
  unfold extract_by_type, extractFromPDF, extractFromDocx, extractFromText,
    tokenize_step, progress.
  through_trace; try reflexivity; try not_a_start.
  - apply pdf_pages_no_start.
  - apply tokenizeText_events.
    + intros p message _. unfold tokenization_progress, progress.
      apply Forall_emit. not_a_start.
    + intros [] H; try reflexivity; contradiction.
Qed.

Lemma process_loop_calls (previous : list ExtractedDocument) (world : nat -> Env)
    (files : list UploadedFile) :
  forall index,
    extraction_calls (fst (process_loop previous world index files []))
    = List.length (filter (is_new previous) files).
Proof.
  induction files as [|f files IH]; intros index; [reflexivity|].
  cbn [process_loop filter]. unfold is_new at 1.
  destruct (find_processed previous f) as [doc|].
  - rewrite process_loop_accumulates; cbn [fst]. apply IH.
  - pose proof (extractText_starts_once (uf_file f) (world index)) as Hone.
    destruct (extractText (uf_file f) (world index)) as [t [doc|e]];
      cbn [events fst] in Hone.
    + rewrite process_loop_accumulates; cbn [fst List.length].
      rewrite extraction_calls_app, Hone, IH; reflexivity.
    + specialize (IH (S index)).
      destruct (process_loop previous world (S index) files []) as [t' docs].
      cbn [fst List.length] in *.
      rewrite !extraction_calls_app, Hone, IH. reflexivity.
Qed.

(** X18.  Only new files are extracted.  In a batch, [extractText] is
    called once for every file that has no document of its name and type
    in the state the batch starts from, and for no other file; in
    particular a file list resubmitted with added files costs one call
    per added file. *)
Theorem only_new_files_are_extracted :
  forall (state : State) (world : nat -> Env) (files : list UploadedFile),
    extraction_calls (fst (processDocuments state world files))
    = List.length (filter (is_new (extractedDocuments state)) files).
Proof.
  intros state world files. unfold processDocuments.
  destruct files as [|f files]; [reflexivity|].
  pose proof (process_loop_calls (extractedDocuments state) world (f :: files) 0)
    as Hcalls.
  destruct (process_loop (extractedDocuments state) world 0 (f :: files) [])
    as [t docs]. exact Hcalls.
Qed.

(** ** Reuse of documents *)

(** A batch that has files runs the loop from the documents of the
    state. *)
Lemma processDocuments_runs_the_loop (state : State) (world : nat -> Env)
    (files : list UploadedFile) :
  files <> [] ->
  fst (processDocuments state world files)
  = fst (process_loop (extractedDocuments state) world 0 files [])
  /\ extractedDocuments (snd (processDocuments state world files))
     = snd (process_loop (extractedDocuments state) world 0 files []).
Proof.
  intros Hne. unfold processDocuments.
  destruct files as [|f files]; [congruence|].
  destruct (process_loop (extractedDocuments state) world 0 (f :: files) []);
    split; reflexivity.
Qed.

(** C3, as the code has it.  The lookup for an already processed file
    goes through the documents the state held when the batch started,
    never through the documents of the batch under way.  Take any file
    [f] of any batch, with the files [before] it and the files [after]
    it.  If the state holds a document of the name and type of [f], the
    file causes no event, so it is not extracted, and that document is
    put between the documents of the files before and after it.  If the
    state holds none, [extractText] is called for [f], whatever documents
    the files before it have yielded: its events stand between theirs
    and those of the files after it, and its document, when it returns
    one, between their documents.  So the number of calls of
    [extractText] is the number of files without a document in the state,
    and when every file has one, nothing is extracted at all and the new
    list consists of those documents in the order of the files. *)
Theorem reuse_is_from_the_previous_state :
  forall (state : State) (world : nat -> Env)
         (before after : list UploadedFile) (f : UploadedFile),
    let previous := extractedDocuments state in
    let files := before ++ f :: after in
    let run := processDocuments state world files in
    let head := process_loop previous world 0 before [] in
    let tail := process_loop previous world (S (List.length before)) after [] in
    match find_processed previous f with
    | Some doc =>
        fst run = fst head ++ fst tail
        /\ extractedDocuments (snd run) = snd head ++ doc :: snd tail
    | None =>
        match extractText (uf_file f) (world (List.length before)) with
        | (t, Returned doc) =>
            fst run = fst head ++ t ++ fst tail
            /\ extractedDocuments (snd run) = snd head ++ doc :: snd tail
        | (t, Raised error) =>
            fst run
            = fst head ++ t
                ++ [EvConsole err (js "Failed to process " ++ uf_name f ++ js ":");
                    EvProgress
                      (mkStatus (uf_name f) Error 0%Q (js "Processing failed")
                         (Some match error with
                               | ErrorObj _ message => message
                               | NonError => js "Unknown error"
                               end))]
                ++ fst tail
            /\ extractedDocuments (snd run) = snd head ++ snd tail
        end
    end
    /\ extraction_calls (fst run) = List.length (filter (is_new previous) files)
    /\ ((forall g, In g files -> find_processed previous g <> None) ->
        fst run = []
        /\ extraction_calls (fst run) = 0
        /\ List.map Some (extractedDocuments (snd run))
           = List.map (find_processed previous) files).
Proof.
  intros state world before after f previous files run head tail.
  assert (Hne : files <> []).
  { unfold files. destruct before; discriminate. }
  destruct (processDocuments_runs_the_loop state world Hne) as [Ht Hdocs].
  fold run previous in Ht, Hdocs.
  split; [|split].
  - rewrite Ht, Hdocs. unfold files. rewrite process_loop_app.
    cbn [fst snd Nat.add]. fold head.
    cbn [process_loop].
    destruct (find_processed previous f) as [doc|].
    + rewrite process_loop_accumulates. fold tail. cbn [fst snd app].
      split; reflexivity.
    + destruct (extractText (uf_file f) (world (List.length before)))
        as [t [doc|error]].
      * rewrite process_loop_accumulates. fold tail. cbn [fst snd app].
        split; reflexivity.
      * fold tail. destruct tail as [t' docs']. cbn [fst snd app].
        split; reflexivity.
  - rewrite Ht. apply process_loop_calls.
  - intros Hknown.
    destruct (@process_loop_all_known previous world files Hknown 0)
      as [Hquiet Hsame].
    rewrite Ht, Hdocs, Hquiet. repeat split. exact Hsame.
Qed.

Lemma reuse_is_from_the_previous_state_witness :
  find_processed (extractedDocuments state_with_notes) (upload notes_txt)
  = Some notes_document
  /\ fst (processDocuments state_with_notes offline_world
            [upload report_pdf; upload notes_txt; upload notes_txt])
     = fst (process_loop [notes_document] offline_world 0 [upload report_pdf] [])
  /\ extraction_calls
       (fst (processDocuments state_with_notes offline_world
               [upload report_pdf; upload notes_txt; upload notes_txt])) = 1
  /\ fst (processDocuments state_with_notes offline_world
            [upload notes_txt; upload notes_txt]) = []
  /\ List.map Some
       (extractedDocuments
          (snd (processDocuments state_with_notes offline_world
                  [upload notes_txt; upload notes_txt])))
     = [Some notes_document; Some notes_document].
Proof.
  split; [reflexivity|].
  pose proof (reuse_is_from_the_previous_state state_with_notes offline_world
                [upload report_pdf] [upload notes_txt] (upload notes_txt))
    as Hmixed.
  pose proof (reuse_is_from_the_previous_state state_with_notes offline_world
                [] [upload notes_txt] (upload notes_txt))
    as Hknown.
  cbv zeta in Hmixed, Hknown. cbn [app] in Hmixed, Hknown.
  change (find_processed (extractedDocuments state_with_notes) (upload notes_txt))
    with (Some notes_document) in Hmixed, Hknown.
  destruct Hmixed as ([Hevents _] & Hcalls & _).
  destruct Hknown as (_ & _ & Hall).
  split; [|split].
  - rewrite Hevents. vm_compute. reflexivity.
  - exact Hcalls.
  - destruct Hall as (Hquiet & _ & Hdocs).
    + intros g [<- | [<- | []]]; discriminate.
    + split; [exact Hquiet | exact Hdocs].
Defined.

(** C3, counterexample.  A batch of two files of one name and one type,
    started from a state without documents, calls [extractText] twice
    and reads the file twice; the second document is not the first. *)
Lemma duplicate_in_batch_is_extracted_twice :
  uf_name (upload notes_txt) = uf_name (upload notes_txt)
  /\ extraction_calls
       (fst (processDocuments initial_state offline_world
               [upload notes_txt; upload notes_txt])) = 2
  /\ List.length
       (filter reads_file
          (fst (processDocuments initial_state offline_world
                  [upload notes_txt; upload notes_txt]))) = 2
  /\ exists first second,
       extractedDocuments
         (snd (processDocuments initial_state offline_world
                 [upload notes_txt; upload notes_txt]))
       = [first; second]
       /\ first <> second.
Proof.
  split; [reflexivity|]. split; [vm_compute; reflexivity|].
  split; [vm_compute; reflexivity|].
  eexists _, _; split; [vm_compute; reflexivity|].
  intros H; apply (f_equal id) in H; vm_compute in H; discriminate H.
Qed.

(** ** The upload widget *)

(** The scan of a drop: every file ends either as one error message or as
    one accepted file, and an accepted file is valid and no duplicate of
    an earlier selection. *)
Lemma scan_files_sorts (previous : list UploadedFile) (now modified : nat -> Z)
    (fileArray : list File) :
  forall (index : nat) (newErrors : list jsstring) (validFiles : list UploadedFile),
    exists errors added,
      scan_files previous now modified index fileArray newErrors validFiles
      = (newErrors ++ errors, validFiles ++ added)
      /\ Forall (accepted_from previous fileArray) added
      /\ List.length errors + List.length added = List.length fileArray.
Proof.
  induction fileArray as [|file rest IH]; intros index newErrors validFiles.
  - exists [], []. rewrite !app_nil_r. repeat split. constructor.
  - assert (Hweaken : forall added,
              Forall (accepted_from previous rest) added ->
              Forall (accepted_from previous (file :: rest)) added).
    { intros added H. eapply Forall_impl; [|exact H].
      intros u (Hin & Hrest). split; [right; exact Hin | exact Hrest]. }
    cbn [scan_files].
    destruct (isValid (validateFile file)) eqn:Hvalid; cbn [negb].
    + destruct (isDuplicate previous file) eqn:Hdup.
      * destruct (IH (S index) (newErrors ++ [f_name file ++ js ": File already uploaded"])
                    validFiles) as (errors & added & -> & Hacc & Hlen).
        eexists (_ :: errors), added. rewrite <- app_assoc.
        split; [reflexivity | split; [auto | cbn [List.length]; lia]].
      * destruct (IH (S index) newErrors
                    (validFiles
                       ++ [mkUploaded (f_name file ++ js "-" ++ string_of_Z (now index)
                                         ++ js "-" ++ string_of_nat index)
                             (f_name file) (f_size file) (f_type file)
                             (modified index) file]))
          as (errors & added & -> & Hacc & Hlen).
        eexists errors, (_ :: added). rewrite <- app_assoc.
        split; [reflexivity | split; [|cbn [List.length]; lia]].
        constructor; [|auto].
        unfold accepted_from; cbn [uf_file uf_name uf_type uf_size].
        repeat split; auto. left; reflexivity.
    + destruct (IH (S index)
                  (newErrors ++ [f_name file ++ js ": "
                                   ++ match v_error (validateFile file) with
                                      | Some text => text
                                      | None => js "undefined"
                                      end])
                  validFiles) as (errors & added & -> & Hacc & Hlen).
      eexists (_ :: errors), added. rewrite <- app_assoc.
      split; [reflexivity | split; [auto | cbn [List.length]; lia]].
Qed.

(** The scan of a drop in closed form: one message for every file that is
    refused and one entry for every file that is admitted, in the order
    of the drop. *)
Lemma scan_files_exact (previous : list UploadedFile) (now modified : nat -> Z)
    (fileArray : list File) :
  forall (index : nat) (newErrors : list jsstring) (validFiles : list UploadedFile),
    scan_files previous now modified index fileArray newErrors validFiles
    = (newErrors ++ flat_map (refusal previous) fileArray,
       validFiles ++ admitted previous now modified index fileArray).
Proof.
  induction fileArray as [|file rest IH]; intros index newErrors validFiles.
  - cbn [scan_files flat_map]. unfold admitted; cbn [List.length seq combine filter List.map].
    rewrite !app_nil_r. reflexivity.
  - cbn [scan_files flat_map].
    unfold admitted; cbn [List.length seq combine filter List.map snd fst].
    fold (admitted previous now modified (S index) rest).
    unfold refusal at 1, admissible at 1.
    destruct (isValid (validateFile file)); cbn [negb andb].
    + destruct (isDuplicate previous file); cbn [negb List.map app fst snd];
        rewrite IH, <- app_assoc; reflexivity.
    + rewrite IH, <- app_assoc. reflexivity.
Qed.

Lemma admitted_files (previous : list UploadedFile) (now modified : nat -> Z)
    (fileArray : list File) :
  forall index,
    List.map uf_file (admitted previous now modified index fileArray)
    = filter (admissible previous) fileArray.
Proof.
  unfold admitted.
  induction fileArray as [|file rest IH]; intros index; [reflexivity|].
  cbn [List.length seq combine filter snd].
  destruct (admissible previous file); cbn [List.map fst snd];
    [unfold new_entry at 1; cbn [uf_file]; f_equal|]; apply IH.
Qed.

(** X19.  What [handleFiles] lets through.  The entries made from a drop
    are those of all the files of the drop that [validateFile] accepts and
    that have not both the name and the size of an earlier selection, one
    entry per such file and in the order of the drop, each with the name,
    type and size of its file.  If the earlier selection and these
    entries together exceed [maxFiles], nothing is added, the limit
    message follows the refusals and [onFilesSelected] is not called;
    otherwise all of them are added behind the earlier selection, which
    is kept as it is, and [onFilesSelected] is called with the new list
    exactly when there is at least one.  A selection within the limit
    stays within it. *)
Theorem handleFiles_admits_valid_files_within_the_limit :
  forall (state : UploadState) (maxFiles : nat) (now modified : nat -> Z)
         (fileArray : list File),
    let previous := uploadedFiles state in
    let added := admitted previous now modified 0 fileArray in
    let refusals := flat_map (refusal previous) fileArray in
    let after := handleFiles state maxFiles now modified fileArray in
    List.map uf_file added = filter (admissible previous) fileArray
    /\ Forall (accepted_from previous fileArray) added
    /\ (if Nat.ltb maxFiles (List.length previous + List.length added)
        then uploadedFiles (fst after) = previous
             /\ snd after = None
             /\ validationErrors (fst after)
                = refusals ++ [js "Cannot upload more than "
                                 ++ string_of_nat maxFiles ++ js " files"]
        else uploadedFiles (fst after) = previous ++ added
             /\ snd after = match added with
                            | [] => None
                            | _ :: _ => Some (previous ++ added)
                            end
             /\ validationErrors (fst after) = refusals)
    /\ (List.length previous <= maxFiles ->
        List.length (uploadedFiles (fst after)) <= maxFiles).
Proof.
  intros state maxFiles now modified fileArray previous added refusals after.
  assert (Hacc : Forall (accepted_from previous fileArray) added).
  { destruct (scan_files_sorts previous now modified fileArray 0 [] [])
      as (errors & added' & Hscan & Hacc & _).
    rewrite scan_files_exact in Hscan. cbn [app] in Hscan.
    injection Hscan as _ Hadded. fold added in Hadded. rewrite Hadded. exact Hacc. }
  assert (Hafter :
    after
    = if Nat.ltb maxFiles (List.length previous + List.length added)
      then ({| uploadedFiles := previous;
               validationErrors :=
                 refusals ++ [js "Cannot upload more than "
                                ++ string_of_nat maxFiles ++ js " files"] |},
            None)
      else match added with
           | [] => ({| uploadedFiles := previous; validationErrors := refusals |},
                    None)
           | _ :: _ =>
               ({| uploadedFiles := previous ++ added;
                   validationErrors := refusals |},
                Some (previous ++ added))
           end).
  { unfold after, handleFiles. fold previous.
    rewrite scan_files_exact. cbn [app]. fold added refusals.
    destruct (Nat.ltb maxFiles _); [reflexivity|].
    destruct added; reflexivity. }
  split; [apply admitted_files|]. split; [exact Hacc|].
  rewrite Hafter.
  destruct (Nat.ltb_spec maxFiles (List.length previous + List.length added))
    as [Hover|Hfits].
  - cbn [fst snd uploadedFiles validationErrors]. repeat split. auto.
  - destruct added as [|u rest] eqn:E;
      cbn [fst snd uploadedFiles validationErrors].
    + rewrite app_nil_r. repeat split. auto.
    + repeat split. intros _. rewrite length_app. exact Hfits.
Qed.

(** X20.  The duplicate check looks at earlier selections only.  A valid
    file dropped twice at once is added twice when there is room for it;
    dropped once more afterwards it is refused as already uploaded, the
    list stays as it is and [onFilesSelected] is not called. *)
Theorem duplicates_are_checked_against_earlier_drops :
  forall (state : UploadState) (maxFiles : nat) (now modified : nat -> Z)
         (file : File),
    isValid (validateFile file) = true ->
    isDuplicate (uploadedFiles state) file = false ->
    List.length (uploadedFiles state) + 2 <= maxFiles ->
    let twice := handleFiles state maxFiles now modified [file; file] in
    (exists u1 u2,
        uploadedFiles (fst twice) = uploadedFiles state ++ [u1; u2]
        /\ uf_file u1 = file /\ uf_file u2 = file
        /\ uf_name u1 = uf_name u2 /\ uf_size u1 = uf_size u2)
    /\ handleFiles (fst twice) maxFiles now modified [file]
       = ({| uploadedFiles := uploadedFiles (fst twice);
             validationErrors := [f_name file ++ js ": File already uploaded"] |},
          None).
Proof.
  intros state maxFiles now modified file Hvalid Hdup Hroom twice; subst twice.
  set (u1 := mkUploaded (f_name file ++ js "-" ++ string_of_Z (now 0)
                           ++ js "-" ++ string_of_nat 0)
               (f_name file) (f_size file) (f_type file) (modified 0) file).
  set (u2 := mkUploaded (f_name file ++ js "-" ++ string_of_Z (now 1)
                           ++ js "-" ++ string_of_nat 1)
               (f_name file) (f_size file) (f_type file) (modified 1) file).
  assert (Htwice : handleFiles state maxFiles now modified [file; file]
                   = ({| uploadedFiles := uploadedFiles state ++ [u1; u2];
                         validationErrors := [] |},
                      Some (uploadedFiles state ++ [u1; u2]))).
  { unfold handleFiles. cbn [scan_files]. rewrite Hvalid, Hdup.
    cbn [negb app List.length].
    destruct (Nat.ltb_spec maxFiles (List.length (uploadedFiles state) + 2)); [lia|].
    reflexivity. }
  rewrite Htwice. cbn [fst uploadedFiles].
  split; [exists u1, u2; repeat split|].
  assert (Hnow : isDuplicate (uploadedFiles state ++ [u1; u2]) file = true).
  { unfold isDuplicate. rewrite existsb_app. subst u1 u2.
    cbn [existsb uf_name uf_size].
    rewrite js_eqb_refl, N.eqb_refl. cbn [andb orb]. apply orb_true_r. }
  unfold handleFiles. cbn [scan_files uploadedFiles]. rewrite Hvalid, Hnow.
  cbn [negb app List.length].
  destruct (Nat.ltb_spec maxFiles (List.length (uploadedFiles state ++ [u1; u2]) + 0))
    as [Hover|_].
  - rewrite length_app in Hover; cbn [List.length] in Hover; lia.
  - reflexivity.
Qed.

Lemma duplicates_are_checked_against_earlier_drops_witness :
  isValid (validateFile notes_txt) = true
  /\ List.length
       (uploadedFiles
          (fst (handleFiles empty_upload 5 drop_clock drop_modified
                  [notes_txt; notes_txt]))) = 2
  /\ snd (handleFiles
            (fst (handleFiles empty_upload 5 drop_clock drop_modified
                    [notes_txt; notes_txt]))
            5 drop_clock drop_modified [notes_txt]) = None.
Proof.
  destruct (@duplicates_are_checked_against_earlier_drops empty_upload 5
              drop_clock drop_modified notes_txt eq_refl eq_refl
              ltac:(cbn; lia)) as ((u1 & u2 & Hlist & _) & Hagain).
  split; [reflexivity|]. split.
  - rewrite Hlist; reflexivity.
  - rewrite Hagain; reflexivity.
Defined.

(** ** [extractFromPDF]: an unreadable page *)

Lemma pdf_pages_stop (file : File) (pdf : PdfDocument) (totalPages : nat)
    (e : thrown) (good : list (list jsstring)) :
  forall (more pageNum : nat) (fullText : jsstring),
    (forall k, k < List.length good ->
               pdf_page pdf (pageNum + k) = Returned (nth k good [])) ->
    pdf_page pdf (pageNum + List.length good) = Raised e ->
    pdf_pages file pdf totalPages (List.length good + S more) pageNum fullText
    = (flat_map (page_events file totalPages)
         (seq pageNum (S (List.length good))),
       Raised e).
Proof.
  induction good as [|items good IH]; intros more pageNum fullText Hgood Hbad.
  - cbn [List.length Nat.add pdf_pages]. rewrite Nat.add_0_r in Hbad.
    unfold progress, emit, await. rewrite Hbad. reflexivity.
  - cbn [List.length Nat.add pdf_pages].
    pose proof (Hgood 0 (Nat.lt_0_succ _)) as H0.
    rewrite Nat.add_0_r in H0; cbn [nth] in H0.
    unfold progress, emit, await, bind at 1 2. rewrite H0.
    rewrite (IH more (S pageNum)).
    + reflexivity.
    + intros k Hk. replace (S pageNum + k) with (pageNum + S k) by lia.
      apply (Hgood (S k)); cbn [List.length]; lia.
    + replace (S pageNum + List.length good)
        with (pageNum + List.length (items :: good)) by (cbn [List.length]; lia).
      exact Hbad.
Qed.

(** X21.  A PDF with an unreadable page fails as a whole.  When the pages
    before page [k] can be read and page [k] cannot, [extractFromPDF]
    throws its fixed error, the text of the pages read so far is not
    returned, and no page after [k] is read. *)
Theorem extractFromPDF_stops_at_an_unreadable_page :
  forall (file : File) (pdf : PdfDocument) (good : list (list jsstring))
         (e : thrown),
    f_arrayBuffer file = Returned tt ->
    f_pdf file = Returned pdf ->
    List.length good < numPages pdf ->
    (forall k, k < List.length good ->
               pdf_page pdf (S k) = Returned (nth k good [])) ->
    pdf_page pdf (S (List.length good)) = Raised e ->
    result (extractFromPDF file)
    = Raised (new_Error (js "Failed to extract text from PDF. Please ensure the file is not corrupted."))
    /\ filter reads_file (events (extractFromPDF file))
       = EvArrayBuffer (f_name file) :: EvGetDocument
         :: List.map EvGetPage (seq 1 (S (List.length good))).
Proof.
  intros file pdf good e Hbuf Hpdf Hlen Hgood Hbad.
  assert (Hrun : pdf_pages file pdf (numPages pdf) (numPages pdf) 1 []
                 = (flat_map (page_events file (numPages pdf))
                      (seq 1 (S (List.length good))),
                    Raised e)).
  { replace (numPages pdf)
      with (List.length good + S (numPages pdf - S (List.length good)))
      at 2 by lia.
    apply pdf_pages_stop; assumption. }
  assert (Hfull :
    extractFromPDF file
    = (EvProgress (mkStatus (f_name file) Extracting 10%Q
                     (js "Loading PDF document...") None)
       :: EvArrayBuffer (f_name file) :: EvGetDocument
       :: flat_map (page_events file (numPages pdf)) (seq 1 (S (List.length good)))
       ++ [EvConsole err (js "PDF extraction error:")],
       Raised (new_Error (js "Failed to extract text from PDF. Please ensure the file is not corrupted.")))).
  { unfold extractFromPDF, progress, emit, await.
    rewrite Hbuf, Hpdf. cbn [bind]. rewrite Hrun. reflexivity. }
  rewrite Hfull. cbn [result events fst snd filter reads_file].
  split; [reflexivity|].
  rewrite filter_app, page_reads. cbn [filter reads_file]. rewrite app_nil_r.
  reflexivity.
Qed.

Lemma extractFromPDF_stops_at_an_unreadable_page_witness :
  pdf_page broken_document 2 = Raised (ErrorObj (js "Error") (js "Invalid page"))
  /\ filter reads_file (events (extractFromPDF broken_pdf))
     = [EvArrayBuffer (js "broken.pdf"); EvGetDocument; EvGetPage 1; EvGetPage 2].
Proof.
  split; [reflexivity|].
  apply (@extractFromPDF_stops_at_an_unreadable_page broken_pdf broken_document
           [[js "text"]] (ErrorObj (js "Error") (js "Invalid page"))
           eq_refl eq_refl ltac:(cbn; lia)).
  - intros [|k] Hk; [reflexivity | cbn in Hk; lia].
  - reflexivity.
Defined.

(** ** Words and white space *)

Section WordFacts.

Lemma word_prefix_split (s : jsstring) : s = word_prefix s ++ after_word s.
Proof.
  induction s as [|c s IH]; cbn [word_prefix after_word]; [reflexivity|].
  destruct (is_space c); [reflexivity | cbn [app]; f_equal; exact IH].
Qed.

Lemma word_prefix_no_space (s : jsstring) : no_space (word_prefix s).
Proof.
  induction s as [|c s IH]; cbn [word_prefix]; [constructor|].
  destruct (is_space c) eqn:E; [constructor | constructor; assumption].
Qed.

Lemma after_word_at_gap (s : jsstring) : at_gap (after_word s).
Proof.
  induction s as [|c s IH]; cbn [after_word]; [exact I|].
  destruct (is_space c) eqn:E; [exact E | exact IH].
Qed.

Lemma after_word_length (s : jsstring) :
  List.length (after_word s) <= List.length s.
Proof.
  induction s as [|c s IH]; cbn [after_word List.length]; [lia|].
  destruct (is_space c); cbn [List.length]; lia.
Qed.

Lemma trimStart_length (s : jsstring) :
  List.length (trimStart s) <= List.length s.
Proof.
  induction s as [|c s IH]; cbn [trimStart List.length]; [lia|].
  destruct (is_space c); cbn [List.length]; lia.
Qed.

Lemma trimStart_at_word (s : jsstring) : at_word (trimStart s).
Proof.
  induction s as [|c s IH]; cbn [trimStart]; [exact I|].
  destruct (is_space c) eqn:E; [exact IH | exact E].
Qed.

Lemma trimStart_of_at_word (s : jsstring) : at_word s -> trimStart s = s.
Proof. destruct s as [|c s]; cbn; [reflexivity | intros ->; reflexivity]. Qed.

(** *** [split(/\s+/)] *)

Lemma split_skipping (s : jsstring) :
  filter (fun w => negb (Nat.eqb (js_length w) 0)) (split_ws_go s [] true)
  = words s.
Proof.
  unfold words, split_ws. destruct s as [|c s]; cbn [split_ws_go]; [reflexivity|].
  destruct (is_space c); reflexivity.
Qed.

Lemma words_space (c : N) (s : jsstring) :
  is_space c = true -> words (c :: s) = words s.
Proof.
  intros Hc. unfold words at 1, split_ws. cbn [split_ws_go]. rewrite Hc.
  cbn [filter rev js_length List.length Nat.eqb negb]. apply split_skipping.
Qed.

Lemma words_trimStart (s : jsstring) : words (trimStart s) = words s.
Proof.
  induction s as [|c s IH]; cbn [trimStart]; [reflexivity|].
  destruct (is_space c) eqn:E; [rewrite words_space by exact E; exact IH | reflexivity].
Qed.

Lemma split_word (x : jsstring) :
  no_space x ->
  forall rest acc,
    split_ws_go (x ++ rest) acc false = split_ws_go rest (rev x ++ acc) false.
Proof.
  induction 1 as [|c x Hc _ IH]; intros rest acc; [reflexivity|].
  cbn [app split_ws_go rev]. rewrite Hc, IH, <- app_assoc. reflexivity.
Qed.

Lemma words_word (x rest : jsstring) :
  x <> [] -> no_space x -> at_gap rest -> words (x ++ rest) = x :: words rest.
Proof.
  intros Hne Hx Hrest. unfold words at 1, split_ws.
  rewrite (split_word Hx), app_nil_r.
  assert (Hkeep : negb (Nat.eqb (js_length x) 0) = true).
  { destruct x; [congruence | reflexivity]. }
  destruct rest as [|d r]; cbn [split_ws_go].
  - rewrite rev_involutive. cbn [filter]. rewrite Hkeep. reflexivity.
  - cbn [at_gap] in Hrest. rewrite Hrest, rev_involutive. cbn [filter].
    rewrite Hkeep, split_skipping, words_space by exact Hrest. reflexivity.
Qed.

Lemma words_nil : words [] = [].
Proof. reflexivity. Qed.

(** Every word is a non-empty string without white space. *)
Lemma words_are_words (s : jsstring) :
  Forall (fun w => w <> [] /\ no_space w) (words s).
Proof.
  assert (H : forall n s, List.length s <= n ->
              Forall (fun w => w <> [] /\ no_space w) (words s)).
  { clear s; induction n as [|n IH]; intros s Hn.
    - destruct s; [constructor | cbn in Hn; lia].
    - destruct s as [|c s]; [constructor|]. cbn [List.length] in Hn.
      destruct (is_space c) eqn:E.
      + rewrite words_space by exact E. apply IH; lia.
      + rewrite (word_prefix_split (c :: s)).
        assert (Hx : word_prefix (c :: s) <> [])
          by (cbn [word_prefix]; rewrite E; discriminate).
        rewrite words_word;
          auto using word_prefix_no_space, after_word_at_gap.
        constructor; [split; auto using word_prefix_no_space|].
        apply IH. cbn [after_word]. rewrite E.
        pose proof (after_word_length s). lia. }
  apply (H (List.length s)); lia.
Qed.

(** The words keep what holds of every character of the text. *)
Lemma split_ws_go_Forall (P : N -> Prop) (s : jsstring) :
  Forall P s ->
  forall acc skipping, Forall P acc ->
                       Forall (Forall P) (split_ws_go s acc skipping).
Proof.
  induction 1 as [|c s Hc _ IH]; intros acc skipping Hacc; cbn [split_ws_go].
  - repeat constructor. apply Forall_rev; assumption.
  - destruct (is_space c).
    + destruct skipping; [apply IH; assumption|].
      constructor; [apply Forall_rev; assumption | apply IH; constructor].
    + apply IH; constructor; assumption.
Qed.

Lemma words_Forall (P : N -> Prop) (s : jsstring) :
  Forall P s -> Forall (Forall P) (words s).
Proof.
  intros H. unfold words, split_ws.
  apply Forall_forall; intros w Hw. apply filter_In in Hw. destruct Hw as [Hw _].
  pose proof (split_ws_go_Forall H (acc := []) false (Forall_nil P)) as Hall.
  rewrite Forall_forall in Hall. apply Hall; assumption.
Qed.

Lemma join_Forall (P : N -> Prop) (sep : jsstring) (parts : list jsstring) :
  Forall P sep -> Forall (Forall P) parts -> Forall P (join sep parts).
Proof.
  intros Hsep. induction 1 as [|p parts Hp Hparts IH]; [constructor|].
  destruct parts as [|q parts]; [exact Hp|].
  change (join sep (p :: q :: parts)) with (p ++ sep ++ join sep (q :: parts)).
  repeat (apply Forall_app; split); assumption.
Qed.

Lemma join_nonempty (sep : jsstring) (p : jsstring) (parts : list jsstring) :
  p <> [] -> join sep (p :: parts) <> [].
Proof.
  intros Hp. destruct parts as [|q parts]; [exact Hp|].
  change (join sep (p :: q :: parts)) with (p ++ sep ++ join sep (q :: parts)).
  destruct p; [congruence | discriminate].
Qed.

(** The words of words joined by single spaces are those words. *)
Lemma words_join (ws : list jsstring) :
  Forall (fun w => w <> [] /\ no_space w) ws -> words (join [SP] ws) = ws.
Proof.
  induction 1 as [|w ws [Hne Hw] Hws IH]; [reflexivity|].
  destruct ws as [|w' ws].
  - cbn [join]. rewrite <- (app_nil_r w) at 1.
    rewrite words_word by (auto; exact I). reflexivity.
  - change (join [SP] (w :: w' :: ws)) with (w ++ SP :: join [SP] (w' :: ws)).
    rewrite words_word by (auto; reflexivity).
    rewrite words_space by reflexivity. rewrite IH. reflexivity.
Qed.

End WordFacts.

(** *** The global replacement of runs *)

Section RunFacts.

(** An expression of one class under [{m,}] matches the whole run of the
    class in front of it, provided the run has [m] characters. *)
Lemma match_single (cls : N -> bool) (m : nat) (s : jsstring) :
  match_here [at_least m cls] s
  = if Nat.ltb (run_length cls None s) m then None
    else Some [run_length cls None s].
Proof.
  cbn [match_here at_least a_class a_min a_max].
  destruct (run_length cls None s) as [|n]; reflexivity.
Qed.

Lemma replace_go_skip (re : regex) (t : template) (s : jsstring) :
  forall k, replace_go re t k s = replace_go re t 0 (skipn k s).
Proof.
  induction s as [|c s IH]; intros [|k]; cbn [replace_go skipn]; try reflexivity.
  apply IH.
Qed.

Lemma skipn_space_run (s : jsstring) :
  skipn (run_length is_space None s) s = trimStart s.
Proof.
  induction s as [|c s IH]; cbn [run_length trimStart skipn]; [reflexivity|].
  destruct (is_space c); [exact IH | reflexivity].
Qed.

Lemma collapse_nil : collapse [] = [].
Proof. reflexivity. Qed.

Lemma collapse_space (c : N) (s : jsstring) :
  is_space c = true -> collapse (c :: s) = SP :: collapse (trimStart s).
Proof.
  intros Hc. unfold collapse, replace_all, re_whitespace.
  cbn [replace_go r_atoms r_group]. rewrite match_single.
  cbn [run_length]. rewrite Hc. cbn [Nat.ltb Nat.leb total fold_right Nat.add].
  rewrite Nat.add_0_r.
  cbn [expand flat_map firstn total fold_right app].
  rewrite replace_go_skip, skipn_space_run. reflexivity.
Qed.

Lemma collapse_other (c : N) (s : jsstring) :
  is_space c = false -> collapse (c :: s) = c :: collapse s.
Proof.
  intros Hc. unfold collapse, replace_all, re_whitespace.
  cbn [replace_go r_atoms r_group]. rewrite match_single.
  cbn [run_length]. rewrite Hc. reflexivity.
Qed.

Lemma collapse_word (x : jsstring) :
  no_space x -> forall rest, collapse (x ++ rest) = x ++ collapse rest.
Proof.
  induction 1 as [|c x Hc _ IH]; intros rest; [reflexivity|].
  cbn [app]. rewrite collapse_other by exact Hc. rewrite IH. reflexivity.
Qed.

Lemma collapse_at_word (s : jsstring) : at_word s -> at_word (collapse s).
Proof.
  destruct s as [|c s]; [intros _; exact I|]. cbn [at_word]; intros Hc.
  rewrite collapse_other by exact Hc. exact Hc.
Qed.

(** A replacement never matches where the first character is outside the
    class of its first atom. *)
Lemma replace_all_outside_first_class (a : atom) (atoms : list atom) (g : nat)
    (t : template) (s : jsstring) :
  1 <= a_min a ->
  Forall (fun c => a_class a c = false) s ->
  replace_all (mkRegex (a :: atoms) g) t s = s.
Proof.
  intros Hmin Hs; unfold replace_all.
  apply replace_go_no_match; intros k; cbn [r_atoms].
  apply match_here_first_fails; [assumption|].
  apply run_length_outside.
  assert (Hk : Forall (fun c => a_class a c = false) (skipn k s)).
  { clear -Hs. revert s Hs; induction k as [|k IH]; intros s Hs; cbn [skipn]; auto.
    destruct Hs; [constructor | auto]. }
  destruct (skipn k s) as [|c r]; [exact I | inversion Hk; assumption].
Qed.

End RunFacts.

(** *** [trim] *)

Section TrimFacts.

Lemma trimStart_no_space (x : jsstring) : no_space x -> trimStart x = x.
Proof. destruct 1 as [|c x Hc _]; cbn [trimStart]; [|rewrite Hc]; reflexivity. Qed.

Lemma no_space_rev (x : jsstring) : no_space x -> no_space (rev x).
Proof. apply Forall_rev. Qed.

Lemma trimEnd_no_space (x : jsstring) : no_space x -> trimEnd x = x.
Proof.
  intros H. unfold trimEnd.
  rewrite (trimStart_no_space (no_space_rev H)). apply rev_involutive.
Qed.

Lemma trimEnd_nil_iff (s : jsstring) : trimEnd s = [] <-> all_space s.
Proof.
  unfold trimEnd. split.
  - intros H. assert (Hr : trimStart (rev s) = []).
    { rewrite <- (rev_involutive (trimStart (rev s))), H; reflexivity. }
    apply trimStart_nil_iff in Hr.
    rewrite <- (rev_involutive s). apply all_space_rev; assumption.
  - intros H. rewrite (trimStart_all_space (all_space_rev H)). reflexivity.
Qed.

Lemma trimEnd_app_kept (s t : jsstring) :
  trimEnd t <> [] -> trimEnd (s ++ t) = s ++ trimEnd t.
Proof.
  intros H. unfold trimEnd in *.
  rewrite rev_app_distr, trimStart_app_nonspace, rev_app_distr, rev_involutive.
  - reflexivity.
  - intros E; apply H; rewrite E; reflexivity.
Qed.

(** A word in front of a gap and a text that begins with a word. *)
Lemma trim_word_gap (x y : jsstring) :
  x <> [] -> no_space x -> at_word y ->
  trim (x ++ SP :: y)
  = match trim y with
    | [] => x
    | _ :: _ => x ++ SP :: trim y
    end.
Proof.
  intros Hne Hx Hy. unfold trim.
  assert (Hstart : trimStart (x ++ SP :: y) = x ++ SP :: y).
  { destruct Hx as [|c x Hc _]; [congruence|]. cbn [app trimStart]. rewrite Hc.
    reflexivity. }
  rewrite Hstart, (trimStart_of_at_word _ Hy).
  destruct (trimEnd y) as [|d r] eqn:E.
  - apply trimEnd_nil_iff in E.
    rewrite trimEnd_app_space by (constructor; [reflexivity | exact E]).
    apply trimEnd_no_space; assumption.
  - change (x ++ SP :: y) with (x ++ [SP] ++ y). rewrite app_assoc.
    rewrite trimEnd_app_kept by (rewrite E; discriminate).
    rewrite E, <- app_assoc. reflexivity.
Qed.

End TrimFacts.

(** The collapsed and trimmed text is the words of the text joined by
    single spaces. *)
Lemma trim_collapse_is_join_words (s : jsstring) :
  trim (collapse s) = join [SP] (words s).
Proof.
  assert (H : forall n s, List.length s <= n ->
              trim (collapse s) = join [SP] (words s)).
  { clear s; induction n as [|n IH]; intros s Hn.
    - destruct s; [reflexivity | cbn in Hn; lia].
    - destruct s as [|c s]; [reflexivity|]. cbn [List.length] in Hn.
      destruct (is_space c) eqn:E.
      + rewrite collapse_space, words_space by exact E.
        rewrite <- words_trimStart.
        rewrite <- IH by (pose proof (trimStart_length s); lia).
        unfold trim; cbn [trimStart]. reflexivity.
      + set (x := word_prefix (c :: s)). set (rest := after_word (c :: s)).
        assert (Hx : x <> []) by (subst x; cbn [word_prefix]; rewrite E; discriminate).
        assert (Hxs : no_space x) by apply word_prefix_no_space.
        assert (Hgap : at_gap rest) by apply after_word_at_gap.
        assert (Hlen : List.length rest <= n).
        { subst rest; cbn [after_word]; rewrite E.
          pose proof (after_word_length s); lia. }
        rewrite (word_prefix_split (c :: s)). fold x rest.
        rewrite collapse_word, words_word by assumption.
        destruct rest as [|d r].
        * rewrite collapse_nil, app_nil_r, words_nil. cbn [join].
          unfold trim. rewrite trimStart_no_space, trimEnd_no_space; auto.
        * cbn [at_gap] in Hgap.
          pose proof (IH (d :: r) Hlen) as Hrest.
          rewrite collapse_space in * by exact Hgap.
          assert (Hy : at_word (collapse (trimStart r)))
            by apply collapse_at_word, trimStart_at_word.
          rewrite trim_word_gap by assumption.
          assert (Hsame : trim (SP :: collapse (trimStart r))
                          = trim (collapse (trimStart r))) by reflexivity.
          rewrite Hsame in Hrest. rewrite Hrest.
          pose proof (words_are_words (d :: r)) as Hws.
          destruct (words (d :: r)) as [|w ws]; [reflexivity|].
          inversion Hws as [|? ? [Hw _] _]; subst.
          pose proof (join_nonempty [SP] ws Hw) as Hj.
          destruct (join [SP] (w :: ws)) as [|j js] eqn:Ej; [congruence|].
          change (join [SP] (x :: w :: ws)) with (x ++ [SP] ++ join [SP] (w :: ws)).
          rewrite Ej. reflexivity. }
  apply (H (List.length s)); lia.
Qed.

(** ** [preprocessText] on text without capitals *)

(** After the collapse every white space character is a single blank. *)
Lemma collapse_blanks (s : jsstring) :
  Forall (fun c => is_space c = true -> c = SP) (collapse s).
Proof.
  assert (H : forall n s, List.length s <= n ->
              Forall (fun c => is_space c = true -> c = SP) (collapse s)).
  { clear s; induction n as [|n IH]; intros s Hn.
    - destruct s; [constructor | cbn in Hn; lia].
    - destruct s as [|c s]; [constructor|]. cbn [List.length] in Hn.
      destruct (is_space c) eqn:E.
      + rewrite collapse_space by exact E. constructor; [reflexivity|].
        apply IH. pose proof (trimStart_length s); lia.
      + rewrite collapse_other by exact E. constructor; [congruence|].
        apply IH; lia. }
  apply (H (List.length s)); lia.
Qed.

Lemma replace_literal_Forall (P : N -> Prop) (re : regex) (w s : jsstring) :
  Forall P w -> Forall P s ->
  forall skip, Forall P (replace_go re [Lit w] skip s).
Proof.
  intros Hw Hs; induction Hs as [|c s Hc Hs IH]; intros skip; cbn [replace_go].
  - constructor.
  - destruct skip as [|k]; [|apply IH].
    destruct (match_here (r_atoms re) (c :: s)) as [counts|].
    + destruct (total counts) as [|n].
      * constructor; [assumption | apply IH].
      * apply Forall_app; split; [|apply IH].
        cbn [expand flat_map]. rewrite app_nil_r. exact Hw.
    + constructor; [assumption | apply IH].
Qed.

Lemma collapse_no_capitals (s : jsstring) : no_capitals s -> no_capitals (collapse s).
Proof.
  intros H. apply replace_literal_Forall; [repeat constructor | exact H].
Qed.

(** With the collapse of white space switched on, a text without
    capitals comes out as its words joined by single blanks. *)
Lemma preprocessText_lower (rawText : jsstring) (options : PreprocessingOptions) :
  no_capitals rawText ->
  normalizeWhitespace options <> Some false ->
  preprocessText rawText options = join [SP] (words rawText).
Proof.
  intros Hlow Hws. unfold preprocessText; cbv zeta.
  assert (Hon : with_default true (normalizeWhitespace options) = true).
  { destruct (normalizeWhitespace options) as [[|]|]; [reflexivity | congruence | reflexivity]. }
  rewrite Hon. fold (collapse rawText).
  pose proof (collapse_no_capitals Hlow) as Hc.
  assert (Hfield : forall t, replace_all re_field t (collapse rawText) = collapse rawText).
  { intros t. apply replace_all_outside_first_class; [cbn; lia | exact Hc]. }
  assert (Hheader : forall t, replace_all re_header t (collapse rawText) = collapse rawText).
  { intros t. apply replace_all_outside_first_class; [cbn; lia | exact Hc]. }
  assert (Hlines : forall t, replace_all re_newlines t (collapse rawText) = collapse rawText).
  { intros t. apply replace_all_outside_first_class; [cbn; lia|].
    eapply Forall_impl; [|apply collapse_blanks].
    cbn [at_least a_class]. intros c Hblank. unfold is_newline.
    destruct (N.eqb_spec c LF) as [->|]; [|reflexivity].
    specialize (Hblank eq_refl). discriminate Hblank. }
  destruct (with_default true (addFieldMarkers options)); rewrite ?Hfield;
    destruct (with_default true (addHeaderMarkers options)); rewrite ?Hheader;
    rewrite Hlines; apply trim_collapse_is_join_words.
Qed.

(** X22.  Text without capital letters is only re-spaced.  When the
    collapse of white space is not switched off and the text has no
    letter of the class [[A-ZÀ-Ÿ]], [preprocessText] returns the words of
    the text (as [split(/\s+/)] finds them), joined by single blanks; no
    marker is inserted, whatever the two marker options say. *)
Theorem lower_case_text_is_only_respaced :
  forall (rawText : jsstring) (options : PreprocessingOptions),
    no_capitals rawText ->
    normalizeWhitespace options <> Some false ->
    preprocessText rawText options = join [SP] (words rawText).
Proof. exact preprocessText_lower. Qed.

Lemma lower_case_text_is_only_respaced_witness :
  no_capitals ragged
  /\ preprocessText ragged no_options = js "hello world again".
Proof.
  assert (H : no_capitals ragged) by (repeat constructor).
  split; [exact H|].
  rewrite (@lower_case_text_is_only_respaced ragged no_options H
             ltac:(discriminate)).
  reflexivity.
Defined.

Lemma line_count_without_newline (s : jsstring) :
  Forall (fun c => N.eqb c LF = false) s ->
  forall acc, List.length (split_char_go LF s acc) = 1.
Proof.
  induction 1 as [|c s Hc _ IH]; intros acc; cbn [split_char_go]; [reflexivity|].
  rewrite Hc. apply IH.
Qed.

Lemma words_without_newline (s : jsstring) :
  Forall (fun c => N.eqb c LF = false) (join [SP] (words s)).
Proof.
  apply join_Forall; [repeat constructor|].
  eapply Forall_impl; [|apply words_are_words].
  intros w [_ Hw]. eapply Forall_impl; [|exact Hw].
  intros c Hc. destruct (N.eqb_spec c LF) as [->|]; [discriminate Hc | reflexivity].
Qed.

(** X23.  On text without capitals the statistics show the re-spacing
    only: the processed text has as many words as the original, and it
    is a single line. *)
Theorem lower_case_text_keeps_its_words :
  forall (rawText : jsstring) (options : PreprocessingOptions),
    no_capitals rawText ->
    normalizeWhitespace options <> Some false ->
    let stats :=
      getPreprocessingStats rawText (preprocessText rawText options) in
    processedWordCount stats = originalWordCount stats
    /\ processedLineCount stats = 1.
Proof.
  intros rawText options Hlow Hws stats; subst stats.
  rewrite preprocessText_lower by assumption.
  unfold getPreprocessingStats; cbn [processedWordCount originalWordCount
                                       processedLineCount].
  split.
  - change (List.length (words (join [SP] (words rawText)))
            = List.length (words rawText)).
    rewrite words_join by apply words_are_words. reflexivity.
  - apply line_count_without_newline, words_without_newline.
Qed.

Lemma lower_case_text_keeps_its_words_witness :
  no_capitals ragged
  /\ processedWordCount
       (getPreprocessingStats ragged (preprocessText ragged no_options)) = 3
  /\ originalLineCount
       (getPreprocessingStats ragged (preprocessText ragged no_options)) = 5.
Proof.
  assert (H : no_capitals ragged) by (repeat constructor).
  split; [exact H|].
  destruct (@lower_case_text_keeps_its_words ragged no_options H
              ltac:(discriminate)) as [Hwords _].
  split; [rewrite Hwords; reflexivity | reflexivity].
Defined.

(** X24.  On text without capitals [preprocessText] is idempotent:
    normalising its own result again changes nothing. *)
Theorem lower_case_text_is_normalised_once :
  forall (rawText : jsstring) (options : PreprocessingOptions),
    no_capitals rawText ->
    normalizeWhitespace options <> Some false ->
    preprocessText (preprocessText rawText options) options
    = preprocessText rawText options.
Proof.
  intros rawText options Hlow Hws.
  rewrite (@preprocessText_lower rawText options Hlow Hws).
  rewrite preprocessText_lower; [| | assumption].
  - rewrite words_join by apply words_are_words. reflexivity.
  - apply join_Forall; [repeat constructor | apply words_Forall; exact Hlow].
Qed.

Lemma lower_case_text_is_normalised_once_witness :
  no_capitals ragged
  /\ preprocessText (preprocessText ragged no_options) no_options
     = js "hello world again".
Proof.
  assert (H : no_capitals ragged) by (repeat constructor).
  split; [exact H|].
  rewrite (@lower_case_text_is_normalised_once ragged no_options H
             ltac:(discriminate)).
  reflexivity.
Defined.

(** ** [preprocessText]: the ends of the result *)

Lemma trimEnd_fixed (s : jsstring) : trimEnd (trimEnd s) = trimEnd s.
Proof. unfold trimEnd. rewrite rev_involutive, trimStart_fixed. reflexivity. Qed.

Lemma trimEnd_at_word (s : jsstring) : at_word s -> at_word (trimEnd s).
Proof.
  destruct s as [|c s]; [intros _; exact I|]. cbn [at_word]; intros Hc.
  change (c :: s) with ([c] ++ s).
  destruct (trimEnd s) as [|d r] eqn:E.
  - apply trimEnd_nil_iff in E. rewrite trimEnd_app_space by exact E.
    rewrite trimEnd_no_space by (repeat constructor; exact Hc). exact Hc.
  - rewrite trimEnd_app_kept by (rewrite E; discriminate). exact Hc.
Qed.

Lemma trim_at_word (s : jsstring) : at_word (trim s).
Proof. apply trimEnd_at_word, trimStart_at_word. Qed.

Lemma trim_ends_at_word (s : jsstring) : at_word (rev (trim s)).
Proof.
  unfold trim, trimEnd. rewrite rev_involutive. apply trimStart_at_word.
Qed.

Lemma trim_fixed (s : jsstring) : trim (trim s) = trim s.
Proof.
  unfold trim at 1. rewrite (trimStart_of_at_word _ (trim_at_word s)).
  unfold trim. apply trimEnd_fixed.
Qed.

(** X25.  The result of [preprocessText] never begins or ends with white
    space, for any text and any options; trimming it again changes
    nothing. *)
Theorem preprocessText_result_is_trimmed :
  forall (rawText : jsstring) (options : PreprocessingOptions),
    trim (preprocessText rawText options) = preprocessText rawText options
    /\ match preprocessText rawText options with
       | [] => True
       | c :: _ => is_space c = false
       end
    /\ match rev (preprocessText rawText options) with
       | [] => True
       | c :: _ => is_space c = false
       end.
Proof.
  intros rawText options. unfold preprocessText; cbv zeta.
  split; [apply trim_fixed | split; [apply trim_at_word | apply trim_ends_at_word]].
Qed.

(** ** [preprocessText]: blank lines *)

Section NewlineFacts.

Lemma newline_run_cons (c : N) (s : jsstring) :
  newline_run (c :: s) = if is_newline c then S (newline_run s) else 0.
Proof. reflexivity. Qed.

Lemma squeeze_short (c : N) (s : jsstring) :
  newline_run (c :: s) < 3 -> squeeze (c :: s) = c :: squeeze s.
Proof.
  intros H. unfold squeeze, replace_all, re_newlines.
  cbn [replace_go r_atoms r_group]. rewrite match_single.
  fold (newline_run (c :: s)).
  destruct (Nat.ltb_spec (newline_run (c :: s)) 3); [reflexivity | lia].
Qed.

Lemma squeeze_long (c : N) (s : jsstring) :
  3 <= newline_run (c :: s) ->
  squeeze (c :: s) = LF :: LF :: squeeze (skipn (newline_run (c :: s)) (c :: s)).
Proof.
  intros H. unfold squeeze, replace_all, re_newlines.
  cbn [replace_go r_atoms r_group]. rewrite match_single.
  fold (newline_run (c :: s)).
  destruct (Nat.ltb_spec (newline_run (c :: s)) 3); [lia|].
  cbn [total fold_right]. rewrite Nat.add_0_r.
  destruct (newline_run (c :: s)) as [|n]; [lia|].
  cbn [expand flat_map app skipn]. rewrite replace_go_skip. reflexivity.
Qed.

Lemma run_after_run (s : jsstring) :
  newline_run (skipn (newline_run s) s) = 0.
Proof.
  induction s as [|c s IH]; [reflexivity|].
  rewrite newline_run_cons. destruct (is_newline c) eqn:E.
  - cbn [skipn]. exact IH.
  - cbn [skipn]. rewrite newline_run_cons, E. reflexivity.
Qed.

Lemma skipn_length_le (k : nat) (s : jsstring) :
  List.length (skipn k s) <= List.length s.
Proof. rewrite length_skipn; lia. Qed.

Lemma squeeze_runs (n : nat) :
  forall s, List.length s <= n ->
            no_triple (squeeze s)
            /\ (newline_run s <= 2 -> newline_run (squeeze s) = newline_run s).
Proof.
  induction n as [|n IH]; intros s Hn.
  - destruct s; [|cbn in Hn; lia].
    split; [intros k; destruct k; cbn; lia | reflexivity].
  - destruct s as [|c s]; [split; [intros k; destruct k; cbn; lia | reflexivity]|].
    cbn [List.length] in Hn.
    destruct (Nat.lt_ge_cases (newline_run (c :: s)) 3) as [Hshort|Hlong].
    + rewrite squeeze_short by exact Hshort.
      destruct (IH s ltac:(lia)) as [Hno Hsame].
      assert (Hhead : newline_run (c :: squeeze s) = newline_run (c :: s)).
      { rewrite !newline_run_cons in *. destruct (is_newline c); [|reflexivity].
        rewrite Hsame by lia. reflexivity. }
      split; [|intros _; exact Hhead].
      intros [|k]; cbn [skipn]; [rewrite Hhead; lia | apply Hno].
    + rewrite squeeze_long by exact Hlong.
      set (rest := skipn (newline_run (c :: s)) (c :: s)).
      assert (Hrest : List.length rest <= n).
      { subst rest. destruct (newline_run (c :: s)) as [|m]; [lia|].
        cbn [skipn]. pose proof (skipn_length_le m s). lia. }
      destruct (IH rest Hrest) as [Hno Hsame].
      assert (Hzero : newline_run (squeeze rest) = 0).
      { rewrite Hsame; subst rest; rewrite run_after_run; lia. }
      split; [|lia].
      intros [|[|k]]; cbn [skipn].
      * rewrite !newline_run_cons. change (is_newline LF) with true.
        cbv iota. rewrite Hzero. lia.
      * rewrite newline_run_cons. change (is_newline LF) with true.
        cbv iota. rewrite Hzero. lia.
      * apply Hno.
Qed.

Lemma squeeze_no_triple (s : jsstring) : no_triple (squeeze s).
Proof. apply (squeeze_runs (n := List.length s)); lia. Qed.

Lemma run_length_app_le (cls : N -> bool) (a b : jsstring) :
  run_length cls None a <= run_length cls None (a ++ b).
Proof.
  induction a as [|c a IH]; cbn [run_length app]; [lia|].
  destruct (cls c); lia.
Qed.

Lemma no_triple_prefix (a b : jsstring) : no_triple (a ++ b) -> no_triple a.
Proof.
  intros H k. specialize (H k).
  destruct (Nat.le_gt_cases k (List.length a)) as [Hk|Hk].
  - rewrite skipn_app in H. replace (k - List.length a) with 0 in H by lia.
    cbn [skipn] in H.
    pose proof (run_length_app_le is_newline (skipn k a) b). unfold newline_run in *. lia.
  - rewrite skipn_all2 by lia. cbn; lia.
Qed.

Lemma no_triple_suffix (a b : jsstring) : no_triple (a ++ b) -> no_triple b.
Proof.
  intros H k. specialize (H (List.length a + k)).
  rewrite skipn_app in H.
  rewrite skipn_all2 in H by lia.
  replace (List.length a + k - List.length a) with k in H by lia.
  exact H.
Qed.

Lemma trimStart_is_suffix (s : jsstring) : exists w, s = w ++ trimStart s.
Proof.
  induction s as [|c s [w IH]]; [exists []; reflexivity|].
  cbn [trimStart]. destruct (is_space c).
  - exists (c :: w). cbn [app]. f_equal. exact IH.
  - exists []. reflexivity.
Qed.

Lemma trimEnd_is_prefix (s : jsstring) : exists w, s = trimEnd s ++ w.
Proof.
  unfold trimEnd. destruct (trimStart_is_suffix (rev s)) as [w Hw].
  exists (rev w). rewrite <- rev_app_distr, <- Hw, rev_involutive. reflexivity.
Qed.

Lemma no_triple_trim (s : jsstring) : no_triple s -> no_triple (trim s).
Proof.
  intros H. unfold trim.
  destruct (trimStart_is_suffix s) as [w Hw]. rewrite Hw in H.
  apply no_triple_suffix in H.
  destruct (trimEnd_is_prefix (trimStart s)) as [w' Hw']. rewrite Hw' in H.
  apply no_triple_prefix in H. exact H.
Qed.

Lemma no_triple_includes (s : jsstring) :
  no_triple s -> includes s [LF; LF; LF] = false.
Proof.
  induction s as [|c s IH]; intros H; [reflexivity|].
  cbn [includes]. rewrite IH; [|intros k; exact (H (S k))].
  rewrite orb_false_r.
  pose proof (H 0) as H0. cbn [skipn] in H0.
  destruct s as [|c2 [|c3 s]]; cbn [is_prefix]; rewrite ?andb_false_r; try reflexivity.
  apply not_true_is_false; intros E.
  rewrite !andb_true_iff, !N.eqb_eq in E. destruct E as (<- & <- & <- & _).
  cbn in H0; lia.
Qed.

End NewlineFacts.

(** X26.  Never more than one blank line: the result of [preprocessText]
    contains no three newlines in a row, for any text and any options. *)
Theorem preprocessText_leaves_no_triple_newline :
  forall (rawText : jsstring) (options : PreprocessingOptions),
    includes (preprocessText rawText options) [LF; LF; LF] = false.
Proof.
  intros rawText options. unfold preprocessText; cbv zeta.
  apply no_triple_includes, no_triple_trim.
  match goal with
  | |- no_triple (replace_all re_newlines _ ?s) => apply (squeeze_no_triple s)
  end.
Qed.

(** ** What a match is made of *)

Section MatchFacts.

Lemma run_length_bound (cls : N -> bool) (s : jsstring) :
  forall max,
    run_length cls max s <= List.length s
    /\ match max with Some m => run_length cls max s <= m | None => True end.
Proof.
  induction s as [|c s IH]; intros max; cbn [run_length List.length].
  - split; [lia | destruct max; [lia | exact I]].
  - destruct (cls c); [|split; [lia | destruct max; [lia | exact I]]].
    destruct max as [[|m]|].
    + split; lia.
    + destruct (IH (Some m)) as [H1 H2]. split; lia.
    + destruct (IH None) as [H1 _]. split; [lia | exact I].
Qed.

Lemma run_length_firstn (cls : N -> bool) (s : jsstring) :
  forall max k, k <= run_length cls max s -> forallb cls (firstn k s) = true.
Proof.
  induction s as [|c s IH]; intros max k Hk; cbn [run_length] in Hk.
  - replace k with 0 by lia. reflexivity.
  - destruct k as [|k]; [reflexivity|]. cbn [firstn forallb].
    destruct (cls c) eqn:E; [|lia]. cbn [andb].
    destruct max as [[|m]|]; [lia | apply (IH (Some m)); lia | apply (IH None); lia].
Qed.

(** The backtracking of one atom ends on a number of characters between
    its minimum and the run it started from. *)
Lemma try_sound (a : atom) (atoms : list atom) (s : jsstring) :
  forall k counts,
    (fix try (k : nat) : option (list nat) :=
       if Nat.ltb k (a_min a) then None
       else
         match match_here atoms (skipn k s) with
         | Some counts => Some (k :: counts)
         | None => match k with
                   | O => None
                   | S k' => try k'
                   end
         end) k = Some counts ->
    exists k0 counts',
      counts = k0 :: counts' /\ k0 <= k /\ a_min a <= k0
      /\ match_here atoms (skipn k0 s) = Some counts'.
Proof.
  induction k as [|k IH]; intros counts H.
  - destruct (Nat.ltb_spec 0 (a_min a)); [discriminate|].
    destruct (match_here atoms (skipn 0 s)) as [cs|] eqn:E; [|discriminate].
    injection H as <-. exists 0, cs. repeat split; auto.
  - destruct (Nat.ltb_spec (S k) (a_min a)); [discriminate|].
    destruct (match_here atoms (skipn (S k) s)) as [cs|] eqn:E.
    + injection H as <-. exists (S k), cs. repeat split; auto.
    + destruct (IH counts H) as (k0 & cs & -> & Hk & Hmin & Hrest).
      exists k0, cs. repeat split; auto.
Qed.

(** Every atom of a match took a piece that fits it. *)
Lemma match_here_sound (atoms : list atom) :
  forall s counts,
    match_here atoms s = Some counts ->
    Forall2 fits atoms (segments counts s).
Proof.
  induction atoms as [|a atoms IH]; intros s counts H.
  - injection H as <-. constructor.
  - cbn [match_here] in H.
    apply try_sound in H. destruct H as (k0 & cs & -> & Hk & Hmin & Hrest).
    cbn [segments]. constructor; [|apply IH; exact Hrest].
    destruct (run_length_bound (a_class a) s (a_max a)) as [Hlen Hmax].
    assert (Hpiece : List.length (firstn k0 s) = k0) by (rewrite length_firstn; lia).
    unfold fits. rewrite Hpiece.
    split; [apply (run_length_firstn _ _ (a_max a)); exact Hk|].
    split; [exact Hmin|]. destruct (a_max a); [lia | exact I].
Qed.

Lemma firstn_plus (A : Type) (a b : nat) (l : list A) :
  firstn (a + b) l = firstn a l ++ firstn b (skipn a l).
Proof.
  revert l; induction a as [|a IH]; intros l; [reflexivity|].
  destruct l as [|x l]; cbn [Nat.add firstn skipn app].
  - rewrite firstn_nil. reflexivity.
  - f_equal. apply IH.
Qed.

End MatchFacts.

(** ** [preprocessText] keeps the ink *)

Section InkFacts.

Lemma ink_app (a b : jsstring) : ink (a ++ b) = ink a ++ ink b.
Proof. apply filter_app. Qed.

Lemma ink_all_space (s : jsstring) : forallb is_space s = true -> ink s = [].
Proof.
  induction s as [|c s IH]; cbn [forallb ink filter]; [reflexivity|].
  rewrite andb_true_iff; intros [-> H]. cbn [negb]. apply IH, H.
Qed.

(** A global replacement keeps the ink when each replacement does. *)
Lemma replace_go_keeps_ink (re : regex) (t : template) :
  (forall s counts,
      match_here (r_atoms re) s = Some counts ->
      ink (expand t (firstn (total (firstn (r_group re) counts)) s))
      = ink (firstn (total counts) s)) ->
  forall s skip, ink (replace_go re t skip s) = ink (skipn skip s).
Proof.
  intros Hmatch. induction s as [|c s IH]; intros skip.
  - destruct skip; reflexivity.
  - cbn [replace_go]. destruct skip as [|k]; [|apply IH].
    cbn [skipn].
    destruct (match_here (r_atoms re) (c :: s)) as [counts|] eqn:E.
    + destruct (total counts) as [|n] eqn:Et.
      * rewrite (ink_app [c] (replace_go re t 0 s) : ink (c :: _) = _), IH.
        symmetry. exact (ink_app [c] s).
      * rewrite ink_app, IH, (Hmatch _ _ E), Et.
        rewrite <- ink_app. cbn [firstn skipn app]. rewrite firstn_skipn. reflexivity.
    + rewrite (ink_app [c] (replace_go re t 0 s) : ink (c :: _) = _), IH.
      symmetry. exact (ink_app [c] s).
Qed.

Lemma replace_all_keeps_ink (re : regex) (t : template) (s : jsstring) :
  (forall s counts,
      match_here (r_atoms re) s = Some counts ->
      ink (expand t (firstn (total (firstn (r_group re) counts)) s))
      = ink (firstn (total counts) s)) ->
  ink (replace_all re t s) = ink s.
Proof.
  intros H. unfold replace_all. rewrite (replace_go_keeps_ink re t H s 0). reflexivity.
Qed.

Lemma ink_trimStart (s : jsstring) : ink (trimStart s) = ink s.
Proof.
  induction s as [|c s IH]; cbn [trimStart]; [reflexivity|].
  destruct (is_space c) eqn:E; [|reflexivity].
  cbn [ink filter]. rewrite E. exact IH.
Qed.

Lemma ink_rev (s : jsstring) : ink (rev s) = rev (ink s).
Proof.
  induction s as [|c s IH]; [reflexivity|].
  cbn [rev]. rewrite ink_app, IH. cbn [ink filter].
  destruct (negb (is_space c)); cbn [rev app]; [reflexivity | apply app_nil_r].
Qed.

Lemma ink_trim (s : jsstring) : ink (trim s) = ink s.
Proof.
  unfold trim, trimEnd.
  rewrite ink_rev, ink_trimStart, ink_rev, rev_involutive, ink_trimStart.
  reflexivity.
Qed.

Lemma newline_is_space (s : jsstring) :
  forallb is_newline s = true -> forallb is_space s = true.
Proof.
  induction s as [|c s IH]; cbn [forallb]; [reflexivity|].
  rewrite !andb_true_iff; intros [Hc H]. split; [|apply IH, H].
  unfold is_newline in Hc. apply N.eqb_eq in Hc; subst c. reflexivity.
Qed.

Lemma whitespace_keeps_ink (s : jsstring) :
  ink (replace_all re_whitespace [Lit [SP]] s) = ink s.
Proof.
  apply replace_all_keeps_ink. clear s; intros s counts H.
  pose proof (match_here_sound _ _ H) as Hfit.
  destruct counts as [|k [|k2 counts]]; inversion Hfit as [|a p ? ? [Hcls _] Hrest];
    subst; inversion Hrest; subst.
  cbn [re_whitespace r_group firstn total fold_right expand flat_map app].
  rewrite Nat.add_0_r, (ink_all_space (firstn k s)) by exact Hcls.
  reflexivity.
Qed.

Lemma newlines_keep_ink (s : jsstring) :
  ink (replace_all re_newlines [Lit [LF; LF]] s) = ink s.
Proof.
  apply replace_all_keeps_ink. clear s; intros s counts H.
  pose proof (match_here_sound _ _ H) as Hfit.
  destruct counts as [|k [|k2 counts]]; inversion Hfit as [|a p ? ? [Hcls _] Hrest];
    subst; inversion Hrest; subst.
  cbn [re_newlines r_group firstn total fold_right expand flat_map app].
  rewrite Nat.add_0_r.
  rewrite (ink_all_space (firstn k s)) by (apply newline_is_space; exact Hcls).
  reflexivity.
Qed.

Lemma header_keeps_ink (s : jsstring) :
  ink (replace_all re_header [Lit [LF; LF]; Group1] s) = ink s.
Proof.
  apply replace_all_keeps_ink. clear s; intros s counts H.
  pose proof (match_here_sound _ _ H) as Hfit.
  cbn [re_header r_atoms] in Hfit.
  destruct counts as [|k1 [|k2 [|k3 [|k4 counts]]]];
    inversion Hfit as [|? ? ? ? _ Hfit2]; subst;
    inversion Hfit2 as [|? ? ? ? _ Hfit3]; subst;
    inversion Hfit3 as [|? ? ? ? _ Hfit4]; subst;
    inversion Hfit4; subst.
  cbn [re_header r_group firstn expand flat_map].
  rewrite app_nil_r. change ([LF; LF] ++ ?x) with ([LF; LF] ++ x).
  rewrite ink_app. reflexivity.
Qed.

Lemma field_keeps_ink (s : jsstring) :
  ink (replace_all re_field [Lit [LF]; Group1; Lit [COLON]] s) = ink s.
Proof.
  apply replace_all_keeps_ink. clear s; intros s counts H.
  pose proof (match_here_sound _ _ H) as Hfit.
  cbn [re_field r_atoms] in Hfit.
  destruct counts as [|k1 [|k2 [|k3 [|k4 [|k5 counts]]]]];
    inversion Hfit as [|? ? ? ? _ Hfit2]; subst;
    inversion Hfit2 as [|? ? ? ? _ Hfit3]; subst;
    inversion Hfit3 as [|? ? ? ? [Hgap _] Hfit4]; subst;
    inversion Hfit4 as [|? ? ? ? (Hcolon & Hmin & Hmax) Hfit5]; subst;
    inversion Hfit5; subst.
  cbn [re_field r_group firstn expand flat_map total fold_right at_least one
       a_class a_min a_max] in *.
  rewrite !Nat.add_0_r, app_nil_r.
  set (lead := firstn (k1 + k2) s).
  set (gap := firstn k3 (skipn k2 (skipn k1 s))) in *.
  set (mark := firstn k4 (skipn k3 (skipn k2 (skipn k1 s)))) in *.
  assert (Hsplit : firstn (k1 + (k2 + (k3 + k4))) s = lead ++ gap ++ mark).
  { replace (k1 + (k2 + (k3 + k4))) with ((k1 + k2) + (k3 + k4)) by lia.
    rewrite (firstn_plus (k1 + k2) (k3 + k4) s), (firstn_plus k3 k4).
    unfold lead, gap, mark. rewrite !skipn_skipn.
    replace (k2 + k1) with (k1 + k2) by lia.
    reflexivity. }
  rewrite Hsplit, !ink_app, (ink_all_space gap Hgap).
  change (ink [LF]) with (@nil N). cbn [app]. f_equal.
  destruct mark as [|c [|c2 r]]; cbn [List.length] in Hmin, Hmax; try lia.
  cbn [forallb] in Hcolon. rewrite andb_true_r in Hcolon.
  unfold is_colon in Hcolon. apply N.eqb_eq in Hcolon. subst c. reflexivity.
Qed.

End InkFacts.

(** X27.  [preprocessText] only ever touches white space: the characters
    of the result that are not white space are the characters of the text
    that are not white space, in the same order, for any text and any
    options.  No letter, digit or punctuation mark is added, dropped or
    changed. *)
Theorem preprocessText_keeps_the_ink :
  forall (rawText : jsstring) (options : PreprocessingOptions),
    ink (preprocessText rawText options) = ink rawText.
Proof.
  intros rawText options. unfold preprocessText; cbv zeta.
  rewrite ink_trim, newlines_keep_ink.
  destruct (with_default true (addHeaderMarkers options));
    rewrite ?header_keeps_ink;
    destruct (with_default true (addFieldMarkers options));
    rewrite ?field_keeps_ink;
    destruct (with_default true (normalizeWhitespace options));
    rewrite ?whitespace_keeps_ink; reflexivity.
Qed.

(** ** Submitting a selection again *)

Lemma extractText_names (file : File) (env : Env) (doc : ExtractedDocument) :
  result (extractText file env) = Returned doc ->
  fileName doc = f_name file /\ fileType doc = f_type file.
Proof.
  unfold extractText.
  destruct (extract_by_type file env) as [t1 [text|e]].
  - destruct (tokenize_step_returns file env (preprocessText text no_options))
      as (t2 & data & Hstep).
    unfold progress, emit; cbn [bind try_catch ret app].
    rewrite Hstep; cbn [bind try_catch ret app result snd].
    intros H; injection H as <-. split; reflexivity.
  - unfold progress, emit; cbn [bind try_catch raise app result snd].
    discriminate.
Qed.

Lemma find_processed_app (docs more : list ExtractedDocument) (f : UploadedFile) :
  find_processed (docs ++ more) f
  = match find_processed docs f with
    | Some doc => Some doc
    | None => find_processed more f
    end.
Proof.
  unfold find_processed. induction docs as [|d docs IH]; [reflexivity|].
  cbn [app find]. destruct (_ && _); [reflexivity | exact IH].
Qed.

Lemma find_processed_head (doc : ExtractedDocument) (docs : list ExtractedDocument)
    (f : UploadedFile) :
  document_of f doc = true -> find_processed (doc :: docs) f <> None.
Proof.
  unfold find_processed, document_of. cbn [find]. intros ->. discriminate.
Qed.

Lemma find_processed_later (doc : ExtractedDocument) (docs : list ExtractedDocument)
    (f : UploadedFile) :
  find_processed docs f <> None -> find_processed (doc :: docs) f <> None.
Proof.
  intros H. change (doc :: docs) with ([doc] ++ docs).
  rewrite find_processed_app. destruct (find_processed [doc] f); [discriminate | exact H].
Qed.

Lemma found_is_document_of (docs : list ExtractedDocument) (f : UploadedFile)
    (doc : ExtractedDocument) :
  find_processed docs f = Some doc -> document_of f doc = true.
Proof. intros H. apply (find_some _ _ H). Qed.

(** A batch yields at most one document per file, and when it yields one
    for every file, each file has a document of its name and type. *)
Lemma process_loop_documents (previous : list ExtractedDocument)
    (world : nat -> Env) (files : list UploadedFile) :
  Forall as_selected files ->
  forall index,
    List.length (snd (process_loop previous world index files []))
    <= List.length files
    /\ (List.length (snd (process_loop previous world index files []))
        = List.length files ->
        forall f, In f files ->
          find_processed (snd (process_loop previous world index files [])) f
          <> None).
Proof.
  induction files as [|g files IH]; intros Hsel index.
  - split; [apply Nat.le_refl | intros _ f []].
  - inversion Hsel as [|? ? [Hname Htype] Hsel']; subst.
    specialize (IH Hsel' (S index)). destruct IH as [Hle Hall].
    cbn [process_loop].
    destruct (find_processed previous g) as [doc|] eqn:Hdoc.
    + rewrite process_loop_accumulates; cbn [snd app List.length].
      split; [lia|]. intros Hlen f [<- | Hf].
      * apply find_processed_head, (found_is_document_of _ _ Hdoc).
      * apply find_processed_later, Hall; [lia | exact Hf].
    + pose proof (extractText_names (uf_file g) (world index)) as Hnames.
      destruct (extractText (uf_file g) (world index)) as [t [doc|e]].
      * rewrite process_loop_accumulates; cbn [snd app List.length].
        split; [lia|]. intros Hlen f [<- | Hf].
        -- apply find_processed_head. unfold document_of.
           destruct (Hnames doc eq_refl) as [-> ->].
           rewrite Hname, Htype, !js_eqb_refl. reflexivity.
        -- apply find_processed_later, Hall; [lia | exact Hf].
      * destruct (process_loop previous world (S index) files []) as [t' docs].
        cbn [snd List.length] in *. split; [lia | intros Hlen; lia].
Qed.

(** X28.  What has been processed is not extracted again.  After a batch
    in which every file of the selection yielded a document, removing a
    file from the selection submits the remaining files, and that run
    emits nothing, so it reads no file and sends no request, and it keeps
    one document for each remaining file. *)
Theorem removing_a_file_extracts_nothing :
  forall (state : State) (world world' : nat -> Env)
         (files : list UploadedFile) (errors : list jsstring) (fileId : jsstring),
    Forall as_selected files ->
    List.length (extractedDocuments (snd (processDocuments state world files)))
    = List.length files ->
    let done := snd (processDocuments state world files) in
    let remaining := snd (removeFile (mkUpload files errors) fileId) in
    fst (processDocuments done world' remaining) = []
    /\ List.length (extractedDocuments (snd (processDocuments done world' remaining)))
       = List.length remaining
    /\ (forall f, In f remaining -> In f files).
Proof.
  intros state world world' files errors fileId Hsel Hlen done remaining.
  assert (Hsub : forall f, In f remaining -> In f files).
  { intros f Hf. unfold remaining, removeFile in Hf; cbn [snd uploadedFiles] in Hf.
    apply filter_In in Hf. exact (proj1 Hf). }
  assert (Hknown : forall f, In f remaining ->
            find_processed (extractedDocuments done) f <> None).
  { intros f Hf. apply Hsub in Hf. unfold done in *. clear done.
    unfold processDocuments in *. destruct files as [|g files]; [destruct Hf|].
    pose proof (process_loop_documents (extractedDocuments state) world Hsel 0)
      as [_ Hall].
    destruct (process_loop (extractedDocuments state) world 0 (g :: files) [])
      as [t docs]. cbn [snd extractedDocuments] in *. apply Hall; assumption. }
  split; [|split; [|exact Hsub]].
  - unfold processDocuments. destruct remaining as [|g rest] eqn:E; [reflexivity|].
    pose proof (@process_loop_all_known (extractedDocuments done) world' (g :: rest) Hknown 0)
      as [Ht _].
    destruct (process_loop (extractedDocuments done) world' 0 (g :: rest) [])
      as [t docs]. exact Ht.
  - unfold processDocuments. destruct remaining as [|g rest] eqn:E; [reflexivity|].
    pose proof (@process_loop_all_known (extractedDocuments done) world' (g :: rest) Hknown 0)
      as [_ Hdocs].
    destruct (process_loop (extractedDocuments done) world' 0 (g :: rest) [])
      as [t docs]. cbn [snd extractedDocuments] in *.
    rewrite <- (length_map Some docs), Hdocs, length_map. reflexivity.
Qed.

Lemma removing_a_file_extracts_nothing_witness :
  Forall as_selected [upload notes_txt; upload report_pdf]
  /\ List.length
       (extractedDocuments
          (snd (processDocuments initial_state offline_world
                  [upload notes_txt; upload report_pdf]))) = 2
  /\ snd (removeFile (mkUpload [upload notes_txt; upload report_pdf] [])
            (js "notes.txt-0-0")) = [upload report_pdf]
  /\ fst (processDocuments
            (snd (processDocuments initial_state offline_world
                    [upload notes_txt; upload report_pdf]))
            offline_world [upload report_pdf]) = [].
Proof.
  assert (Hsel : Forall as_selected [upload notes_txt; upload report_pdf]).
  { repeat constructor. }
  assert (Hlen : List.length
            (extractedDocuments
               (snd (processDocuments initial_state offline_world
                       [upload notes_txt; upload report_pdf])))
          = List.length [upload notes_txt; upload report_pdf]).
  { vm_compute. reflexivity. }
  split; [exact Hsel | split; [exact Hlen | split; [vm_compute; reflexivity|]]].
  exact (proj1 (@removing_a_file_extracts_nothing initial_state offline_world
                  offline_world [upload notes_txt; upload report_pdf] []
                  (js "notes.txt-0-0") Hsel Hlen)).
Defined.

(** ** The course of the progress bar *)

Section ClimbFacts.

Lemma climbs_bounds (l : list Q) :
  forall lo hi, climbs lo hi l -> (lo <= hi)%Q.
Proof.
  induction l as [|p l IH]; intros lo hi H; [exact H|].
  destruct H as [Hp Hl]. apply Qle_trans with p; [exact Hp | apply IH, Hl].
Qed.

Lemma climbs_lower (lo lo' hi : Q) (l : list Q) :
  (lo' <= lo)%Q -> climbs lo hi l -> climbs lo' hi l.
Proof.
  intros Hlo. destruct l as [|p l]; cbn [climbs].
  - intros H. apply Qle_trans with lo; assumption.
  - intros [Hp Hl]. split; [apply Qle_trans with lo; assumption | exact Hl].
Qed.

Lemma climbs_upper (hi hi' : Q) (l : list Q) :
  (hi <= hi')%Q -> forall lo, climbs lo hi l -> climbs lo hi' l.
Proof.
  intros Hhi. induction l as [|p l IH]; intros lo; cbn [climbs].
  - intros H. apply Qle_trans with hi; assumption.
  - intros [Hp Hl]. split; [exact Hp | apply IH, Hl].
Qed.

Lemma climbs_app (mid hi : Q) (l1 l2 : list Q) :
  climbs mid hi l2 -> forall lo, climbs lo mid l1 -> climbs lo hi (l1 ++ l2).
Proof.
  intros H2. induction l1 as [|p l1 IH]; intros lo; cbn [climbs app].
  - intros H. apply climbs_lower with mid; assumption.
  - intros [Hp Hl]. split; [exact Hp | apply IH, Hl].
Qed.

Lemma levels_app (t1 t2 : trace) : levels (t1 ++ t2) = levels t1 ++ levels t2.
Proof. unfold levels. rewrite statuses_app. apply map_app. Qed.

Context {A B : Type}.

Lemma events_of_bind (m : M A) (k : A -> M B) :
  events (bind m k)
  = events m ++ match result m with
                | Returned a => events (k a)
                | Raised _ => []
                end.
Proof.
  destruct m as [t [a|e]]; unfold bind; cbn [events result fst snd].
  - destruct (k a); reflexivity.
  - rewrite app_nil_r; reflexivity.
Qed.

Lemma events_of_try_catch (body : M A) (handler : thrown -> M A) :
  events (try_catch body handler)
  = events body ++ match result body with
                   | Returned _ => []
                   | Raised e => events (handler e)
                   end.
Proof.
  destruct body as [t [a|e]]; unfold try_catch; cbn [events result fst snd].
  - rewrite app_nil_r; reflexivity.
  - destruct (handler e); reflexivity.
Qed.

(** One step after the other. *)
Lemma climbs_bind (mid : Q) (m : M A) (k : A -> M B) (lo hi : Q) :
  climbs lo mid (levels (events m)) ->
  (mid <= hi)%Q ->
  (forall a, result m = Returned a -> climbs mid hi (levels (events (k a)))) ->
  climbs lo hi (levels (events (bind m k))).
Proof.
  intros Hm Hhi Hk. rewrite events_of_bind, levels_app.
  apply climbs_app with mid; [|exact Hm].
  destruct (result m) as [a|e]; [apply Hk; reflexivity | exact Hhi].
Qed.

(** A handler that reports nothing. *)
Lemma climbs_try_catch (body : M A) (handler : thrown -> M A) (lo hi : Q) :
  climbs lo hi (levels (events body)) ->
  (forall e, levels (events (handler e)) = []) ->
  climbs lo hi (levels (events (try_catch body handler))).
Proof.
  intros Hbody Hquiet. rewrite events_of_try_catch, levels_app.
  apply climbs_app with hi; [|exact Hbody].
  destruct (result body) as [a|e].
  - apply Qle_refl.
  - rewrite Hquiet. apply Qle_refl.
Qed.

End ClimbFacts.

Lemma climbs_progress (file : File) (status : StatusKind) (p : Q)
    (message : jsstring) (lo hi : Q) :
  (lo <= p)%Q -> (p <= hi)%Q ->
  climbs lo hi (levels (events (progress file status p message))).
Proof. intros Hlo Hhi. split; assumption. Qed.

Lemma climbs_await {A : Type} (e : event) (o : outcome A) (lo hi : Q) :
  statuses [e] = [] -> (lo <= hi)%Q ->
  climbs lo hi (levels (events (await e o))).
Proof.
  intros He H. unfold await, levels; cbn [events fst]. rewrite He. exact H.
Qed.

Lemma page_progress_grows (pageNum totalPages : nat) :
  (page_progress pageNum totalPages <= page_progress (S pageNum) totalPages)%Z.
Proof.
  unfold page_progress, Math_round.
  apply Z.add_le_mono_r, Qfloor_resp_le, Qplus_le_l.
  apply Qmult_le_compat_r; [|discriminate].
  unfold Qle; cbn [Qnum Qden]. apply Z.mul_le_mono_nonneg_r; lia.
Qed.

(** The page loop counts up from where it is, and stays at 90 or below. *)
Lemma pdf_pages_climb (file : File) (pdf : PdfDocument) (totalPages : nat) :
  forall (remaining pageNum : nat) (fullText : jsstring) (lo : Q),
    1 <= pageNum -> pageNum + remaining = totalPages + 1 ->
    (lo <= 90)%Q ->
    (0 < remaining -> (lo <= inject_Z (page_progress pageNum totalPages))%Q) ->
    climbs lo 90
      (levels (events (pdf_pages file pdf totalPages remaining pageNum fullText))).
Proof.
  induction remaining as [|remaining IH]; intros pageNum fullText lo H1 Hsum Hhi Hlo;
    cbn [pdf_pages].
  - exact Hhi.
  - assert (Hrange : 1 <= pageNum <= totalPages) by lia.
    destruct (page_progress_range Hrange) as [_ H90].
    assert (Hp : (inject_Z (page_progress pageNum totalPages) <= 90)%Q).
    { change 90%Q with (inject_Z 90). rewrite <- Zle_Qle. exact H90. }
    apply climbs_bind with (inject_Z (page_progress pageNum totalPages)).
    + apply climbs_progress; [apply Hlo; lia | apply Qle_refl].
    + exact Hp.
    + intros _ _.
      apply climbs_bind with (inject_Z (page_progress pageNum totalPages)).
      * apply climbs_await; [reflexivity | apply Qle_refl].
      * exact Hp.
      * intros items _. apply IH; [lia | lia | exact Hp |].
        intros _. rewrite <- Zle_Qle. apply page_progress_grows.
Qed.

Ltac level_step_as mid x :=
  apply climbs_bind with mid;
  [ first [ apply climbs_progress; apply Qle_bool_imp_le; reflexivity
          | apply climbs_await; [reflexivity | apply Qle_bool_imp_le; reflexivity] ]
  | apply Qle_bool_imp_le; reflexivity
  | intros x _ ].

Ltac level_step mid := let x := fresh "x" in level_step_as mid x.

Ltac quiet_handler :=
  apply climbs_try_catch; [| intros ?; reflexivity].

(** Each format adapter reports rising values between 10 and 90. *)
Lemma extract_by_type_climbs (file : File) (env : Env) :
  climbs 5 95 (levels (events (extract_by_type file env))).
Proof.
  unfold extract_by_type.
  destruct (js_eqb (f_type file) PDF_TYPE);
    [|destruct (js_eqb (f_type file) DOCX_TYPE);
      [|destruct (js_eqb (f_type file) DOC_TYPE);
        [|destruct (js_eqb (f_type file) TEXT_TYPE)]]];
    try (apply Qle_bool_imp_le; reflexivity).
  - unfold extractFromPDF. quiet_handler.
    level_step 10%Q. level_step 10%Q. level_step_as 10%Q pdf.
    apply climbs_bind with 90%Q.
    + apply pdf_pages_climb; [lia | lia | discriminate |].
      intros Hpages.
      assert (Hrange : 1 <= 1 <= numPages pdf) by lia.
      destruct (page_progress_range Hrange) as [H10 _].
      change 10%Q with (inject_Z 10). rewrite <- Zle_Qle. exact H10.
    + discriminate.
    + intros fullText _. apply Qle_bool_imp_le; reflexivity.
  - unfold extractFromDocx. quiet_handler.
    level_step 20%Q. level_step 20%Q. level_step 20%Q. level_step 60%Q.
    level_step_as 60%Q raw.
    apply climbs_bind with 60%Q.
    + destruct (Nat.ltb 0 (messages raw)); apply Qle_bool_imp_le; reflexivity.
    + discriminate.
    + intros _ _. apply Qle_bool_imp_le; reflexivity.
  - unfold extractFromText. quiet_handler.
    level_step 50%Q. level_step 50%Q. apply Qle_bool_imp_le; reflexivity.
Qed.

(** Whatever the observer makes of them, the milestones it is handed are
    a beginning of 10, 30, 70, 90, 100; and the requests do not depend on
    the observer. *)
Lemma tokenizeText_observed (make : Q -> jsstring -> ProcessingStatus)
    (g : Q -> Q) (this : TokenizationConfigType) (network : fetch_outcome)
    (now : Z) (text : jsstring) :
  (forall p message, ps_progress (make p message) = g p) ->
  (exists n,
     levels (events (tokenizeText this network now text (observer make)))
     = List.map g (firstn n [10; 30; 70; 90; 100]%Q))
  /\ requests (events (tokenizeText this network now text (observer make)))
     = match azureFunctionUrl this with
       | Some url =>
           if js_eqb (trim url) [] then []
           else [EvFetch url
                   (if truthy_str (apiKey this)
                    then option_map (fun k => js "Bearer " ++ k) (apiKey this)
                    else None)
                   text (modelName this)]
       | None => []
       end.
Proof.
  intros Hmake.
  destruct (configured_or_not this) as [(url & Hurl & Hconf & E) | Hnot].
  - unfold tokenizeText.
    rewrite Hurl, configured_url by (rewrite trim_nil_iff; assumption). cbv zeta.
    rewrite E.
    unfold observer, emit, await.
    set (authorization := if truthy_str (apiKey this) then _ else None).
    destruct network as [[status statusText rtext rjson]|e]; cbn [bind].
    2: { through_handler.
         cbn [events result fst snd app levels statuses flat_map List.map
                requests filter is_fetch].
         rewrite !Hmake. split; [exists 2; reflexivity | reflexivity]. }
    unfold ok; cbn [r_status r_text r_json r_statusText].
    destruct ((200 <=? status) && (status <=? 299))%N; cbn [negb bind ret raise].
    + destruct rjson as [body|e]; cbn [bind].
      * destruct body as [|b|q|str|items|fields]; cbn [get_prop own bind].
        6: destruct (lookup (js "tokens") fields) as [[|b|q|str|items|fs]|].
        all: cbn [isArray negb]; rewrite ?orb_true_r;
          cbn [truthy negb orb bind ret raise app].
        all: through_handler.
        all: cbn [events result fst snd app levels statuses flat_map List.map
                    requests filter is_fetch].
        all: rewrite !Hmake.
        all: split; [first [exists 4; reflexivity | exists 5; reflexivity]
                    | reflexivity].
      * through_handler.
        cbn [events result fst snd app levels statuses flat_map List.map
               requests filter is_fetch].
        rewrite !Hmake. split; [exists 3; reflexivity | reflexivity].
    + destruct rtext as [body|e]; cbn [bind raise app].
      all: through_handler.
      all: cbn [events result fst snd app levels statuses flat_map List.map
                  requests filter is_fetch].
      all: rewrite !Hmake.
      all: split; [exists 3; reflexivity | reflexivity].
  - assert (Hrun : tokenizeText this network now text (observer make)
                   = ([], Raised (new_Error MSG_NOT_CONFIGURED))).
    { apply not_configured_iff; [reflexivity|].
      destruct (azureFunctionUrl this); [apply Hnot | exact I]. }
    rewrite Hrun. split; [exists 0; reflexivity|].
    destruct (azureFunctionUrl this) as [url|]; [|reflexivity].
    destruct Hnot as [_ ->]. reflexivity.
Qed.

(** The tokenizer step reports rising values between 96 and 99. *)
Lemma tokenize_step_climbs (file : File) (env : Env) (text : jsstring) :
  climbs 96 99 (levels (events (tokenize_step file env text))).
Proof.
  unfold tokenize_step.
  destruct (tokenizeText_observed
              (fun p message =>
                 mkStatus (f_name file) Extracting (scaled p)
                   (js "Tokenization: " ++ message) None)
              scaled (tokenizer env) (network env) (now_tokenized env) text
              (fun _ _ => eq_refl)) as [[n Hn] _].
  change (observer _) with (tokenization_progress file) in Hn.
  destruct (tokenizeText _ _ _ _ _) as [t [data|e]];
    cbn [events fst] in Hn;
    unfold progress, emit;
    cbn [bind try_catch ret events fst app]; rewrite ?levels_app, Hn;
    do 6 (try destruct n as [|n]);
    cbn [firstn List.map app climbs levels statuses flat_map ps_progress];
    repeat split; apply Qle_bool_imp_le; reflexivity.
Qed.

Lemma statuses_but_last (t : trace) (st : ProcessingStatus) :
  removelast (statuses (t ++ [EvProgress st])) = statuses t
  /\ last (List.map Some (statuses (t ++ [EvProgress st]))) None = Some st.
Proof.
  rewrite statuses_app. cbn [statuses flat_map app]. fold (statuses t).
  split; [apply removelast_last | rewrite map_app; apply last_last].
Qed.

(** X29.  The progress bar never goes back before the end.  In every run
    of [extractText] the progress values of all statuses but the last
    start at 5, never decrease and stay at 99 or below, whatever the file
    type, the number of pages and the fate of the tokenizer; the last
    status alone is the terminal one, at 100 or, after a failure, at 0. *)
Theorem progress_climbs_until_the_last_status :
  forall (file : File) (env : Env),
    climbs 5 99
      (List.map ps_progress
         (removelast (statuses (events (extractText file env)))))
    /\ option_map ps_progress
         (last (List.map Some (statuses (events (extractText file env)))) None)
       = Some match result (extractText file env) with
              | Returned _ => 100%Q
              | Raised _ => 0%Q
              end.
Proof.
  intros file env. unfold extractText.
  pose proof (extract_by_type_climbs file env) as Hadapter.
  destruct (extract_by_type file env) as [t1 [text|e]]; cbn [events fst] in Hadapter.
  - pose proof (tokenize_step_climbs file env (preprocessText text no_options))
      as Htok.
    destruct (tokenize_step_returns file env (preprocessText text no_options))
      as (t2 & data & Hstep).
    rewrite Hstep in Htok; cbn [events fst] in Htok.
    unfold progress, emit; cbn [bind try_catch ret app].
    rewrite Hstep; cbn [bind try_catch ret app events result fst snd].
    match goal with
    | |- context [statuses (?a :: t1 ++ ?b :: ?c :: t2 ++ [EvProgress ?st])] =>
        replace (a :: t1 ++ b :: c :: t2 ++ [EvProgress st])
          with (([a] ++ t1 ++ [b; c] ++ t2) ++ [EvProgress st])
          by (cbn [app]; rewrite <- app_assoc; reflexivity);
        destruct (statuses_but_last ([a] ++ t1 ++ [b; c] ++ t2) st) as [-> ->]
    end.
    split; [|reflexivity].
    change (List.map ps_progress (statuses ?t)) with (levels t).
    rewrite !levels_app.
    apply climbs_app with 5%Q; [|split; apply Qle_refl].
    apply climbs_app with 95%Q; [|exact Hadapter].
    apply climbs_app with 96%Q; [exact Htok|].
    repeat split; apply Qle_bool_imp_le; reflexivity.
  - unfold progress, emit; cbn [bind try_catch raise app events result fst snd].
    match goal with
    | |- context [statuses (?a :: t1 ++ [EvProgress ?st])] =>
        change (a :: t1 ++ [EvProgress st]) with (([a] ++ t1) ++ [EvProgress st]);
        destruct (statuses_but_last ([a] ++ t1) st) as [-> ->]
    end.
    split; [|reflexivity].
    change (List.map ps_progress (statuses ?t)) with (levels t).
    rewrite levels_app.
    apply climbs_app with 5%Q; [|split; apply Qle_refl].
    apply climbs_upper with 95%Q; [apply Qle_bool_imp_le; reflexivity|].
    exact Hadapter.
Qed.

(** ** What the tokenizer is sent *)

Lemma requests_app (t1 t2 : trace) : requests (t1 ++ t2) = requests t1 ++ requests t2.
Proof. apply filter_app. Qed.

Lemma no_requests (t : trace) :
  Forall (fun e => is_fetch e = false) t -> requests t = [].
Proof.
  unfold requests; induction 1 as [|e t He _ IH]; cbn [filter];
    [reflexivity | rewrite He; exact IH].
Qed.

Lemma pdf_pages_sends_nothing (file : File) (pdf : PdfDocument) (totalPages : nat) :
  forall (remaining pageNum : nat) (fullText : jsstring),
    Forall (fun e => is_fetch e = false)
      (events (pdf_pages file pdf totalPages remaining pageNum fullText)).
Proof.
  induction remaining as [|remaining IH]; intros pageNum fullText;
    cbn [pdf_pages]; unfold progress.
  - apply Forall_ret.
  - through_trace; [reflexivity | reflexivity | apply IH].
Qed.

(** The format adapters send no request. *)
Lemma extract_by_type_sends_nothing (file : File) (env : Env) :
  requests (events (extract_by_type file env)) = [].
Proof.
  apply no_requests.
  unfold extract_by_type, extractFromPDF, extractFromDocx, extractFromText,
    progress.
  through_trace; try reflexivity. apply pdf_pages_sends_nothing.
Qed.

(** The tokenizer step sends what [tokenizeText] sends, and yields data
    only on a configured service. *)
Lemma tokenize_step_requests (file : File) (env : Env) (text : jsstring) :
  requests (events (tokenize_step file env text))
  = match azureFunctionUrl (tokenizer env) with
    | Some url =>
        if js_eqb (trim url) [] then []
        else [EvFetch url
                (if truthy_str (apiKey (tokenizer env))
                 then option_map (fun k => js "Bearer " ++ k)
                        (apiKey (tokenizer env))
                 else None)
                text (modelName (tokenizer env))]
    | None => []
    end
  /\ (forall data, result (tokenize_step file env text) = Returned (Some data) ->
        requests (events (tokenize_step file env text)) <> []).
Proof.
  destruct (tokenizeText_observed
              (fun p message =>
                 mkStatus (f_name file) Extracting (scaled p)
                   (js "Tokenization: " ++ message) None)
              scaled (tokenizer env) (network env) (now_tokenized env) text
              (fun _ _ => eq_refl)) as [_ Hsent].
  change (observer _) with (tokenization_progress file) in Hsent.
  assert (Hstep : requests (events (tokenize_step file env text))
                  = requests (events (tokenizeText (tokenizer env) (network env)
                                        (now_tokenized env) text
                                        (tokenization_progress file)))).
  { unfold tokenize_step.
    destruct (tokenizeText _ _ _ _ _) as [t [data|e]];
      unfold progress, emit; cbn [bind try_catch ret events fst app].
    - rewrite app_nil_r; reflexivity.
    - rewrite requests_app. cbn [requests filter is_fetch]. apply app_nil_r. }
  rewrite Hstep, Hsent. split; [reflexivity|].
  intros data Hdata Hnone.
  assert (Hnot : match azureFunctionUrl (tokenizer env) with
                 | None => True
                 | Some url => all_space url
                 end).
  { destruct (azureFunctionUrl (tokenizer env)) as [url|]; [|exact I].
    destruct (js_eqb (trim url) []) eqn:E; [|discriminate Hnone].
    apply trim_nil_iff, js_eqb_eq, E. }
  apply (not_configured_iff (tokenizer env) (network env) (now_tokenized env) text
           (tokenization_progress file)) in Hnot; [|reflexivity].
  unfold tokenize_step in Hdata. rewrite Hnot in Hdata. discriminate Hdata.
Qed.

(** X30.  The tokenizer is sent the preprocessed text, once.  In a run of
    [extractText] that returns a document, the preprocessed text of the
    document is [preprocessText] of its extracted text under the default
    options; the only request of the run is the one of the tokenizer, it
    carries that preprocessed text (never the raw text) and the configured
    model name, and it is sent exactly when the service is configured;
    and a document that has tokenized data came from such a request. *)
Theorem tokenizer_is_sent_the_preprocessed_text :
  forall (file : File) (env : Env) (doc : ExtractedDocument),
    result (extractText file env) = Returned doc ->
    preprocessedText doc = preprocessText (extractedText doc) no_options
    /\ requests (events (extractText file env))
       = match azureFunctionUrl (tokenizer env) with
         | Some url =>
             if js_eqb (trim url) [] then []
             else [EvFetch url
                     (if truthy_str (apiKey (tokenizer env))
                      then option_map (fun k => js "Bearer " ++ k)
                             (apiKey (tokenizer env))
                      else None)
                     (preprocessedText doc) (modelName (tokenizer env))]
         | None => []
         end
    /\ (tokenizedData doc <> None ->
        List.length (requests (events (extractText file env))) = 1).
Proof.
  intros file env doc. unfold extractText.
  pose proof (extract_by_type_sends_nothing file env) as Hquiet.
  destruct (extract_by_type file env) as [t1 [text|e]]; cbn [events fst] in Hquiet.
  2: { unfold progress, emit; cbn [bind try_catch raise app result snd].
       discriminate. }
  destruct (tokenize_step_requests file env (preprocessText text no_options))
    as [Hsent Hdata].
  destruct (tokenize_step_returns file env (preprocessText text no_options))
    as (t2 & data & Hstep).
  rewrite Hstep in Hsent, Hdata; cbn [events result fst snd] in Hsent, Hdata.
  unfold progress, emit; cbn [bind try_catch ret app].
  rewrite Hstep; cbn [bind try_catch ret app events result fst snd].
  intros Hdoc; injection Hdoc as <-.
  cbn [preprocessedText extractedText tokenizedData].
  assert (Hall : forall a b c d : event,
            is_fetch a = false -> is_fetch b = false -> is_fetch c = false ->
            is_fetch d = false ->
            requests (a :: t1 ++ b :: c :: t2 ++ [d]) = requests t2).
  { intros a b c d Ha Hb Hc Hd.
    change (a :: t1 ++ b :: c :: t2 ++ [d])
      with ([a] ++ t1 ++ [b; c] ++ t2 ++ [d]).
    rewrite !requests_app, Hquiet. cbn [requests filter].
    rewrite Ha, Hb, Hc, Hd. cbn [app]. apply app_nil_r. }
  rewrite Hall by reflexivity.
  split; [reflexivity|]. split; [exact Hsent|].
  intros Hsome. destruct data as [data|]; [|congruence].
  specialize (Hdata data eq_refl). rewrite Hsent in *.
  destruct (azureFunctionUrl (tokenizer env)) as [url|]; [|congruence].
  destruct (js_eqb (trim url) []); [congruence | reflexivity].
Qed.

Lemma tokenizer_is_sent_the_preprocessed_text_witness :
  exists doc,
    result (extractText notes_txt (env_with 0 (Returned (ok_response well_formed))))
    = Returned doc
    /\ preprocessedText doc = js "HELLO WORLD: value one value two"
    /\ List.map (fun e => match e with
                          | EvFetch _ _ text _ => text
                          | _ => []
                          end)
         (requests
            (events (extractText notes_txt
                       (env_with 0 (Returned (ok_response well_formed))))))
       = [preprocessedText doc].
Proof.
  assert (H : exists doc,
            result (extractText notes_txt
                      (env_with 0 (Returned (ok_response well_formed))))
            = Returned doc
            /\ preprocessedText doc = js "HELLO WORLD: value one value two").
  { eexists. split; vm_compute; reflexivity. }
  destruct H as (doc & Hdoc & Htext).
  exists doc. split; [exact Hdoc | split; [exact Htext|]].
  destruct (@tokenizer_is_sent_the_preprocessed_text notes_txt
              (env_with 0 (Returned (ok_response well_formed))) doc Hdoc)
    as (_ & Hsent & _).
  rewrite Hsent. reflexivity.
Defined.
